(** * Blink402 payment core: verification, transaction templates, tiers

    A shallow embedding of the payment-facing TypeScript sources of the
    repository, followed by the properties established about them.

    - [Js]                  values and control effects shared by all modules
    - [Config]              environment helpers (config package)
    - [Binary64]            the exact values of doubles and their rounding
    - [Retry]               retry-utils: exponential backoff
    - [Web3]                the data the Solana libraries exchange with the code
    - [Solana]              reward and refund templates, transfer validation,
                            payment verification
    - [TransactionBuilder]  transaction-builder.ts: the payment template
    - [TokenHolder]         token-holder.ts: tiers, benefits, discounts
    - [Fixtures]            sample ledgers for the scenarios
    - [Vocabulary]          notions the statements of the properties use
    - [ExtractPayer]        extract-payer.ts: the payer of a transaction
    - [SolanaTransfers]     legacy transfer templates, error messages,
                            waiting for a payment, display of keys
    - [Environment]         the validated environment (config package)
    - [HolderMint]          the mint of the holder token
    - [SolanaPay]           solana-pay-verification.ts
    - [SpamDetector]        spam-detector.ts
    - [McpServer]           the purchase tools of the MCP server
    - [Ledgers], [Notions]  further sample ledgers and notions

    JavaScript numbers are IEEE-754 doubles and are modelled by the primitive
    binary64 floats; bigints are modelled by [Z].  [Math.random] and the
    results of [Math.pow] that ECMAScript leaves to the implementation are
    parameters of the retry loop. *)

From Stdlib Require Import ZArith List String Ascii Bool Lia.
From Stdlib Require Import QArith Qminmax Lqa Qabs Qpower.
From Stdlib Require Import Floats DecimalString.
Import ListNotations.

Set Implicit Arguments.
Set Warnings "-inexact-float".
Open Scope string_scope.
Open Scope list_scope.

(* ------------------------------------------------------------------ *)
(** * JavaScript values and effects *)

Module Js.

(** An address as its base58 text; [toBase58] is the identity and [===]
    on addresses rendered as text is [String.eqb]. *)
Definition PublicKey := string.

(** The ledger's description of a failed execution, as the JSON text that
    [JSON.stringify] prints for it. *)
Definition TransactionError := string.

(** What a [throw] carries.  Errors raised by the libraries and by the RPC
    node keep their [name] and [message]; every [throw new Error(...)] of
    the modelled sources has a constructor of its own, holding the values
    that its message interpolates. *)
Inductive Thrown : Type :=
| LibError (name message : string)
| TypeError (message : string)
| RangeError (message : string)
(* transaction-builder.ts *)
| InvalidPayerWallet
| InvalidMerchantWallet (merchant : PublicKey)
| InsufficientUsdc (balance amountUsdc : float)
| NoUsdcAccount
| MerchantAccountMissing
(* validateTransferManually and its helpers *)
| MetadataUnavailable
| ReferenceNotFound
| WrongToken (expected got : string)
| NoSplTransferFound (recipient recipientATA : PublicKey)
| WrongAmount (expected actual difference : Z)
| RecipientNotInAccounts (recipient : PublicKey)
| NoSolReceived (recipient : PublicKey) (balanceChange : Z)
| WrongSolAmount (expected actual difference : Z)
(* getTransactionRaw, findReferenceWithoutValidation, verifyPayment *)
| RpcError (message : string)
| PaymentNotFound
| NoConfirmedTransaction
| FailedOnChain (err : TransactionError)
| ConfirmationTimeout (timeout : Z) (signature : string)
| ConfirmedTransactionNotFound (signature : string)
| TransactionFailed (err : TransactionError).

(** The result of running a piece of code: a value, or an exception. *)
Inductive Outcome (A : Type) : Type :=
| Return (a : A)
| Throw (e : Thrown).
Arguments Return {A} a.
Arguments Throw {A} e.

Definition bind {A B} (c : Outcome A) (k : A -> Outcome B) : Outcome B :=
  match c with
  | Return a => k a
  | Throw e => Throw e
  end.

(** [try { c } catch (e) { h e }] *)
Definition tryCatch {A} (c : Outcome A) (h : Thrown -> Outcome A) : Outcome A :=
  match c with
  | Return a => Return a
  | Throw e => h e
  end.

(** [String.prototype.includes] *)
Fixpoint includes (s needle : string) : bool :=
  if String.prefix needle s then true
  else match s with
       | EmptyString => false
       | String _ rest => includes rest needle
       end.

(** [String.prototype.toLowerCase] on ASCII text. *)
Definition lowerAscii (c : ascii) : ascii :=
  let n := nat_of_ascii c in
  if andb (Nat.leb 65 n) (Nat.leb n 90) then ascii_of_nat (n + 32) else c.

Fixpoint toLowerCase (s : string) : string :=
  match s with
  | EmptyString => EmptyString
  | String c rest => String (lowerAscii c) (toLowerCase rest)
  end.

(** [s.slice(0, n)] *)
Definition sliceTo (n : nat) (s : string) : string := String.substring 0 (Nat.min n (String.length s)) s.

(** [a || b] on strings that may be undefined: the empty string is falsy. *)
Definition orElse (a : option string) (b : string) : string :=
  match a with
  | Some s => if String.eqb s "" then b else s
  | None => b
  end.

(** [Number(z)] for a bigint [z]: the nearest double, ties to even. *)
Definition NumberOfBigInt (z : Z) : float :=
  SF2Prim (binary_normalize prec emax z 0 false).

(** [BigInt(Math.round(x))]: the integer nearest to [x], halves rounded
    up; [BigInt] raises a RangeError on NaN and on the infinities. *)
Definition roundToBigInt (x : float) : Outcome Z :=
  match Prim2SF x with
  | S754_zero _ => Return 0%Z
  | S754_finite s m e =>
      let sm := cond_Zopp s (Zpos m) in
      Return (if (0 <=? e)%Z then (sm * 2 ^ e)%Z
              else ((2 * sm + 2 ^ (- e)) / 2 ^ (- e + 1))%Z)
  | _ => Throw (RangeError "The number cannot be converted to a BigInt because it is not an integer")
  end.

(** [Math.max(0, x)]: NaN is contagious, and the maximum of [0] and [-0] is [0]. *)
Definition max0 (x : float) : float :=
  if PrimFloat.is_nan x then x
  else if PrimFloat.ltb 0 x then x else 0%float.

End Js.

Export Js.

Declare Scope js_scope.
Delimit Scope js_scope with js.
Notation "'let*' x ':=' c 'in' k" := (bind c (fun x => k))
  (at level 10, x pattern, c at level 100, k at level 200) : js_scope.
Local Open Scope js_scope.

(* ------------------------------------------------------------------ *)
(** * Configuration helpers *)

Module Config.

(** [process.env] *)
Definition Env := string -> option string.

Definition setenv (env : Env) (key : string) (v : option string) : Env :=
  fun k => if String.eqb k key then v else env k.

(** [process.env[key] === value] *)
Definition envIs (env : Env) (key value : string) : bool :=
  match env key with
  | Some s => String.eqb s value
  | None => false
  end.

Definition isProduction (env : Env) : bool := envIs env "NODE_ENV" "production".

Definition isDevelopment (env : Env) : bool := envIs env "NODE_ENV" "development".

Definition isMockPaymentsEnabled (env : Env) : bool :=
  if isProduction env then false
  else envIs env "MOCK_PAYMENTS" "true".

End Config.

(* ------------------------------------------------------------------ *)
(** * The values of doubles *)

(** JavaScript numbers are binary64 doubles. The statements about their
    arithmetic speak of the exact value of a double; the smallest positive
    double is [2^-1074], so every value times [2^2200] is an integer, and
    so are the exact sums, differences and products of two doubles. *)

Module Binary64.

Local Open Scope Z_scope.

(** The value 1, the smallest positive double, the first power of two
    beyond the doubles ([2^1024]), and a number that stands for infinity,
    each times [2^2200]. *)
Definition one : Z := 2 ^ 2200.
Definition least : Z := 2 ^ 1126.
Definition huge : Z := 2 ^ 3224.
Definition unbounded : Z := 2 ^ 6000.

(** The value of a double times [2^2200]. *)
Definition scaled (x : spec_float) : Z :=
  match x with
  | S754_finite s m e => cond_Zopp s (Zpos m * 2 ^ (e + 2200))
  | S754_infinity s => cond_Zopp s unbounded
  | _ => 0
  end.

Definition value (x : float) : Z := scaled (Prim2SF x).

(** The value of a finite double as a rational number. *)
Definition valueOf (x : float) : Q :=
  match Prim2SF x with
  | S754_finite s m e => (inject_Z (cond_Zopp s (Zpos m)) * Qpower 2 e)%Q
  | _ => 0%Q
  end.

(** A double that is zero, positive or plus infinity. *)
Definition nonnegative (x : spec_float) : bool :=
  match x with
  | S754_zero _ => true
  | S754_finite s _ _ | S754_infinity s => negb s
  | S754_nan => false
  end.

(** A double that is a number and not an infinity. *)
Definition finite (x : spec_float) : bool :=
  match x with
  | S754_zero _ | S754_finite _ _ _ => true
  | _ => false
  end.

(** A number of the given sign. *)
Definition signed (s : bool) (x : spec_float) : Prop :=
  match x with
  | S754_zero s' | S754_infinity s' | S754_finite s' _ _ => s' = s
  | S754_nan => False
  end.

(** [x / 2^g] rounded to the nearest integer, ties to the even one. *)
Definition nearestEven (x g : Z) : Z :=
  let q := x / 2 ^ g in
  let r := x mod 2 ^ g in
  if 2 * r <? 2 ^ g then q
  else if 2 ^ g <? 2 * r then q + 1
  else if Z.even q then q else q + 1.

(** The exponent of the spacing of the doubles at the scaled value [x]:
    53 bits of precision, and no spacing below [2^-1074]. *)
Definition ulpExp (x : Z) : Z := Z.max (Zdigits2 x - 53) 1126.

(** The scaled value [x] rounded to the nearest double, ties to even. *)
Definition rne (x : Z) : Z := nearestEven x (ulpExp x) * 2 ^ ulpExp x.

(** What lies beyond the doubles becomes infinity. *)
Definition overflow (v : Z) : Z := if v <? huge then v else unbounded.

(** The state of the shift register of the rounding after [j] steps on
    the mantissa [m]. *)
Definition shifted (m : Z) (j : nat) : shr_record :=
  match j with
  | O => {| shr_m := m; shr_r := false; shr_s := false |}
  | S i => {| shr_m := m / 2 ^ Z.of_nat j;
              shr_r := Z.odd (m / 2 ^ Z.of_nat i);
              shr_s := negb (m mod 2 ^ Z.of_nat i =? 0) |}
  end.

End Binary64.

(* ------------------------------------------------------------------ *)
(** * Retry utilities *)

Module Retry.

Local Open Scope float_scope.

(** What [fn] may reject with: an [Error] carrying a message, or any other
    value ([error instanceof Error] is false for it). *)
Inductive Raised : Type :=
| ErrorObject (message : string)
| OtherValue.

(** A key of an options object: missing, present with the value
    [undefined], or present with a value.  A default of a destructuring
    pattern applies to the first two; an object spread copies the last
    two. *)
Inductive Key (A : Type) : Type :=
| Absent
| Undefined
| Given (v : A).

Arguments Absent {A}.
Arguments Undefined {A}.
Arguments Given {A} v.

(** The options; [onRetry] only reports the retry and is left out. *)
Record RetryOptions : Type := {
  maxRetries : Key nat;
  initialDelayMs : Key float;
  maxDelayMs : Key float;
  backoffMultiplier : Key float;
  shouldRetry : Key (Raised -> nat -> bool)
}.

Definition noOptions : RetryOptions :=
  {| maxRetries := Absent; initialDelayMs := Absent; maxDelayMs := Absent;
     backoffMultiplier := Absent; shouldRetry := Absent |}.

Definition defaultShouldRetry (error : Raised) (attempt : nat) : bool :=
  match error with
  | ErrorObject msg =>
      let message := toLowerCase msg in
      if existsb (includes message)
           ["429"; "500"; "502"; "503"; "504"; "timeout"; "network";
            "econnreset"; "enotfound"; "blockhash not found";
            "node is behind"; "rpc"]
      then true
      else if existsb (includes message)
           ["insufficient"; "invalid"; "not found"; "already"; "duplicate"]
      then false
      else true
  | OtherValue => true
  end.

(** The sign bit of a number. *)
Definition signBit (x : float) : bool :=
  match Prim2SF x with
  | S754_zero s | S754_infinity s | S754_finite s _ _ => s
  | S754_nan => false
  end.

(** [Math.min] of two numbers: NaN if either is NaN, and [-0] counts as
    less than [0]. *)
Definition mathMin (x y : float) : float :=
  if PrimFloat.is_nan x || PrimFloat.is_nan y then nan
  else if x <? y then x
  else if y <? x then y
  else if signBit x then x else y.

(** [Math.pow(base, attempt)] for the attempt counter, a natural number:
    1 for the exponent 0; ECMAScript leaves the other results to the
    implementation, which is [approx] here. *)
Definition mathPow (approx : float -> nat -> float) (base : float) (attempt : nat) : float :=
  match attempt with
  | O => 1
  | _ => approx base attempt
  end.

(** The delay slept after the failed attempt number [attempt]; [random] is
    the value [Math.random()] returned there. *)
Definition nextDelay (approx : float -> nat -> float) (initialDelay maxDelay multiplier : float)
    (attempt : nat) (random : float) : float :=
  let baseDelay := initialDelay * mathPow approx multiplier attempt in
  let jitteredDelay := baseDelay * (0.5 + random * 0.5) in
  mathMin jitteredDelay maxDelay.

Section Loop.
Variable T : Type.
(** [fn k] is what the call of [fn] in attempt [k] settles to, and
    [random k] the jitter drawn after it failed. *)
Variable fn : nat -> T + Raised.
Variable approx : float -> nat -> float.
Variable random : nat -> float.
Variables initialDelay maxDelay multiplier : float.
Variable retryable : Raised -> nat -> bool.

(** The [for] loop from attempt [attempt] on, with [remaining] standing
    for [maxRetries - attempt]; the second component lists the delays
    slept, in order. *)
Fixpoint attempts (remaining attempt : nat) : (T + Raised) * list float :=
  match fn attempt with
  | inl v => (inl v, [])
  | inr error =>
      match remaining with
      | O => (inr error, [])
      | S remaining' =>
          if negb (retryable error attempt) then (inr error, [])
          else
            let d := nextDelay approx initialDelay maxDelay multiplier attempt
                       (random attempt) in
            let '(r, ds) := attempts remaining' (S attempt) in
            (r, d :: ds)
      end
  end.
End Loop.

(** A destructuring default: it applies to a missing key and to one that
    is [undefined]. *)
Definition orDefault {A} (o : Key A) (d : A) : A :=
  match o with Given a => a | _ => d end.

Definition withExponentialBackoff {T} (fn : nat -> T + Raised)
    (approx : float -> nat -> float) (random : nat -> float)
    (options : RetryOptions) : (T + Raised) * list float :=
  attempts fn approx random
    (orDefault (initialDelayMs options) 1000)
    (orDefault (maxDelayMs options) 30000)
    (orDefault (backoffMultiplier options) 2)
    (orDefault (shouldRetry options) defaultShouldRetry)
    (orDefault (maxRetries options) 3%nat) 0.

(** A key of [{ ...preset, ...options }]: the key of [options] unless it
    is missing there. *)
Definition spread {A} (preset own : Key A) : Key A :=
  match own with
  | Absent => preset
  | _ => own
  end.

(** [retrySolanaRpc]: the same loop with three keys preset, which the
    caller's options override. *)
Definition retrySolanaRpc {T} (fn : nat -> T + Raised)
    (approx : float -> nat -> float) (random : nat -> float)
    (options : RetryOptions) : (T + Raised) * list float :=
  withExponentialBackoff fn approx random
    {| maxRetries := spread (Given 3%nat) (maxRetries options);
       initialDelayMs := spread (Given 500) (initialDelayMs options);
       maxDelayMs := spread (Given 10000) (maxDelayMs options);
       backoffMultiplier := spread Absent (backoffMultiplier options);
       shouldRetry := spread Absent (shouldRetry options) |}.

(** Each delay is at most the one that follows it. *)
Fixpoint nonDecreasing (ds : list float) : Prop :=
  match ds with
  | d :: (d' :: _) as rest => (d <=? d') = true /\ nonDecreasing rest
  | _ => True
  end.

End Retry.

(* ------------------------------------------------------------------ *)
(** * The interface of the Solana libraries *)

Module Web3.

Inductive Commitment : Type := Processed | Confirmed | Finalized.

(** A token account as [getAccount] returns it; [amount] is a bigint. *)
Record TokenAccount : Type := { amount : Z }.

Record BlockhashInfo : Type := {
  blockhash : string;
  lastValidBlockHeight : Z
}.

(** An entry of [getSignaturesForAddress]. *)
Record ConfirmedSignatureInfo : Type := {
  signature : string;
  confirmationStatus : option Commitment
}.

(** The [value] of [getSignatureStatus]. *)
Record SignatureStatus : Type := {
  statusErr : option TransactionError;
  statusConfirmation : option Commitment
}.

(** A transaction in the [jsonParsed] encoding of the raw RPC call. *)
Record TokenBalance : Type := {
  accountIndex : nat;
  mint : string;
  uiTokenAmount : Z          (* [BigInt(uiTokenAmount.amount)] *)
}.

Record Meta : Type := {
  metaErr : option TransactionError;
  preBalances : option (list Z);
  postBalances : option (list Z);
  preTokenBalances : option (list TokenBalance);
  postTokenBalances : option (list TokenBalance)
}.

(** An account key is either a plain string or an object with a [pubkey]. *)
Inductive AccountKey : Type :=
| KeyText (key : string)
| KeyObject (pubkey : string).

Record Message : Type := { accountKeys : option (list AccountKey) }.

Record TransactionBody : Type := { message : Message }.

Record RawTransaction : Type := {
  meta : option Meta;
  transaction : option TransactionBody;
  blockTime : option Z
}.

(** The JSON-RPC envelope of [getTransaction]: an error rendered as the
    text [error.message || JSON.stringify(error)], or a result that is
    null when the node does not know the signature. *)
Record RpcResponse : Type := {
  rpcError : option string;
  rpcResult : option RawTransaction
}.

(** A connection answers the calls the code makes.  The ledger moves on
    between polls, so the status of a signature depends on the number of
    the poll as well. *)
Record Connection : Type := {
  getAccount : PublicKey -> Outcome TokenAccount;
  getAccountInfo : PublicKey -> Outcome (option unit);
  getLatestBlockhash : Commitment -> Outcome BlockhashInfo;
  getSignaturesForAddress : PublicKey -> Outcome (list ConfirmedSignatureInfo);
  getSignatureStatus : nat -> string -> Outcome (option SignatureStatus);
  rpcGetTransaction : string -> Outcome RpcResponse
}.

(** The library functions whose results the code only passes along. *)
Record Library : Type := {
  newPublicKey : string -> Outcome PublicKey;
  getAssociatedTokenAddress : PublicKey -> PublicKey -> Outcome PublicKey;
  newConnection : string -> Outcome Connection
}.

Record AccountMeta : Type := {
  metaPubkey : PublicKey;
  isSigner : bool;
  isWritable : bool
}.

(** Instructions, by the library call that creates them.  [pushed] lists
    the keys the code appends to an instruction after creating it. *)
Inductive Instruction : Type :=
| SetComputeUnitLimit (units : Z)
| SetComputeUnitPrice (microLamports : Z)
| CreateAssociatedTokenAccount (payer associatedToken owner mint : PublicKey)
| TransferChecked (source mint destination owner : PublicKey)
                  (amount decimals : Z) (pushed : list AccountMeta)
| SystemTransfer (fromPubkey toPubkey : PublicKey) (lamports : float)
                 (pushed : list AccountMeta)
| MemoInstruction (data : string).

Inductive InstructionKind : Type :=
| ComputeLimit | ComputePrice | CreateAccount | TokenTransfer | NativeTransfer | Memo.

Definition kindOf (i : Instruction) : InstructionKind :=
  match i with
  | SetComputeUnitLimit _ => ComputeLimit
  | SetComputeUnitPrice _ => ComputePrice
  | CreateAssociatedTokenAccount _ _ _ _ => CreateAccount
  | TransferChecked _ _ _ _ _ _ _ => TokenTransfer
  | SystemTransfer _ _ _ _ => NativeTransfer
  | MemoInstruction _ => Memo
  end.

(** A legacy [Transaction], unsigned. *)
Record Transaction : Type := {
  instructions : list Instruction;
  recentBlockhash : string;
  feePayer : PublicKey;
  txLastValidBlockHeight : Z
}.

(** A [VersionedTransaction] over a compiled v0 message, unsigned. *)
Record VersionedTransaction : Type := {
  payerKey : PublicKey;
  messageBlockhash : string;
  messageInstructions : list Instruction
}.

(** The sequence of instruction kinds of a template. *)
Definition shape (tx : Transaction) : list InstructionKind := map kindOf (instructions tx).

End Web3.

Export Web3.

(* ------------------------------------------------------------------ *)
(** * Solana helpers: templates, validation, verification *)

Module Solana.

Import Config.

Definition USDC_MINT_MAINNET : PublicKey := "EPjFWdd5AufqSSqeM2qN1xzybapC8G4wEGGkZwyTDt1v".
Definition USDC_MINT_DEVNET : PublicKey := "4zMMC9srt5Ri5X14GAgXhaHii3GnPAEERYPJgZJDncDU".
Definition USDC_DECIMALS : Z := 6.
Definition MEMO_PROGRAM : PublicKey := "MemoSq4gqABAXKb96qnH8TysNcWxMyWCqXgDLGmfcHr".

Inductive Network : Type := Devnet | MainnetBeta.

(** A non-empty string is truthy. *)
Definition truthy (o : option string) : bool :=
  match o with
  | Some s => negb (String.eqb s "")
  | None => false
  end.

Definition getUsdcMint (env : Env) (lib : Library) (network : option Network) : Outcome PublicKey :=
  if truthy (env "NEXT_PUBLIC_USDC_MINT")
  then newPublicKey lib (orElse (env "NEXT_PUBLIC_USDC_MINT") "")
  else
    let devnet :=
      match network with
      | Some Devnet => true
      | Some MainnetBeta => false
      | None => String.eqb (orElse (env "NEXT_PUBLIC_SOLANA_NETWORK") "mainnet-beta") "devnet"
      end in
    Return (if devnet then USDC_MINT_DEVNET else USDC_MINT_MAINNET).

Definition getConnection (env : Env) (lib : Library) : Outcome Connection :=
  newConnection lib
    (orElse (env "NEXT_PUBLIC_SOLANA_RPC_URL")
       (orElse (env "SOLANA_RPC_URL") "https://api.mainnet-beta.solana.com")).

Definition referenceKey (reference : PublicKey) : AccountMeta :=
  {| metaPubkey := reference; isSigner := false; isWritable := false |}.

(** The address of [owner]'s token account, and the instruction creating
    it when [getAccount] fails for whatever reason. *)
Definition getOrCreateTokenAccount (env : Env) (lib : Library) (connection : Connection)
    (payer owner : PublicKey) (mint : option PublicKey)
    : Outcome (PublicKey * option Instruction) :=
  let* tokenMint :=
    match mint with
    | Some m => Return m
    | None => getUsdcMint env lib None
    end in
  let* associatedToken := getAssociatedTokenAddress lib tokenMint owner in
  tryCatch
    (let* _ := getAccount connection associatedToken in
     Return (associatedToken, None))
    (fun _ =>
       Return (associatedToken,
               Some (CreateAssociatedTokenAccount payer associatedToken owner tokenMint))).

Definition optionToList {A} (o : option A) : list A :=
  match o with Some a => [a] | None => [] end.

Definition memoInstructions (memo : option string) : list Instruction :=
  match memo with
  | Some text => if String.eqb text "" then [] else [MemoInstruction text]
  | None => []
  end.

Record RewardParams : Type := {
  rewardConnection : Connection;
  creator : PublicKey;
  rewardUser : PublicKey;
  rewardAmount : Z;
  rewardReference : option PublicKey;
  rewardMemo : option string;
  rewardTokenMint : option PublicKey
}.

Definition buildRewardTransaction (env : Env) (lib : Library) (params : RewardParams)
    : Outcome Transaction :=
  let connection := rewardConnection params in
  let budget := [SetComputeUnitLimit 80000; SetComputeUnitPrice 500000] in
  let pushed := map referenceKey (optionToList (rewardReference params)) in
  let* transfer :=
    match rewardTokenMint params with
    | Some tokenMint =>
        let* creatorTokenAccount := getAssociatedTokenAddress lib tokenMint (creator params) in
        let* userTokenInfo :=
          getOrCreateTokenAccount env lib connection (creator params) (rewardUser params)
            (Some tokenMint) in
        Return (optionToList (snd userTokenInfo) ++
                [TransferChecked creatorTokenAccount tokenMint (fst userTokenInfo)
                   (creator params) (rewardAmount params) USDC_DECIMALS pushed])
    | None =>
        Return [SystemTransfer (creator params) (rewardUser params)
                  (NumberOfBigInt (rewardAmount params)) pushed]
    end in
  let* latest := getLatestBlockhash connection Confirmed in
  Return {| instructions := budget ++ transfer ++ memoInstructions (rewardMemo params);
            recentBlockhash := blockhash latest;
            feePayer := creator params;
            txLastValidBlockHeight := lastValidBlockHeight latest |}.

Record RefundParams : Type := {
  refundConnection : Connection;
  platformWallet : PublicKey;
  refundUser : PublicKey;
  refundAmount : Z;
  refundReference : PublicKey;
  refundMemo : option string;
  refundTokenMint : option PublicKey
}.

Definition buildRefundTransaction (env : Env) (lib : Library) (params : RefundParams)
    : Outcome Transaction :=
  let connection := refundConnection params in
  let pushed := [referenceKey (refundReference params)] in
  let* transfer :=
    match refundTokenMint params with
    | Some tokenMint =>
        let* platformTokenAccount :=
          getAssociatedTokenAddress lib tokenMint (platformWallet params) in
        let* userTokenInfo :=
          getOrCreateTokenAccount env lib connection (platformWallet params)
            (refundUser params) (Some tokenMint) in
        Return (optionToList (snd userTokenInfo) ++
                [TransferChecked platformTokenAccount tokenMint (fst userTokenInfo)
                   (platformWallet params) (refundAmount params) USDC_DECIMALS pushed])
    | None =>
        Return [SystemTransfer (platformWallet params) (refundUser params)
                  (NumberOfBigInt (refundAmount params)) pushed]
    end in
  let* latest := getLatestBlockhash connection Finalized in
  Return {| instructions := transfer ++ memoInstructions (refundMemo params);
            recentBlockhash := blockhash latest;
            feePayer := platformWallet params;
            txLastValidBlockHeight := lastValidBlockHeight latest |}.

(** ** Transfer validation *)

Definition keyText (key : AccountKey) : string :=
  match key with
  | KeyText text => text
  | KeyObject pubkey => pubkey
  end.

(** [xs || []] *)
Definition orEmpty {A} (xs : option (list A)) : list A :=
  match xs with Some l => l | None => [] end.

Definition undefinedRead (property : string) : Thrown :=
  TypeError (String.append "Cannot read properties of undefined (reading '"
               (String.append property "')")).

(** [transaction.transaction.message.accountKeys || []] *)
Definition accountKeysOf (transaction : RawTransaction) : Outcome (list AccountKey) :=
  match Web3.transaction transaction with
  | Some body => Return (orEmpty (accountKeys (message body)))
  | None => Throw (undefinedRead "message")
  end.

Definition absDifference (a b : Z) : Z :=
  if (a >? b)%Z then (a - b)%Z else (b - a)%Z.

(** The loop over the post-token balances: the increase of the first entry
    that belongs to the recipient's token account and grew, if any. *)
Fixpoint findReceived (transaction : RawTransaction) (pre : list TokenBalance)
    (expectedRecipientATA expectedToken : PublicKey) (post : list TokenBalance)
    : Outcome (option Z) :=
  match post with
  | [] => Return None
  | postBalance :: rest =>
      let preBalance :=
        find (fun pb => Nat.eqb (accountIndex pb) (accountIndex postBalance)) pre in
      let postAmount := uiTokenAmount postBalance in
      let preAmount := match preBalance with Some pb => uiTokenAmount pb | None => 0%Z end in
      let balanceChange := (postAmount - preAmount)%Z in
      let* keys := accountKeysOf transaction in
      match nth_error keys (accountIndex postBalance) with
      | None => Throw (undefinedRead "pubkey")
      | Some accountKey =>
          if andb (String.eqb (keyText accountKey) expectedRecipientATA)
                  (balanceChange >? 0)%Z
          then
            if negb (String.eqb (mint postBalance) expectedToken)
            then Throw (WrongToken expectedToken (mint postBalance))
            else Return (Some balanceChange)
          else findReceived transaction pre expectedRecipientATA expectedToken rest
      end
  end.

Definition validateSplTokenTransfer (lib : Library) (transaction : RawTransaction)
    (expectedRecipient : PublicKey) (expectedAmount : Z) (expectedToken : PublicKey)
    : Outcome unit :=
  let* expectedRecipientATA := getAssociatedTokenAddress lib expectedToken expectedRecipient in
  match meta transaction with
  | None => Throw (undefinedRead "postTokenBalances")
  | Some m =>
      let* found :=
        findReceived transaction (orEmpty (preTokenBalances m))
          expectedRecipientATA expectedToken (orEmpty (postTokenBalances m)) in
      match found with
      | None => Throw (NoSplTransferFound expectedRecipient expectedRecipientATA)
      | Some actualAmount =>
          let amountDifference := absDifference actualAmount expectedAmount in
          if (amountDifference >? 1)%Z
          then Throw (WrongAmount expectedAmount actualAmount amountDifference)
          else Return tt
      end
  end.

(** [keys.findIndex(...)], [None] standing for [-1]. *)
Fixpoint findIndex (p : AccountKey -> bool) (keys : list AccountKey) : option nat :=
  match keys with
  | [] => None
  | key :: rest =>
      if p key then Some O
      else match findIndex p rest with Some i => Some (S i) | None => None end
  end.

Definition validateSolTransfer (transaction : RawTransaction)
    (expectedRecipient : PublicKey) (expectedAmount : Z) : Outcome unit :=
  match meta transaction with
  | None => Throw (undefinedRead "postBalances")
  | Some m =>
      let* keys := accountKeysOf transaction in
      match findIndex (fun key => String.eqb (keyText key) expectedRecipient) keys with
      | None => Throw (RecipientNotInAccounts expectedRecipient)
      | Some recipientIndex =>
          let postBalance := nth recipientIndex (orEmpty (postBalances m)) 0%Z in
          let preBalance := nth recipientIndex (orEmpty (preBalances m)) 0%Z in
          let balanceChange := (postBalance - preBalance)%Z in
          if (balanceChange <=? 0)%Z
          then Throw (NoSolReceived expectedRecipient balanceChange)
          else
            let amountDifference := absDifference balanceChange expectedAmount in
            if (amountDifference >? 1000000)%Z
            then Throw (WrongSolAmount expectedAmount balanceChange amountDifference)
            else Return tt
      end
  end.

Definition validateTransferManually (lib : Library) (transaction : RawTransaction)
    (expectedRecipient : PublicKey) (expectedAmount : Z)
    (expectedToken : option PublicKey) (reference : PublicKey) : Outcome unit :=
  match meta transaction, Web3.transaction transaction with
  | Some _, Some body =>
      let accountKeys := orEmpty (accountKeys (message body)) in
      let referenceFound := existsb (fun key => String.eqb (keyText key) reference) accountKeys in
      if negb referenceFound then Throw ReferenceNotFound
      else
        match expectedToken with
        | Some token =>
            validateSplTokenTransfer lib transaction expectedRecipient expectedAmount token
        | None => validateSolTransfer transaction expectedRecipient expectedAmount
        end
  | _, _ => Throw MetadataUnavailable
  end.

(** ** Payment verification *)

(** The raw [getTransaction] call. *)
Definition getTransactionRaw (connection : Connection) (signature : string)
    : Outcome (option RawTransaction) :=
  let* result := rpcGetTransaction connection signature in
  match rpcError result with
  | Some text => Throw (RpcError text)
  | None => Return (rpcResult result)
  end.

Definition settled (status : option Commitment) : bool :=
  match status with
  | Some Confirmed | Some Finalized => true
  | _ => false
  end.

Definition findReferenceWithoutValidation (connection : Connection) (reference : PublicKey)
    : Outcome (string * Commitment) :=
  let* signatures := getSignaturesForAddress connection reference in
  match signatures with
  | [] => Throw PaymentNotFound
  | _ =>
      match find (fun sig => settled (confirmationStatus sig)) signatures with
      | None => Throw NoConfirmedTransaction
      | Some confirmedSig =>
          Return (Web3.signature confirmedSig,
                  match confirmationStatus confirmedSig with
                  | Some c => c
                  | None => Confirmed
                  end)
      end
  end.

Record VerifyParams : Type := {
  connection : Connection;
  reference : PublicKey;
  recipient : PublicKey;
  amount : Z;
  splToken : option PublicKey;
  timeout : option Z
}.

Record VerificationResult : Type := {
  resultSignature : string;
  resultAmount : Z;
  timestamp : Z
}.

(** What the ledger was seen to answer during a verification: the status
    returned to a poll, and the transaction fetched afterwards. *)
Inductive Observation : Type :=
| SawStatus (poll : nat) (status : option SignatureStatus)
| SawTransaction (tx : option RawTransaction).

(** The confirmation loop.  [clock k] is the k-th reading of [Date.now()];
    [tick] counts the readings made and [poll] the status polls.  The loop
    ends by returning the tick reached once the signature is confirmed or
    by throwing; [None] means that [fuel] iterations did not suffice.  The
    second component records the ledger's answers. *)
Fixpoint awaitConfirmation (fuel : nat) (conn : Connection) (clock : nat -> Z)
    (startTime limit : Z) (signature : string) (tick poll : nat)
    : option (Outcome nat) * list Observation :=
  match fuel with
  | O => (None, [])
  | S fuel' =>
      if (clock tick - startTime <? limit)%Z then
        match getSignatureStatus conn poll signature with
        | Throw e => (Some (Throw e), [])
        | Return status =>
            let seen := SawStatus poll status in
            let again :=
              let '(r, obs) :=
                awaitConfirmation fuel' conn clock startTime limit signature (S tick) (S poll) in
              (r, seen :: obs) in
            match status with
            | None => again
            | Some value =>
                match statusErr value with
                | Some err => (Some (Throw (FailedOnChain err)), [seen])
                | None =>
                    if settled (statusConfirmation value)
                    then (Some (Return (S tick)), [seen])
                    else again
                end
            end
        end
      else (Some (Throw (ConfirmationTimeout limit signature)), [])
  end.

(** [tx.blockTime || Math.floor(Date.now() / 1000)] *)
Definition timestampOf (tx : RawTransaction) (now : Z) : Z :=
  match blockTime tx with
  | Some t => if (t =? 0)%Z then (now / 1000)%Z else t
  | None => (now / 1000)%Z
  end.

Definition mockBranch (env : Env) : bool :=
  andb (envIs env "MOCK_PAYMENTS" "true") (negb (envIs env "NODE_ENV" "production")).

(** [verifyPayment].  Every value thrown inside its [try] block is an
    [Error], which the [catch] clause throws again unchanged. *)
Definition verifyPayment (env : Env) (lib : Library) (clock : nat -> Z) (fuel : nat)
    (params : VerifyParams) : option (Outcome VerificationResult) * list Observation :=
  let limit := match timeout params with Some t => t | None => 30000%Z end in
  if mockBranch env then
    (Some (Return {| resultSignature :=
                       String.append "MOCK_"
                         (String.append (sliceTo 44 (reference params)) "_VERIFIED");
                     resultAmount := amount params;
                     timestamp := (clock O / 1000)%Z |}), [])
  else
    match findReferenceWithoutValidation (connection params) (reference params) with
    | Throw e => (Some (Throw e), [])
    | Return signatureInfo =>
        let signature := fst signatureInfo in
        let startTime := clock O in
        let '(waited, seen) :=
          awaitConfirmation fuel (connection params) clock startTime limit signature 1 0 in
        match waited with
        | None => (None, seen)
        | Some (Throw e) => (Some (Throw e), seen)
        | Some (Return tick) =>
            match getTransactionRaw (connection params) signature with
            | Throw e => (Some (Throw e), seen)
            | Return fetched =>
                let seen' := seen ++ [SawTransaction fetched] in
                match fetched with
                | None => (Some (Throw (ConfirmedTransactionNotFound signature)), seen')
                | Some tx =>
                    match match meta tx with Some m => metaErr m | None => None end with
                    | Some err => (Some (Throw (TransactionFailed err)), seen')
                    | None =>
                        match validateTransferManually lib tx (recipient params)
                                (amount params) (splToken params) (reference params) with
                        | Throw e => (Some (Throw e), seen')
                        | Return _ =>
                            (Some (Return {| resultSignature := signature;
                                             resultAmount := amount params;
                                             timestamp := timestampOf tx (clock tick) |}),
                             seen')
                        end
                    end
                end
            end
        end
    end.

Definition isMockPaymentsEnabled (env : Env) : bool :=
  andb (envIs env "MOCK_PAYMENTS" "true") (negb (envIs env "NODE_ENV" "production")).

End Solana.

(* ------------------------------------------------------------------ *)
(** * The payment template *)

Module TransactionBuilder.

Import Solana.

Definition PAYAI_FEE_PAYER : PublicKey := "2wKupLR9q6wXYppw8Gr2NvWxKBUqm4PPJKkQfoxHDBg4".
Definition USDC_MINT_MAINNET : PublicKey := "EPjFWdd5AufqSSqeM2qN1xzybapC8G4wEGGkZwyTDt1v".
Definition USDC_MINT_DEVNET : PublicKey := "4zMMC9srt5Ri5X14GAgXhaHii3GnPAEERYPJgZJDncDU".
Definition USDC_DECIMALS : Z := 6.

Record BuildUsdcPaymentTxParams : Type := {
  connection : Connection;
  payer : PublicKey;
  merchant : PublicKey;
  amountUsdc : float;
  network : option Network
}.

(** [err.message.includes('could not find')] for what the balance check
    can throw: an error of the library, or the insufficient-balance error
    of the check itself, whose text is fixed but for two numbers. *)
Definition saysCouldNotFind (err : Thrown) : bool :=
  match err with
  | LibError _ text | TypeError text | RangeError text | RpcError text =>
      includes text "could not find"
  | _ => false
  end.

Definition usdcToAtomic (amountUsdc : float) : Outcome Z :=
  roundToBigInt (amountUsdc * 1000000)%float.

Definition atomicToUsdc (amountAtomic : Z) : float :=
  (NumberOfBigInt amountAtomic / 1000000)%float.

Definition getUsdcMintForNetwork (network : Network) : PublicKey :=
  match network with
  | Devnet => USDC_MINT_DEVNET
  | MainnetBeta => USDC_MINT_MAINNET
  end.

Definition buildUsdcPaymentTransaction (lib : Library) (params : BuildUsdcPaymentTxParams)
    : Outcome VersionedTransaction :=
  let USDC_MINT :=
    match network params with
    | Some Devnet => USDC_MINT_DEVNET
    | _ => USDC_MINT_MAINNET
    end in
  let* amountAtomic := roundToBigInt (amountUsdc params * 1000000)%float in
  let* payerATA :=
    tryCatch (getAssociatedTokenAddress lib USDC_MINT (payer params))
             (fun _ => Throw InvalidPayerWallet) in
  let* merchantATA :=
    tryCatch (getAssociatedTokenAddress lib USDC_MINT (merchant params))
             (fun _ => Throw (InvalidMerchantWallet (merchant params))) in
  let* _ :=
    tryCatch
      (let* payerAccount := getAccount (connection params) payerATA in
       let balance := (NumberOfBigInt (Web3.amount payerAccount) / 1000000)%float in
       if (balance <? amountUsdc params)%float
       then Throw (InsufficientUsdc balance (amountUsdc params))
       else Return tt)
      (fun err => if saysCouldNotFind err then Throw NoUsdcAccount else Throw err) in
  let* merchantAtaInfo := getAccountInfo (connection params) merchantATA in
  match merchantAtaInfo with
  | None => Throw MerchantAccountMissing
  | Some _ =>
      let* latest := getLatestBlockhash (connection params) Confirmed in
      let instructions :=
        [ SetComputeUnitLimit 40000;
          SetComputeUnitPrice 1;
          TransferChecked payerATA USDC_MINT merchantATA (payer params)
            amountAtomic USDC_DECIMALS [] ] in
      Return {| payerKey := PAYAI_FEE_PAYER;
                messageBlockhash := blockhash latest;
                messageInstructions := instructions |}
  end.

End TransactionBuilder.

(* ------------------------------------------------------------------ *)
(** * Token holder tiers and benefits *)

Module TokenHolder.

Import Config.

Local Open Scope float_scope.

(** The text the module turns into [B402_MINT] when it is loaded. *)
Definition B402_MINT_ADDRESS (env : Env) : string :=
  orElse (env "NEXT_PUBLIC_B402_MINT")
    (orElse (env "B402_MINT") "11111111111111111111111111111111").

Definition B402_DECIMALS : nat := 9.

Inductive TokenHolderTier : Type := NONE | BRONZE | SILVER | GOLD | DIAMOND.

Record SlotMachineBenefits : Type := {
  slotDiscountPercent : float;
  bonusMultiplier : float;
  freeSpinsDaily : float
}.

Record LotteryBenefits : Type := {
  lotteryDiscountPercent : float;
  bonusEntries : float;
  winBoostPercent : float
}.

Record BlinksBenefits : Type := {
  creatorFeeDiscount : float;
  priorityExecution : bool;
  customBranding : bool
}.

Record TokenBenefits : Type := {
  slotMachine : SlotMachineBenefits;
  lottery : LotteryBenefits;
  blinks : BlinksBenefits
}.

Record TokenHolderInfo : Type := {
  tier : TokenHolderTier;
  balance : float;
  rawBalance : Z;
  benefits : TokenBenefits
}.

Definition TIER_THRESHOLDS (t : TokenHolderTier) : float :=
  match t with
  | NONE => 0            (* not a key of the table; never looked up *)
  | BRONZE => 1000
  | SILVER => 10000
  | GOLD => 50000
  | DIAMOND => 100000
  end.

Definition mkBenefits (sd sm sf ld le lw bc : float) (bp bb : bool) : TokenBenefits :=
  {| slotMachine := {| slotDiscountPercent := sd; bonusMultiplier := sm; freeSpinsDaily := sf |};
     lottery := {| lotteryDiscountPercent := ld; bonusEntries := le; winBoostPercent := lw |};
     blinks := {| creatorFeeDiscount := bc; priorityExecution := bp; customBranding := bb |} |}.

Definition TIER_BENEFITS (t : TokenHolderTier) : TokenBenefits :=
  match t with
  | NONE => mkBenefits 0 1.0 0 0 0 0 0 false false
  | BRONZE => mkBenefits 5 1.05 1 5 0 5 10 false false
  | SILVER => mkBenefits 10 1.10 3 10 1 10 20 false true
  | GOLD => mkBenefits 15 1.15 5 15 2 15 30 true true
  | DIAMOND => mkBenefits 20 1.25 10 20 5 25 50 true true
  end.

(** The chain of comparisons that turns a balance into a tier. *)
Definition tierOfBalance (balance : float) : TokenHolderTier :=
  if TIER_THRESHOLDS DIAMOND <=? balance then DIAMOND
  else if TIER_THRESHOLDS GOLD <=? balance then GOLD
  else if TIER_THRESHOLDS SILVER <=? balance then SILVER
  else if TIER_THRESHOLDS BRONZE <=? balance then BRONZE
  else NONE.

Definition noHolding : TokenHolderInfo :=
  {| tier := NONE; balance := 0; rawBalance := 0%Z; benefits := TIER_BENEFITS NONE |}.

(** The test of the inner [catch] for a missing token account. *)
Definition accountMissing (error : Thrown) : bool :=
  match error with
  | LibError name text =>
      orb (String.eqb name "TokenAccountNotFoundError")
          (orb (includes text "could not find") (includes text "Invalid"))
  | TypeError text | RangeError text | RpcError text =>
      orb (includes text "could not find") (includes text "Invalid")
  | _ => false
  end.

(** [Math.pow(10, B402_DECIMALS)] *)
Definition tokenUnit : float := 1000000000.

Definition getB402HolderTier (env : Env) (lib : Library) (walletAddress : string)
    (connection : option Connection) : Outcome TokenHolderInfo :=
  tryCatch
    (let* conn :=
       match connection with
       | Some c => Return c
       | None => Solana.getConnection env lib
       end in
     let* wallet := newPublicKey lib walletAddress in
     let* tokenAccount := getAssociatedTokenAddress lib (B402_MINT_ADDRESS env) wallet in
     tryCatch
       (let* account := getAccount conn tokenAccount in
        let rawBalance := Web3.amount account in
        let balance := NumberOfBigInt rawBalance / tokenUnit in
        let tier := tierOfBalance balance in
        Return {| tier := tier; balance := balance; rawBalance := rawBalance;
                  benefits := TIER_BENEFITS tier |})
       (fun error =>
          if accountMissing error then Return noHolding
          else Return noHolding))
    (fun _ => Return noHolding).

Inductive GameType : Type := SlotMachine | Lottery | Blinks.

Record DiscountQuote : Type := {
  discountedPrice : float;
  originalPrice : float;
  quoteTier : TokenHolderTier;
  savings : float;
  discountPercent : float
}.

Definition discountPercentOf (b : TokenBenefits) (gameType : GameType) : float :=
  match gameType with
  | SlotMachine => slotDiscountPercent (slotMachine b)
  | Lottery => lotteryDiscountPercent (lottery b)
  | Blinks => creatorFeeDiscount (blinks b)
  end.

Definition applyB402Discount (env : Env) (lib : Library) (basePrice : float)
    (walletAddress : string) (gameType : GameType) : Outcome DiscountQuote :=
  let* holderInfo := getB402HolderTier env lib walletAddress None in
  let discountPercent := discountPercentOf (benefits holderInfo) gameType in
  let discountAmount := basePrice * (discountPercent / 100) in
  let discountedPrice := max0 (basePrice - discountAmount) in
  Return {| discountedPrice := discountedPrice;
            originalPrice := basePrice;
            quoteTier := tier holderInfo;
            savings := discountAmount;
            discountPercent := discountPercent |}.

Definition getRemainingFreeSpins (env : Env) (lib : Library) (walletAddress : string)
    (usedSpinsToday : float) : Outcome float :=
  let* holderInfo := getB402HolderTier env lib walletAddress None in
  let dailyLimit := freeSpinsDaily (slotMachine (benefits holderInfo)) in
  Return (max0 (dailyLimit - usedSpinsToday)).

Definition rank (t : TokenHolderTier) : nat :=
  match t with
  | NONE => 0 | BRONZE => 1 | SILVER => 2 | GOLD => 3 | DIAMOND => 4
  end.

End TokenHolder.

(* ------------------------------------------------------------------ *)
(** * Sample ledgers

    The situations of the specification's scenarios: a merchant [M] is owed
    50000 atomic units of USDC under the reference [R], and a wallet [W]
    holds B402 tokens. *)

Module Fixtures.

Import Config Solana TransactionBuilder TokenHolder.

Definition ataOf (mint owner : PublicKey) : PublicKey :=
  String.append owner (String.append "/" mint).

Definition refusesConnections : string -> Outcome Connection :=
  fun _ => Throw (TypeError "Endpoint URL must start with `http:` or `https:`.").

Definition sampleLib : Library :=
  {| newPublicKey := fun text => Return text;
     getAssociatedTokenAddress := fun mint owner => Return (ataOf mint owner);
     newConnection := refusesConnections |}.

Definition noAccount : Thrown := LibError "TokenAccountNotFoundError" "".

(** A node that knows the token accounts [accounts] (address and amount),
    the signatures [signatures] of the reference, answers the status polls
    by [statuses] and serves [fetched] for any signature. *)
Definition node (accounts : list (PublicKey * Z))
    (signatures : list ConfirmedSignatureInfo)
    (statuses : nat -> option SignatureStatus)
    (fetched : option RawTransaction) : Connection :=
  let lookup address :=
    find (fun entry => String.eqb (fst entry) address) accounts in
  {| getAccount := fun address =>
       match lookup address with
       | Some entry => Return {| Web3.amount := snd entry |}
       | None => Throw noAccount
       end;
     getAccountInfo := fun address =>
       Return (match lookup address with Some _ => Some tt | None => None end);
     getLatestBlockhash := fun commitment =>
       Return {| blockhash := match commitment with
                              | Finalized => "blockhash-finalized"
                              | _ => "blockhash-confirmed"
                              end;
                 lastValidBlockHeight := 1000 |};
     getSignaturesForAddress := fun _ => Return signatures;
     getSignatureStatus := fun poll _ => Return (statuses poll);
     rpcGetTransaction := fun _ => Return {| rpcError := None; rpcResult := fetched |} |}.

Definition USDC : PublicKey := Solana.USDC_MINT_MAINNET.

(** A transaction whose sixth account is the merchant's USDC account, which
    grows from 70000 by [received]; [keys] are its account keys. *)
Definition payment (keys : list string) (received : Z) (failure : option TransactionError)
    : RawTransaction :=
  {| meta := Some {| metaErr := failure;
                     preBalances := Some [10000000; 0; 0; 0; 0; 2039280]%Z;
                     postBalances := Some [9995000; 0; 0; 0; 0; 2039280]%Z;
                     preTokenBalances :=
                       Some [ {| accountIndex := 4; mint := USDC; uiTokenAmount := 90000 |};
                              {| accountIndex := 5; mint := USDC; uiTokenAmount := 70000 |} ];
                     postTokenBalances :=
                       Some [ {| accountIndex := 4; mint := USDC;
                                 uiTokenAmount := 90000 - received |};
                              {| accountIndex := 5; mint := USDC;
                                 uiTokenAmount := 70000 + received |} ] |};
     transaction := Some {| message := {| accountKeys := Some (map KeyText keys) |} |};
     blockTime := Some 1700000000%Z |}.

Definition keysWithReference : list string :=
  ["payer"; "fee-payer"; "token-program"; "R"; ataOf USDC "payer"; ataOf USDC "M"].

Definition keysWithoutReference : list string :=
  ["payer"; "fee-payer"; "token-program"; "other"; ataOf USDC "payer"; ataOf USDC "M"].

Definition found : list ConfirmedSignatureInfo :=
  [ {| signature := "T"; confirmationStatus := Some Confirmed |} ].

Definition rejected : TransactionError := "{'InstructionError':[2,{'Custom':1}]}".

(** The first poll finds nothing yet; the second reports the failure. *)
Definition failsOnSecondPoll (poll : nat) : option SignatureStatus :=
  match poll with
  | O => None
  | _ => Some {| statusErr := Some rejected; statusConfirmation := Some Confirmed |}
  end.

Definition confirmedAtOnce (poll : nat) : option SignatureStatus :=
  Some {| statusErr := None; statusConfirmation := Some Confirmed |}.

Definition everySecond (k : nat) : Z := (1700000000000 + 2000 * Z.of_nat k)%Z.

Definition expectation (conn : Connection) : VerifyParams :=
  {| Solana.connection := conn; reference := "R"; recipient := "M"; amount := 50000;
     splToken := Some USDC; timeout := None |}.

Definition production (mock : option string) : Env :=
  fun key =>
    if String.eqb key "NODE_ENV" then Some "production"
    else if String.eqb key "MOCK_PAYMENTS" then mock
    else None.

Definition development (mock : option string) : Env :=
  fun key =>
    if String.eqb key "NODE_ENV" then Some "development"
    else if String.eqb key "MOCK_PAYMENTS" then mock
    else None.

(** A request to pay 0.05 USDC to [M] from [sender], who holds 1 USDC. *)
Definition paymentRequest (sender : PublicKey) : BuildUsdcPaymentTxParams :=
  {| TransactionBuilder.connection :=
       node [(ataOf USDC sender, 1000000%Z); (ataOf USDC "M", 0%Z)] [] (fun _ => None) None;
     payer := sender;
     merchant := "M";
     amountUsdc := 0.05;
     network := None |}.

(** The platform wallet [P] pays 50000 units of USDC back to [U], who has no
    USDC account yet, under the reference [R] and with a memo. *)
Definition emptyNode : Connection := node [] [] (fun _ => None) None.

Definition refundToU : RefundParams :=
  {| refundConnection := emptyNode; platformWallet := "P"; refundUser := "U";
     refundAmount := 50000; refundReference := "R";
     refundMemo := Some "Refund for failed API execution";
     refundTokenMint := Some USDC |}.

Definition rewardToU : RewardParams :=
  {| rewardConnection := emptyNode; creator := "P"; rewardUser := "U";
     rewardAmount := 50000; rewardReference := Some "R";
     rewardMemo := Some "Refund for failed API execution";
     rewardTokenMint := Some USDC |}.

Definition refundInstructions : list Instruction :=
  [ CreateAssociatedTokenAccount "P" (ataOf USDC "U") "U" USDC;
    TransferChecked (ataOf USDC "P") USDC (ataOf USDC "U") "P" 50000 6
      [ {| metaPubkey := "R"; isSigner := false; isWritable := false |} ];
    MemoInstruction "Refund for failed API execution" ].

(** An RPC call that fails with a bad gateway every time, and jitter draws
    of three quarters first and zero afterwards. *)
Definition badGateway : nat -> unit + Retry.Raised :=
  fun _ => inr (Retry.ErrorObject "HTTP 502 Bad Gateway").

Definition highThenLow (attempt : nat) : float :=
  match attempt with
  | O => 0.75
  | _ => 0
  end.

Definition gentleBackoff : Retry.RetryOptions :=
  {| Retry.maxRetries := Retry.Absent; Retry.initialDelayMs := Retry.Absent;
     Retry.maxDelayMs := Retry.Absent;
     Retry.backoffMultiplier := Retry.Given 1.5%float; Retry.shouldRetry := Retry.Absent |}.

(** Options whose delay keys are present and [undefined]. *)
Definition undefinedDelays : Retry.RetryOptions :=
  {| Retry.maxRetries := Retry.Absent; Retry.initialDelayMs := Retry.Undefined;
     Retry.maxDelayMs := Retry.Undefined;
     Retry.backoffMultiplier := Retry.Absent; Retry.shouldRetry := Retry.Absent |}.

(** A [Math.pow] that multiplies: exact as long as the products are. *)
Fixpoint repeatedProduct (base : float) (exponent : nat) : float :=
  match exponent with
  | O => 1
  | S k => (base * repeatedProduct base k)%float
  end.

(** A node on which the wallet [W] holds [raw] base units of B402. *)
Definition holding (env : Env) (raw : Z) : Connection :=
  node [(ataOf (B402_MINT_ADDRESS env) "W", raw)] [] (fun _ => None) None.

(** The libraries of a deployment whose RPC endpoint is that node. *)
Definition holderLib (env : Env) (raw : Z) : Library :=
  {| newPublicKey := fun text => Return text;
     getAssociatedTokenAddress := fun mint owner => Return (ataOf mint owner);
     newConnection := fun _ => Return (holding env raw) |}.

(** 1000 B402, the BRONZE threshold, in base units. *)
Definition bronzeHolding : Z := 1000000000000.

End Fixtures.

(* ------------------------------------------------------------------ *)
(** * Vocabulary of the properties *)

Module Vocabulary.

Import Solana TokenHolder.

(** Finite doubles of one sign compare by exponent, then by mantissa. *)
Definition compareMagnitude (e1 : Z) (m1 : positive) (e2 : Z) (m2 : positive) : comparison :=
  match Z.compare e1 e2 with
  | Lt => Lt
  | Gt => Gt
  | Eq => Pos.compare_cont Eq m1 m2
  end.

(** The accounts a transaction references, as text. *)
Definition referencedAccounts (tx : RawTransaction) : list string :=
  match transaction tx with
  | Some body => map keyText (orEmpty (accountKeys (message body)))
  | None => []
  end.

(** The account a token-balance entry belongs to. *)
Definition accountOf (tx : RawTransaction) (entry : TokenBalance) : option string :=
  nth_error (referencedAccounts tx) (accountIndex entry).

(** The amount by which the transaction changed the balance of an entry's
    account: its post-balance less the pre-balance recorded for the same
    account index (none recorded counts as zero). *)
Definition increaseOf (m : Meta) (entry : TokenBalance) : Z :=
  (uiTokenAmount entry -
   match find (fun pb => Nat.eqb (accountIndex pb) (accountIndex entry))
              (orEmpty (preTokenBalances m)) with
   | Some pb => uiTokenAmount pb
   | None => 0
   end)%Z.

(** An entry the validator passes over: it belongs to another account, or
    its balance did not grow. *)
Definition passedOver (tx : RawTransaction) (m : Meta) (ata : PublicKey)
    (entry : TokenBalance) : Prop :=
  exists key, accountOf tx entry = Some key /\ (key <> ata \/ (increaseOf m entry <= 0)%Z).

(** A status that makes the confirmation loop wait and poll again: nothing
    known yet, or a status without error below the confirmed commitment. *)
Definition keepsWaiting (status : option SignatureStatus) : Prop :=
  match status with
  | None => True
  | Some value => statusErr value = None /\ settled (statusConfirmation value) = false
  end.

(** The discount percentages of the benefit table. *)
Definition tablePercents : list float := [0; 5; 10; 15; 20; 30; 50]%float.

(** What the error bound of a discounted price needs of a percentage of
    the benefit table: it is a finite whole number [c], and [percent / 100]
    is a double between zero and one half within [2^-53] of [c / 100]. *)
Definition factorChecked (percent : float) : bool :=
  let p := (percent / 100)%float in
  let P := Binary64.value p in
  let c := (Binary64.value percent / Binary64.one)%Z in
  ((0 <=? percent)%float
   && (Binary64.value percent <? Binary64.huge)%Z
   && (Binary64.value percent =? c * Binary64.one)%Z
   && (0 <=? p)%float
   && (2 * P <=? Binary64.one)%Z
   && (2 ^ 53 * Z.abs (100 * P - c * Binary64.one) <=? 100 * P)%Z)%bool.

(** The keys the code appended to a transfer instruction; the other
    instructions take none. *)
Definition pushedKeys (i : Instruction) : option (list AccountMeta) :=
  match i with
  | TransferChecked _ _ _ _ _ _ pushed => Some pushed
  | SystemTransfer _ _ _ pushed => Some pushed
  | _ => None
  end.

(** An instruction of the compute-budget program. *)
Definition computeBudget (i : Instruction) : bool :=
  match i with
  | SetComputeUnitLimit _ | SetComputeUnitPrice _ => true
  | _ => false
  end.

End Vocabulary.

(* ------------------------------------------------------------------ *)
(** * Payer extraction (extract-payer.ts) *)

Module ExtractPayer.

Record ParsedAccount : Type := {
  accountPubkey : PublicKey;
  signer : bool;
  writable : bool
}.

Record ParsedInfo : Type := {
  source : option string;
  authority : option string
}.

(** An instruction of a parsed transaction: with a truthy [parsed] member,
    of which the code reads [type] and [info], or without one. *)
Inductive ParsedInstruction : Type :=
| Parsed (type : option string) (info : option ParsedInfo)
| Unparsed.

Record ParsedMessage : Type := {
  parsedAccountKeys : option (list ParsedAccount);
  parsedInstructions : option (list ParsedInstruction)
}.

(** [info.source] and [info.authority] count when they are non-empty. *)
Definition present (field : option string) : option string :=
  match field with
  | Some text => if String.eqb text "" then None else Some text
  | None => None
  end.

(** The loop over the instructions; reading a member of a missing [info]
    is a TypeError. *)
Fixpoint payerOfInstructions (instructions : list ParsedInstruction) : Outcome (option string) :=
  match instructions with
  | [] => Return None
  | Unparsed :: rest => payerOfInstructions rest
  | Parsed type info :: rest =>
      let isTransfer := match type with Some t => String.eqb t "transfer" | None => false end in
      let isChecked := match type with Some t => String.eqb t "transferChecked" | None => false end in
      if isTransfer then
        match info with
        | None => Throw (TypeError "Cannot read properties of undefined (reading 'source')")
        | Some i =>
            match present (source i) with
            | Some payer => Return (Some payer)
            | None =>
                match present (authority i) with
                | Some payer => Return (Some payer)
                | None => payerOfInstructions rest
                end
            end
        end
      else if isChecked then
        match info with
        | None => Throw (TypeError "Cannot read properties of undefined (reading 'authority')")
        | Some i =>
            match present (authority i) with
            | Some payer => Return (Some payer)
            | None => payerOfInstructions rest
            end
        end
      else payerOfInstructions rest
  end.

(** [extractPayerFromTransaction]; [fetched] is what [getParsedTransaction]
    settles to.  The whole body stands in a [try] whose [catch] returns
    null. *)
Definition extractPayerFromTransaction (fetched : Outcome (option ParsedMessage))
    : Outcome (option string) :=
  tryCatch
    (let* transaction := fetched in
     match transaction with
     | None => Return None
     | Some message =>
         match parsedAccountKeys message with
         | None => Throw (TypeError "Cannot read properties of undefined (reading 'find')")
         | Some keys =>
             match find signer keys with
             | Some feePayer => Return (Some (accountPubkey feePayer))
             | None =>
                 match parsedInstructions message with
                 | None => Throw (TypeError "instructions is not iterable")
                 | Some instructions => payerOfInstructions instructions
                 end
             end
         end
     end)
    (fun _ => Return None).

(** [extractPayerWithRetry]: [fetch k] is the answer of the node to the
    [k]-th fetch.  The second component counts the extraction attempts, the
    third lists the pauses slept, in milliseconds. *)
Fixpoint retryExtraction (fetch : nat -> Outcome (option ParsedMessage))
    (remaining attempt : nat) : Outcome (option string) * nat * list Z :=
  match remaining with
  | O => (Return None, O, [])
  | S remaining' =>
      match extractPayerFromTransaction (fetch attempt) with
      | Return payer => (Return (match payer with
                                 | Some text => if String.eqb text "" then None else Some text
                                 | None => None
                                 end), 1%nat, [])
      | Throw _ =>
          let pause := match remaining' with
                       | O => []
                       | S _ => [(2 ^ Z.of_nat attempt * 1000)%Z]
                       end in
          let '(r, n, pauses) := retryExtraction fetch remaining' (S attempt) in
          (r, S n, pause ++ pauses)
      end
  end.

Definition extractPayerWithRetry (fetch : nat -> Outcome (option ParsedMessage))
    (maxRetries : option Z) : Outcome (option string) * nat * list Z :=
  retryExtraction fetch (Z.to_nat (match maxRetries with Some n => n | None => 3%Z end)) 0.

End ExtractPayer.

(* ------------------------------------------------------------------ *)
(** * Solana helpers, continued: legacy transfers, waiting, display *)

Module SolanaTransfers.

Import Config Solana.

(** [BigInt(x)] for a number: the integer [x] denotes, and a RangeError when
    [x] is not an integer. *)
Definition bigIntOfNumber (x : float) : Outcome Z :=
  let notInteger :=
    Throw (RangeError "The number cannot be converted to a BigInt because it is not an integer") in
  match Prim2SF x with
  | S754_zero _ => Return 0%Z
  | S754_finite s m e =>
      let sm := cond_Zopp s (Zpos m) in
      if (0 <=? e)%Z then Return (sm * 2 ^ e)%Z
      else if (Zpos m mod 2 ^ (- e) =? 0)%Z then Return (sm / 2 ^ (- e))%Z
      else notInteger
  | _ => notInteger
  end.

Record TransferParams : Type := {
  transferConnection : Connection;
  sender : PublicKey;
  transferRecipient : PublicKey;
  transferAmount : Z;
  transferReference : PublicKey;
  transferMemo : option string;
  transferPlatformWallet : option PublicKey;
  platformFeeBps : option float
}.

(** The split of the amount into the creator's and the platform's share;
    bigint division truncates. *)
Definition splitAmount (params : TransferParams) : Outcome (Z * Z) :=
  let bps := match platformFeeBps params with Some b => b | None => 0%float end in
  match transferPlatformWallet params with
  | Some _ =>
      if (0 <? bps)%float then
        let* factor := bigIntOfNumber bps in
        let platformAmount := Z.quot (transferAmount params * factor) 10000 in
        Return ((transferAmount params - platformAmount)%Z, platformAmount)
      else Return (transferAmount params, 0%Z)
  | None => Return (transferAmount params, 0%Z)
  end.

Definition buildUsdcTransferTransaction (env : Env) (lib : Library) (params : TransferParams)
    : Outcome Transaction :=
  let connection := transferConnection params in
  let* usdcMint := getUsdcMint env lib None in
  let* amounts := splitAmount params in
  let* senderTokenAccount := getAssociatedTokenAddress lib usdcMint (sender params) in
  let* recipientTokenInfo :=
    getOrCreateTokenAccount env lib connection (sender params) (transferRecipient params)
      (Some usdcMint) in
  let creatorTransfer :=
    TransferChecked senderTokenAccount usdcMint (fst recipientTokenInfo) (sender params)
      (fst amounts) USDC_DECIMALS [referenceKey (transferReference params)] in
  let* platformTransfer :=
    match transferPlatformWallet params with
    | Some wallet =>
        if (snd amounts >? 0)%Z then
          let* platformTokenInfo :=
            getOrCreateTokenAccount env lib connection (sender params) wallet (Some usdcMint) in
          Return (optionToList (snd platformTokenInfo) ++
                  [TransferChecked senderTokenAccount usdcMint (fst platformTokenInfo)
                     (sender params) (snd amounts) USDC_DECIMALS []])
        else Return []
    | None => Return []
    end in
  let* latest := getLatestBlockhash connection Finalized in
  Return {| instructions :=
              optionToList (snd recipientTokenInfo) ++ creatorTransfer :: platformTransfer
              ++ memoInstructions (transferMemo params);
            recentBlockhash := blockhash latest;
            feePayer := sender params;
            txLastValidBlockHeight := lastValidBlockHeight latest |}.

(** The token amounts a template moves, in the order of its instructions. *)
Definition tokenAmounts (tx : Transaction) : list Z :=
  flat_map (fun i => match i with
                     | TransferChecked _ _ _ _ amount _ _ => [amount]
                     | _ => []
                     end) (instructions tx).

(** ** Error messages *)

Definition decimal (z : Z) : string := NilZero.string_of_int (Z.to_int z).

Fixpoint concat (parts : list string) : string :=
  match parts with
  | [] => ""
  | part :: rest => String.append part (concat rest)
  end.

(** The [message] of a thrown error, as the sources build it.  Bigints
    print in decimal, and so does a timeout, a whole number of milliseconds,
    below 10^21.  The messages left out interpolate a double in another
    notation: a timeout from 10^21 on, and the two balances of the
    insufficient-balance error of the payment builder. *)
Definition errorMessage (e : Thrown) : option string :=
  match e with
  | LibError _ text | TypeError text | RangeError text => Some text
  | InvalidPayerWallet =>
      Some "Your wallet address is invalid or off-curve. Please try disconnecting and reconnecting your wallet."
  | InvalidMerchantWallet merchant =>
      Some (concat ["The merchant's wallet address is invalid ("; merchant;
                    "). Please contact them to update their payout wallet."])
  | InsufficientUsdc _ _ => None
  | NoUsdcAccount => Some "No USDC account found. Please add USDC to your wallet first."
  | MerchantAccountMissing =>
      Some "Merchant USDC account doesn't exist. Please contact the merchant to set up their USDC account."
  | MetadataUnavailable => Some "Transaction metadata not available for validation"
  | ReferenceNotFound =>
      Some "Reference not found in transaction - this is not the expected payment"
  | WrongToken expected got =>
      Some (concat ["Wrong token received. Expected "; expected; ", got "; got])
  | NoSplTransferFound recipient recipientATA =>
      Some (concat ["No SPL token transfer found to recipient "; recipient;
                    ". Expected transfer to ATA "; recipientATA])
  | WrongAmount expected actual difference =>
      Some (concat ["Wrong amount transferred. Expected "; decimal expected; ", got ";
                    decimal actual; ". Difference: "; decimal difference])
  | RecipientNotInAccounts recipient =>
      Some (concat ["Recipient "; recipient; " not found in transaction accounts"])
  | NoSolReceived recipient balanceChange =>
      Some (concat ["No SOL received by "; recipient; ". Balance change: ";
                    decimal balanceChange])
  | WrongSolAmount expected actual difference =>
      Some (concat ["Wrong SOL amount transferred. Expected "; decimal expected; ", got ";
                    decimal actual; ". Difference: "; decimal difference])
  | RpcError text => Some (String.append "RPC error: " text)
  | PaymentNotFound => Some "Payment transaction not found. Please complete payment first."
  | NoConfirmedTransaction =>
      Some "No confirmed transaction found for this payment reference."
  | FailedOnChain err =>
      Some (concat ["Transaction failed on-chain with error: "; err;
                    ". The transaction was rejected by the Solana network."])
  | ConfirmationTimeout limit signature =>
      if (Z.abs limit <? 10 ^ 21)%Z then
        Some (concat ["Transaction confirmation timeout after "; decimal limit;
                      "ms. The transaction may still be processing. Signature: "; signature])
      else None
  | ConfirmedTransactionNotFound signature =>
      Some (concat ["Confirmed transaction not found. This should not happen. Signature: ";
                    signature])
  | TransactionFailed err =>
      Some (concat ["Transaction failed on Solana blockchain. ";
                    "This usually means: insufficient balance, expired blockhash, or account errors. ";
                    "Error: "; err; ". Please submit a new transaction."])
  end.

(** [error.message.includes('not found')], where the message is modelled. *)
Definition saysNotFound (e : Thrown) : option bool :=
  match errorMessage e with
  | Some text => Some (includes text "not found")
  | None => None
  end.

(** ** Waiting for a payment *)

(** How [waitForPayment] ends: with the result of a verification, with the
    error of a verification thrown again, or with its own timeout error. *)
Inductive Waited : Type :=
| Verified (result : VerificationResult)
| Rethrown (e : Thrown)
| WaitTimedOut.

Record WaitParams : Type := {
  waitReference : PublicKey;
  waitRecipient : PublicKey;
  waitAmount : Z;
  waitSplToken : option PublicKey;
  waitTimeout : option Z
}.

(** The state of the world at the [k]-th call of [verifyPayment]: the node
    as it answers then, and the clock and the fuel of that call. *)
Record Attempt : Type := {
  attemptConnection : Connection;
  attemptClock : nat -> Z;
  attemptFuel : nat
}.

Definition verifyAttempt (env : Env) (lib : Library) (params : WaitParams) (a : Attempt)
    : option (Outcome VerificationResult) :=
  fst (verifyPayment env lib (attemptClock a) (attemptFuel a)
         {| Solana.connection := attemptConnection a;
            reference := waitReference params;
            recipient := waitRecipient params;
            Solana.amount := waitAmount params;
            splToken := waitSplToken params;
            timeout := None |}).

(** The loop of [waitForPayment] from its [k]-th round on.  [now k] is the
    reading of [Date.now()] in the loop condition of round [k]; the second
    component counts the calls of [verifyPayment].  [None] means that the
    fuel of the loop or of a verification did not suffice, or that the
    message of the error caught is not modelled. *)
Fixpoint waitLoop (fuel : nat) (env : Env) (lib : Library) (params : WaitParams)
    (now : nat -> Z) (world : nat -> Attempt) (startTime limit : Z) (k : nat)
    : option Waited * nat :=
  match fuel with
  | O => (None, O)
  | S fuel' =>
      if (now k - startTime <? limit)%Z then
        match verifyAttempt env lib params (world k) with
        | None => (None, 1%nat)
        | Some (Return result) => (Some (Verified result), 1%nat)
        | Some (Throw e) =>
            match saysNotFound e with
            | None => (None, 1%nat)
            | Some true =>
                let '(r, n) :=
                  waitLoop fuel' env lib params now world startTime limit (S k) in
                (r, S n)
            | Some false => (Some (Rethrown e), 1%nat)
            end
        end
      else (Some WaitTimedOut, O)
  end.

(** [waitForPayment]; [start] is the reading of the clock before the loop. *)
Definition waitForPayment (fuel : nat) (env : Env) (lib : Library) (params : WaitParams)
    (start : Z) (now : nat -> Z) (world : nat -> Attempt) : option Waited * nat :=
  waitLoop fuel env lib params now world start
    (match waitTimeout params with Some t => t | None => 90000%Z end) 0.

(** ** Display helpers *)

(** [s.slice(-n)]: the last [n] characters, and all of [s] for [n = 0]. *)
Definition sliceLast (n : nat) (s : string) : string :=
  match n with
  | O => s
  | _ => String.substring (String.length s - n) n s
  end.

Definition formatPublicKey (key : string) (chars : nat) : string :=
  if Nat.leb (String.length key) (chars * 2) then key
  else String.append (sliceTo chars key) (String.append "..." (sliceLast chars key)).

End SolanaTransfers.

(* ------------------------------------------------------------------ *)
(** * The validated environment (config package) *)

Module Environment.

Import Config Solana.

Record EnvConfig : Type := {
  DATABASE_URL : option string;
  ONCHAIN_API_KEY : option string;
  ONCHAIN_API_URL : string;
  NEXT_PUBLIC_SOLANA_NETWORK : string;
  NEXT_PUBLIC_SOLANA_RPC_URL : option string;
  NEXT_PUBLIC_USDC_MINT : option string;
  NEXT_PUBLIC_APP_URL : string;
  NEXT_PUBLIC_APP_DOMAIN : string;
  OPENAI_API_KEY : option string;
  DEEPAI_API_KEY : option string;
  SCREENSHOT_API_KEY : option string;
  SLOT_MACHINE_PAYOUT_PRIVATE_KEY : option string;
  ADMIN_API_KEY : option string;
  MOCK_PAYMENTS : bool;
  NODE_ENV : string
}.

Definition REQUIRED_ENV_VARS : list string := ["DATABASE_URL"; "ONCHAIN_API_KEY"].

(** [validateEnv]: the configuration, or the names of the required
    variables that are missing, with which the error is thrown.  The
    warnings are only logged. *)
Definition validateEnv (env : Env) : EnvConfig + list string :=
  let missing := filter (fun key => negb (truthy (env key))) REQUIRED_ENV_VARS in
  match missing with
  | _ :: _ => inr missing
  | [] =>
      inl {| DATABASE_URL := env "DATABASE_URL";
             ONCHAIN_API_KEY := env "ONCHAIN_API_KEY";
             ONCHAIN_API_URL := orElse (env "ONCHAIN_API_URL") "https://api.onchain.fi/v1";
             NEXT_PUBLIC_SOLANA_NETWORK := orElse (env "NEXT_PUBLIC_SOLANA_NETWORK") "devnet";
             NEXT_PUBLIC_SOLANA_RPC_URL := env "NEXT_PUBLIC_SOLANA_RPC_URL";
             NEXT_PUBLIC_USDC_MINT := env "NEXT_PUBLIC_USDC_MINT";
             NEXT_PUBLIC_APP_URL := orElse (env "NEXT_PUBLIC_APP_URL") "http://localhost:3000";
             NEXT_PUBLIC_APP_DOMAIN := orElse (env "NEXT_PUBLIC_APP_DOMAIN") "localhost";
             OPENAI_API_KEY := env "OPENAI_API_KEY";
             DEEPAI_API_KEY := env "DEEPAI_API_KEY";
             SCREENSHOT_API_KEY := env "SCREENSHOT_API_KEY";
             SLOT_MACHINE_PAYOUT_PRIVATE_KEY := env "SLOT_MACHINE_PAYOUT_PRIVATE_KEY";
             ADMIN_API_KEY := env "ADMIN_API_KEY";
             MOCK_PAYMENTS := envIs env "MOCK_PAYMENTS" "true";
             NODE_ENV := orElse (env "NODE_ENV") "development" |}
  end.

(** [getEnv]: the module keeps the first configuration that validated in
    [cachedEnv]; the second component is the cache after the call. *)
Definition getEnv (cachedEnv : option EnvConfig) (env : Env)
    : (EnvConfig + list string) * option EnvConfig :=
  match cachedEnv with
  | Some config => (inl config, cachedEnv)
  | None =>
      match validateEnv env with
      | inl config => (inl config, Some config)
      | inr missing => (inr missing, None)
      end
  end.

(** A sequence of [getEnv] calls, the environment changing in between. *)
Fixpoint getEnvs (cachedEnv : option EnvConfig) (envs : list Env)
    : list (EnvConfig + list string) :=
  match envs with
  | [] => []
  | env :: rest =>
      let '(answer, cache) := getEnv cachedEnv env in
      answer :: getEnvs cache rest
  end.

Definition getSolanaNetwork (env : Env) : string :=
  orElse (env "NEXT_PUBLIC_SOLANA_NETWORK") "devnet".

End Environment.

(* ------------------------------------------------------------------ *)
(** * The mint of the holder token *)

Module HolderMint.

Import Config TokenHolder.

(** [B402_MINT], built when the module is loaded. *)
Definition B402_MINT (env : Env) (lib : Library) : Outcome PublicKey :=
  newPublicKey lib (B402_MINT_ADDRESS env).

(** [validateB402Mint] for the mint the module holds. *)
Definition validateB402Mint (mint : PublicKey) : bool :=
  let mintStr := mint in
  if includes mintStr "B402MINT111" then false else true.

(** The alphabet of base58, in which the library prints an address. *)
Definition base58Alphabet : string :=
  "123456789ABCDEFGHJKLMNPQRSTUVWXYZabcdefghijkmnopqrstuvwxyz".

Fixpoint occurs (c : ascii) (s : string) : bool :=
  match s with
  | EmptyString => false
  | String d rest => orb (Ascii.eqb c d) (occurs c rest)
  end.

Fixpoint isBase58 (s : string) : bool :=
  match s with
  | EmptyString => true
  | String c rest => andb (occurs c base58Alphabet) (isBase58 rest)
  end.

End HolderMint.

(* ------------------------------------------------------------------ *)
(** * Verification through the Solana Pay library *)

Module SolanaPay.

(** What the polls end with: the errors of the library by their class, any
    other thrown value, and the errors the module throws itself, each with
    the values its message interpolates. *)
Inductive Failure : Type :=
| FindReferenceError (message : string)
| ValidateTransferError (message : string)
| OtherFailure (e : Thrown)
| WrongRecipient (expected : PublicKey)
| AmountMismatch (expected : Z)
| WrongTokenType (expected : option PublicKey)
| ReferenceMismatch
| ValidationFailed (message : string)
| VerificationTimeout (timeout : Z)
| AttemptsExhausted (maxAttempts : Z).

Record SignatureInfo : Type := {
  foundSignature : string;
  foundBlockTime : option Z;
  foundSlot : Z;
  foundStatus : option Commitment
}.

(** The library as the polls see it: the answers change from one poll to
    the next. *)
Record Ledger : Type := {
  findReference : nat -> SignatureInfo + Failure;
  validateTransfer : nat -> string -> unit + Failure
}.

Record PaymentVerificationOptions : Type := {
  payRecipient : PublicKey;
  payAmount : Z;
  paySplToken : option PublicKey;
  payTimeout : option Z
}.

(** The translation of a validation error, by the first indicator that its
    lower-cased message contains. *)
Definition translate (options : PaymentVerificationOptions) (message : string) : Failure :=
  let errorMessage := toLowerCase message in
  if includes errorMessage "recipient not found" then WrongRecipient (payRecipient options)
  else if includes errorMessage "amount" then AmountMismatch (payAmount options)
  else if includes errorMessage "token" then WrongTokenType (paySplToken options)
  else if includes errorMessage "reference" then ReferenceMismatch
  else ValidationFailed message.

(** One round of the [try] block: the result, or what reaches the outer
    [catch]. *)
Definition attemptOnce (ledger : Ledger) (options : PaymentVerificationOptions) (k : nat)
    : SignatureInfo + Failure :=
  match findReference ledger k with
  | inr error => inr error
  | inl signatureInfo =>
      match validateTransfer ledger k (foundSignature signatureInfo) with
      | inl _ => inl signatureInfo
      | inr (ValidateTransferError message) => inr (translate options message)
      | inr validateError => inr validateError
      end
  end.

(** The polling loop; [remaining] stands for [maxAttempts - attempts] and
    [now k] is the clock read after the failed round [k].  The second
    component counts the calls of [findReference]. *)
Fixpoint pollFrom (ledger : Ledger) (options : PaymentVerificationOptions)
    (startTime timeout maxAttempts : Z) (now : nat -> Z) (remaining attempts : nat)
    : (SignatureInfo + Failure) * nat :=
  match remaining with
  | O => (inr (AttemptsExhausted maxAttempts), O)
  | S remaining' =>
      match attemptOnce ledger options attempts with
      | inl found => (inl found, 1%nat)
      | inr (FindReferenceError _) =>
          if (now attempts - startTime >? timeout)%Z
          then (inr (VerificationTimeout timeout), 1%nat)
          else
            let '(r, n) :=
              pollFrom ledger options startTime timeout maxAttempts now remaining'
                (S attempts) in
            (r, S n)
      | inr error => (inr error, 1%nat)
      end
  end.

(** [verifyPaymentWithSolanaPay]; the timeout is a whole number of
    milliseconds. *)
Definition verifyPaymentWithSolanaPay (ledger : Ledger) (options : PaymentVerificationOptions)
    (startTime : Z) (now : nat -> Z) : (SignatureInfo + Failure) * nat :=
  let timeout := match payTimeout options with Some t => t | None => 30000%Z end in
  let maxAttempts := (timeout / 1000)%Z in
  pollFrom ledger options startTime timeout maxAttempts now (Z.to_nat maxAttempts) 0.

(** The loop of [validateTransferWithRetry]: [validate k] is what the
    [k]-th call of [validateTransfer] settles to.  The second component
    counts the calls, the third lists the pauses slept. *)
Fixpoint retryValidation (validate : nat -> unit + Failure) (retryDelay : Z)
    (remaining attempt : nat) : (unit + Failure) * nat * list Z :=
  match remaining with
  | O => (inl tt, O, [])
  | S remaining' =>
      match validate attempt with
      | inl _ => (inl tt, 1%nat, [])
      | inr (ValidateTransferError message) => (inr (ValidateTransferError message), 1%nat, [])
      | inr error =>
          match remaining' with
          | O => (inr error, 1%nat, [])
          | S _ =>
              let '(r, n, pauses) := retryValidation validate retryDelay remaining' (S attempt) in
              (r, S n, (retryDelay * 2 ^ Z.of_nat attempt)%Z :: pauses)
          end
      end
  end.

(** [x || d] on numbers: zero is falsy. *)
Definition orNumber (x : option Z) (d : Z) : Z :=
  match x with
  | Some n => if (n =? 0)%Z then d else n
  | None => d
  end.

(** [validateTransferWithRetry]; the options are whole numbers. *)
Definition validateTransferWithRetry (validate : nat -> unit + Failure)
    (maxRetries retryDelay : option Z) : (unit + Failure) * nat * list Z :=
  retryValidation validate (orNumber retryDelay 1000) (Z.to_nat (orNumber maxRetries 3)) 0.

End SolanaPay.

(* ------------------------------------------------------------------ *)
(** * Spam token detection *)

Module SpamDetector.

Import Solana.

Local Open Scope float_scope.

Inductive SpamRiskLevel : Type := Low | Medium | High | Critical.

Record TokenMetadata : Type := {
  freezeAuthority : option string;
  mintAuthority : option string
}.

(** A token as the wallet lists it.  Names and symbols are ASCII text:
    [toLowerCase] folds A to Z and the length counts characters.  A member
    that is null or undefined is [None]. *)
Record TokenForSpamCheck : Type := {
  mint : string;
  name : option string;
  symbol : option string;
  decimals : option float;
  amount : option float;
  uiAmount : option float;
  usdValue : option float;
  metadata : option TokenMetadata
}.

Definition SCAM_KEYWORDS : list string :=
  ["airdrop"; "claim"; "free"; "reward"; "giveaway"; "bonus"; "prize"; "winner";
   "congratulations"; "lucky"; "lottery"; "official"; "verify"; "validation";
   "security"; "support"; "help"; "wallet"; "metamask"; "trust"; "coinbase"].

(** The symbols of [KNOWN_LEGITIMATE_PATTERNS]; each pattern matches its
    symbol as a whole, in any case. *)
Definition KNOWN_LEGITIMATE_PATTERNS : list string :=
  ["SOL"; "USDC"; "USDT"; "BONK"; "JUP"; "RAY"; "ORCA"; "MNGO"; "SRM"; "STEP";
   "B402"; "WIF"; "POPCAT"; "MEW"].

Definition test (pattern text : string) : bool :=
  String.eqb (toLowerCase text) (toLowerCase pattern).

(** [/^[A-Z0-9]+$/i.test(text)] *)
Definition isAlphanumeric (c : ascii) : bool :=
  let n := nat_of_ascii c in
  orb (andb (Nat.leb 48 n) (Nat.leb n 57))
      (orb (andb (Nat.leb 65 n) (Nat.leb n 90)) (andb (Nat.leb 97 n) (Nat.leb n 122))).

Definition alphanumeric (text : string) : bool :=
  andb (negb (String.eqb text "")) (forallb isAlphanumeric (list_ascii_of_string text)).

(** A red flag, with the values its text interpolates.  The texts of the
    flags differ in their fixed parts: only the first contains
    [Freeze authority] and only the fourth [scam keywords]. *)
Inductive Flag : Type :=
| FreezeAuthority
| LowUsdValue
| MissingMetadata
| ScamKeywords (found : list string)
| UnusualDecimals (decimals : float)
| ZeroBalance
| LongSymbol (length : nat)
| SpecialCharacters.

(** [f.includes('Freeze authority')] and [f.includes('scam keywords')] *)
Definition mentionsFreezeAuthority (f : Flag) : bool :=
  match f with FreezeAuthority => true | _ => false end.

Definition mentionsScamKeywords (f : Flag) : bool :=
  match f with ScamKeywords _ => true | _ => false end.

(** The recommendation pushed together with a flag. *)
Definition recommendationOf (f : Flag) : string :=
  match f with
  | FreezeAuthority =>
      "CRITICAL: This token can freeze your funds. Do not trade or interact with it."
  | LowUsdValue =>
      "This token has negligible value. Consider hiding spam tokens in wallet settings."
  | MissingMetadata => "Tokens without metadata are unverified. High risk of scam."
  | ScamKeywords _ =>
      "Token name contains common scam keywords. High likelihood of phishing attempt."
  | UnusualDecimals _ => "Non-standard decimals may indicate a scam token."
  | ZeroBalance => "Zero-balance airdrops are spam. Safe to ignore or burn."
  | LongSymbol _ => "Legitimate tokens have short symbols (3-5 characters)."
  | SpecialCharacters => "Token symbols should be alphanumeric only."
  end.

Record SpamDetectionResult : Type := {
  isSpam : bool;
  riskLevel : SpamRiskLevel;
  flags : list Flag;
  confidence : nat;
  recommendations : list string
}.

Definition when (condition : bool) (f : Flag) : list Flag :=
  if condition then [f] else [].

Definition isKnownLegitimate (token : TokenForSpamCheck) : bool :=
  match symbol token with
  | Some text =>
      andb (negb (String.eqb text ""))
           (existsb (fun pattern => test pattern text) KNOWN_LEGITIMATE_PATTERNS)
  | None => false
  end.

(** The eight checks, in the order in which they push their flags. *)
Definition flagsOf (token : TokenForSpamCheck) : list Flag :=
  let symbolText := if truthy (symbol token) then symbol token else None in
  when (truthy (match metadata token with Some m => freezeAuthority m | None => None end))
       FreezeAuthority
  ++ when (match usdValue token with Some v => v <? 0.01 | None => false end) LowUsdValue
  ++ when (orb (negb (truthy (name token))) (negb (truthy (symbol token)))) MissingMetadata
  ++ (if truthy (name token) then
        let lowerName := toLowerCase (orElse (name token) "") in
        let foundKeywords := filter (fun keyword => includes lowerName keyword) SCAM_KEYWORDS in
        match foundKeywords with
        | [] => []
        | _ => [ScamKeywords foundKeywords]
        end
      else [])
  ++ match decimals token with
     | Some d => when (9 <? d) (UnusualDecimals d)
     | None => []
     end
  ++ when (match uiAmount token with Some u => u =? 0 | None => false end) ZeroBalance
  ++ match symbolText with
     | Some text => when (Nat.ltb 10 (String.length text)) (LongSymbol (String.length text))
     | None => []
     end
  ++ match symbolText with
     | Some text => when (negb (alphanumeric text)) SpecialCharacters
     | None => []
     end.

Definition detectSpamToken (token : TokenForSpamCheck) : SpamDetectionResult :=
  if isKnownLegitimate token then
    {| isSpam := false; riskLevel := Low; flags := []; confidence := 0; recommendations := [] |}
  else
    let flags := flagsOf token in
    let count := List.length flags in
    let confidence := Nat.min (count * 20) 100 in
    let '(riskLevel, confidence) :=
      if existsb mentionsFreezeAuthority flags then (Critical, Nat.max confidence 90)
      else if orb (Nat.leb 3 count) (existsb mentionsScamKeywords flags)
      then (High, Nat.max confidence 70)
      else if Nat.eqb count 2 then (Medium, Nat.max confidence 50)
      else if Nat.eqb count 1 then (Low, Nat.max confidence 30)
      else (Low, confidence) in
    {| isSpam := Nat.leb 2 count;
       riskLevel := riskLevel;
       flags := flags;
       confidence := confidence;
       recommendations := map recommendationOf flags |}.

(** [results.set(key, value)] on a Map kept in insertion order. *)
Fixpoint mapSet {V} (results : list (string * V)) (key : string) (value : V)
    : list (string * V) :=
  match results with
  | [] => [(key, value)]
  | (k, v) :: rest =>
      if String.eqb k key then (k, value) :: rest
      else (k, v) :: mapSet rest key value
  end.

Fixpoint mapGet {V} (results : list (string * V)) (key : string) : option V :=
  match results with
  | [] => None
  | (k, v) :: rest => if String.eqb k key then Some v else mapGet rest key
  end.

Definition detectSpamTokens (tokens : list TokenForSpamCheck)
    : list (string * SpamDetectionResult) :=
  fold_left (fun results token => mapSet results (mint token) (detectSpamToken token))
    tokens [].

End SpamDetector.

(* ------------------------------------------------------------------ *)
(** * The purchase tools of the MCP server *)

Module McpServer.

Import TokenHolder.

Local Open Scope float_scope.

(** ** [buy_b402] *)

Definition estimatedTokens (amount_sol : float) : float := amount_sol * 250000.

(** The tier estimated for the balance after the purchase. *)
Definition estimatedNewTier (currentBalance amount_sol : float) : TokenHolderTier :=
  let totalBalance := currentBalance + estimatedTokens amount_sol in
  if 100000 <=? totalBalance then DIAMOND
  else if 50000 <=? totalBalance then GOLD
  else if 10000 <=? totalBalance then SILVER
  else if 1000 <=? totalBalance then BRONZE
  else NONE.

(** ** [recommend_b402_purchase] *)

(** The keys of [savingsByTier], in the order of [Object.entries]. *)
Definition paidTiers : list TokenHolderTier := [BRONZE; SILVER; GOLD; DIAMOND].

Definition savingsByTier (expected_monthly_spend : float) (tier : TokenHolderTier) : float :=
  match tier with
  | BRONZE => expected_monthly_spend * 0.10
  | SILVER => expected_monthly_spend * 0.20
  | GOLD => expected_monthly_spend * 0.30
  | DIAMOND => expected_monthly_spend * 0.50
  | NONE => 0              (* not a key of the table; never looked up *)
  end.

Definition costEstimates (tier : TokenHolderTier) : float :=
  match tier with
  | BRONZE => 0.02
  | SILVER => 0.2
  | GOLD => 1.0
  | DIAMOND => 2.0
  | NONE => 0              (* not a key of the table; never looked up *)
  end.

Definition requiredTokens (tier : TokenHolderTier) : float :=
  match tier with
  | BRONZE => 1000
  | SILVER => 10000
  | GOLD => 50000
  | DIAMOND => 100000
  | NONE => 0              (* not a key of the table; never looked up *)
  end.

Record Recommendation : Type := {
  recommendedTier : TokenHolderTier;
  required_tokens : float;
  estimated_cost_usd : float;
  monthly_savings : float;
  months_to_breakeven : float;
  recommended : bool
}.

Definition recommendations (expected_monthly_spend : float) : list Recommendation :=
  map (fun tier =>
         let monthlySavings := savingsByTier expected_monthly_spend tier in
         let cost := costEstimates tier in
         let monthsToBreakeven := if 0 <? cost then (cost * 250) / monthlySavings else 0 in
         {| recommendedTier := tier;
            required_tokens := requiredTokens tier;
            estimated_cost_usd := cost * 250;
            monthly_savings := monthlySavings;
            months_to_breakeven := monthsToBreakeven;
            recommended := andb (monthsToBreakeven <? 6) (0 <? monthsToBreakeven) |})
      paidTiers.

(** [sort((a, b) => a.months_to_breakeven - b.months_to_breakeven)]: the
    sort is stable, an entry moves before another one only when the
    difference is negative. *)
Fixpoint insertByMonths (r : Recommendation) (sorted : list Recommendation)
    : list Recommendation :=
  match sorted with
  | [] => [r]
  | first :: rest =>
      if months_to_breakeven r - months_to_breakeven first <? 0
      then r :: first :: rest
      else first :: insertByMonths r rest
  end.

Definition sortByMonths (entries : list Recommendation) : list Recommendation :=
  fold_left (fun sorted r => insertByMonths r sorted) entries [].

(** [bestRecommendation], undefined when no entry is recommended. *)
Definition bestRecommendation (expected_monthly_spend : float) : option Recommendation :=
  hd_error (sortByMonths (filter recommended (recommendations expected_monthly_spend))).

End McpServer.

(* ------------------------------------------------------------------ *)
(** * Further sample ledgers *)

Module Ledgers.

Import Config Solana TransactionBuilder TokenHolder Fixtures.

(** A node like [node], serving for each signature the transaction that
    [fetch] gives. *)
Definition archive (signatures : list ConfirmedSignatureInfo)
    (statuses : nat -> option SignatureStatus)
    (fetch : string -> option RawTransaction) : Connection :=
  {| getAccount := fun _ => Throw noAccount;
     getAccountInfo := fun _ => Return None;
     getLatestBlockhash := fun _ =>
       Return {| blockhash := "blockhash"; lastValidBlockHeight := 1000 |};
     getSignaturesForAddress := fun _ => Return signatures;
     getSignatureStatus := fun poll _ => Return (statuses poll);
     rpcGetTransaction := fun signature =>
       Return {| rpcError := None; rpcResult := fetch signature |} |}.

(** A transfer of [received] lamports to [M], the second account, that
    names the reference [R]. *)
Definition solPayment (received : Z) : RawTransaction :=
  {| meta := Some {| metaErr := None;
                     preBalances := Some [10000000; 250000; 1; 0]%Z;
                     postBalances := Some [(10000000 - received - 5000); (250000 + received); 1; 0]%Z;
                     preTokenBalances := None;
                     postTokenBalances := None |};
     transaction :=
       Some {| message := {| accountKeys := Some (map KeyText ["payer"; "M"; "system"; "R"]) |} |};
     blockTime := Some 1700000000%Z |}.

(** The reference [R] was named by three transactions: [D], still being
    processed; [C], a confirmed transfer of one unit of USDC to [M]; and
    [T], the confirmed payment of 50000 units. *)
Definition crowded : list ConfirmedSignatureInfo :=
  [ {| signature := "D"; confirmationStatus := Some Processed |};
    {| signature := "C"; confirmationStatus := Some Confirmed |};
    {| signature := "T"; confirmationStatus := Some Finalized |} ].

(** A verification of the payment of 50000 units to [M] under the
    reference [R], on a node whose confirmed transaction for [R] does not
    name the reference among its accounts. *)
Definition misdirected : SolanaTransfers.Attempt :=
  {| SolanaTransfers.attemptConnection :=
       node [] found confirmedAtOnce (Some (payment keysWithoutReference 50000 None));
     SolanaTransfers.attemptClock := everySecond;
     SolanaTransfers.attemptFuel := 5 |}.

Definition waitRequest (limit : Z) : SolanaTransfers.WaitParams :=
  {| SolanaTransfers.waitReference := "R";
     SolanaTransfers.waitRecipient := "M";
     SolanaTransfers.waitAmount := 50000;
     SolanaTransfers.waitSplToken := Some USDC;
     SolanaTransfers.waitTimeout := Some limit |}.

(** The payment is not on the ledger in the first round of a wait and
    confirmed from the second round on. *)
Definition arriving (round : nat) : SolanaTransfers.Attempt :=
  {| SolanaTransfers.attemptConnection :=
       match round with
       | O => emptyNode
       | _ => node [] found confirmedAtOnce (Some (payment keysWithReference 50000 None))
       end;
     SolanaTransfers.attemptClock := everySecond;
     SolanaTransfers.attemptFuel := 5 |}.

(** A parsed transaction signed by its second account, whose only
    instruction is a transfer from another wallet. *)
Definition signedBySecond : ExtractPayer.ParsedMessage :=
  {| ExtractPayer.parsedAccountKeys :=
       Some [ {| ExtractPayer.accountPubkey := "relay"; ExtractPayer.signer := false;
                 ExtractPayer.writable := true |};
              {| ExtractPayer.accountPubkey := "payer"; ExtractPayer.signer := true;
                 ExtractPayer.writable := true |};
              {| ExtractPayer.accountPubkey := "cosigner"; ExtractPayer.signer := true;
                 ExtractPayer.writable := false |} ];
     ExtractPayer.parsedInstructions :=
       Some [ ExtractPayer.Parsed (Some "transfer")
                (Some {| ExtractPayer.source := Some "someone-else";
                         ExtractPayer.authority := None |}) ] |}.

(** A node that cannot be reached at the first fetch and serves the
    parsed transaction afterwards. *)
Definition outOfReachOnce (call : nat) : Outcome (option ExtractPayer.ParsedMessage) :=
  match call with
  | O => Throw (LibError "FetchError" "socket hang up")
  | _ => Return (Some signedBySecond)
  end.

(** A request to move 1000000 units of USDC from [S] to [M], 250 basis
    points of it to the platform wallet [P]. *)
Definition transferWithFee : SolanaTransfers.TransferParams :=
  {| SolanaTransfers.transferConnection := emptyNode;
     SolanaTransfers.sender := "S";
     SolanaTransfers.transferRecipient := "M";
     SolanaTransfers.transferAmount := 1000000;
     SolanaTransfers.transferReference := "R";
     SolanaTransfers.transferMemo := None;
     SolanaTransfers.transferPlatformWallet := Some "P";
     SolanaTransfers.platformFeeBps := Some 250%float |}.

Definition noVariables : Env := fun _ => None.

(** A ledger on which the payment [T] to [M] is found and valid from the
    start. *)
Definition paid : SolanaPay.Ledger :=
  {| SolanaPay.findReference := fun _ =>
       inl {| SolanaPay.foundSignature := "T"; SolanaPay.foundBlockTime := Some 1700000000%Z;
              SolanaPay.foundSlot := 1; SolanaPay.foundStatus := Some Finalized |};
     SolanaPay.validateTransfer := fun _ _ => inl tt |}.

Definition payRequest (limit : option Z) : SolanaPay.PaymentVerificationOptions :=
  {| SolanaPay.payRecipient := "M"; SolanaPay.payAmount := 50000;
     SolanaPay.paySplToken := Some USDC; SolanaPay.payTimeout := limit |}.

(** A node that is out of reach at the first call and validates at the
    second. *)
Definition flaky (call : nat) : unit + SolanaPay.Failure :=
  match call with
  | O => inr (SolanaPay.OtherFailure (LibError "FetchError" "socket hang up"))
  | _ => inl tt
  end.

(** A token that calls itself USDC, whose creator can freeze it and whose
    name promises an airdrop. *)
Definition impersonator : SpamDetector.TokenForSpamCheck :=
  {| SpamDetector.mint := "FakeMint1111111111111111111111111111111111";
     SpamDetector.name := Some "Free USDC airdrop - claim your reward";
     SpamDetector.symbol := Some "usdc";
     SpamDetector.decimals := Some 6%float;
     SpamDetector.amount := Some 1000000%float;
     SpamDetector.uiAmount := Some 1%float;
     SpamDetector.usdValue := None;
     SpamDetector.metadata :=
       Some {| SpamDetector.freezeAuthority := Some "Creator111";
               SpamDetector.mintAuthority := None |} |}.

(** An established token whose freeze authority was never given up. *)
Definition freezable : SpamDetector.TokenForSpamCheck :=
  {| SpamDetector.mint := "Mint2222222222222222222222222222222222222222";
     SpamDetector.name := Some "Stable Dollar";
     SpamDetector.symbol := Some "STBL";
     SpamDetector.decimals := Some 6%float;
     SpamDetector.amount := Some 1000000%float;
     SpamDetector.uiAmount := Some 1%float;
     SpamDetector.usdValue := Some 1%float;
     SpamDetector.metadata :=
       Some {| SpamDetector.freezeAuthority := Some "Issuer111";
               SpamDetector.mintAuthority := None |} |}.

(** A production deployment with its required variables, in which
    [MOCK_PAYMENTS] was left at [true]. *)
Definition forgottenFlag : Env :=
  fun key =>
    if String.eqb key "DATABASE_URL" then Some "postgres://db"
    else if String.eqb key "ONCHAIN_API_KEY" then Some "key"
    else if String.eqb key "NODE_ENV" then Some "production"
    else if String.eqb key "MOCK_PAYMENTS" then Some "true"
    else None.

Definition crowdedArchive : Connection :=
  archive crowded confirmedAtOnce
    (fun signature =>
       if String.eqb signature "T" then Some (payment keysWithReference 50000 None)
       else Some (payment keysWithReference 1 None)).

End Ledgers.

(* ------------------------------------------------------------------ *)
(** * Vocabulary of the further properties *)

Module Notions.

Import Config Solana TransactionBuilder TokenHolder.

(** [i] is the position of the first account key whose text is
    [recipient]. *)
Definition firstPosition (keys : list AccountKey) (recipient : PublicKey) (i : nat) : Prop :=
  (exists key, nth_error keys i = Some key /\ keyText key = recipient) /\
  forall j key, (j < i)%nat -> nth_error keys j = Some key -> keyText key <> recipient.

(** The change of the lamport balance of the account at position [i];
    a balance that is not listed counts as zero. *)
Definition lamportsChange (m : Meta) (i : nat) : Z :=
  (nth i (orEmpty (postBalances m)) 0 - nth i (orEmpty (preBalances m)) 0)%Z.

(** The connection [conn], except that the signatures of every address are
    [signatures]. *)
Definition answering (conn : Connection) (signatures : list ConfirmedSignatureInfo)
    : Connection :=
  {| getAccount := getAccount conn;
     getAccountInfo := getAccountInfo conn;
     getLatestBlockhash := getLatestBlockhash conn;
     getSignaturesForAddress := fun _ => Return signatures;
     getSignatureStatus := getSignatureStatus conn;
     rpcGetTransaction := rpcGetTransaction conn |}.

Definition through (params : VerifyParams) (conn : Connection) : VerifyParams :=
  {| Solana.connection := conn;
     reference := reference params;
     recipient := recipient params;
     Solana.amount := Solana.amount params;
     splToken := splToken params;
     timeout := timeout params |}.

(** The number of status polls that fit into [limit] milliseconds when the
    loop pauses 2000 milliseconds after each poll. *)
Definition pollsWithin (limit : Z) : nat := Z.to_nat ((limit + 1999) / 2000).

(** Round [j] of a wait was entered in time and its verification failed
    with an error whose message contains [not found]. *)
Definition saidNotFound (env : Env) (lib : Library) (params : SolanaTransfers.WaitParams)
    (start limit : Z) (now : nat -> Z) (world : nat -> SolanaTransfers.Attempt) (j : nat)
    : Prop :=
  (now j - start < limit)%Z /\
  exists e, SolanaTransfers.verifyAttempt env lib params (world j) = Some (Throw e) /\
            SolanaTransfers.saysNotFound e = Some true.

(** No account before [a] in the list signed. *)
Definition firstSigner (keys : list ExtractPayer.ParsedAccount) (a : ExtractPayer.ParsedAccount)
    : Prop :=
  exists before after,
    keys = before ++ a :: after /\
    forallb (fun account => negb (ExtractPayer.signer account)) before = true /\
    ExtractPayer.signer a = true.

(** The freeze authority of a token, when it has one. *)
Definition freezeAuthorityOf (token : SpamDetector.TokenForSpamCheck) : option string :=
  match SpamDetector.metadata token with
  | Some m => SpamDetector.freezeAuthority m
  | None => None
  end.

(** The last token of the list that has the mint [key]. *)
Definition lastWithMint (key : string) (tokens : list SpamDetector.TokenForSpamCheck)
    : option SpamDetector.TokenForSpamCheck :=
  find (fun token => String.eqb (SpamDetector.mint token) key) (rev tokens).

(** [check] on the [2 ^ bits] integers from [lo] on. *)
Fixpoint holdsFrom (check : Z -> bool) (bits : nat) (lo : Z) : bool :=
  match bits with
  | O => check lo
  | S bits' =>
      andb (holdsFrom check bits' lo) (holdsFrom check bits' (lo + 2 ^ Z.of_nat bits'))
  end.

(** For a monthly spend of [n] dollars the best option is the BRONZE tier,
    or there is none and [n] is below nine. *)
Definition bronzeOrNothing (n : Z) : bool :=
  match McpServer.bestRecommendation (NumberOfBigInt n) with
  | Some r =>
      match McpServer.recommendedTier r with
      | BRONZE => (9 <=? n)%Z
      | _ => false
      end
  | None => (n <=? 8)%Z
  end.

(** A price of [c] cents, given as the double nearest to it, converts to
    10000 atomic units per cent, and the balance of exactly that many units
    is not below the price. *)
Definition centsExact (c : Z) : bool :=
  let price := (NumberOfBigInt c / 100)%float in
  andb (match usdcToAtomic price with
        | Return atomic => (atomic =? 10000 * c)%Z
        | Throw _ => false
        end)
       (negb (atomicToUsdc (10000 * c) <? price)%float).

(** The pauses of a list, added up. *)
Definition waited (delays : list float) : Q :=
  fold_right Qplus 0%Q (map Binary64.valueOf delays).

(** The amounts of a list, added up. *)
Definition total (amounts : list Z) : Z := fold_right Z.add 0%Z amounts.

Definition unsettled (info : ConfirmedSignatureInfo) : bool :=
  negb (settled (confirmationStatus info)).

End Notions.

(* ------------------------------------------------------------------ *)
(** * Properties *)

Import Config Solana TransactionBuilder TokenHolder Fixtures Vocabulary.

Unset Implicit Arguments.

(** ** The order of doubles *)

Lemma compareMagnitude_le_trans e1 m1 e2 m2 e3 m3 :
  compareMagnitude e1 m1 e2 m2 <> Gt ->
  compareMagnitude e2 m2 e3 m3 <> Gt ->
  compareMagnitude e1 m1 e3 m3 <> Gt.
Proof.
  unfold compareMagnitude.
  change (Pos.compare_cont Eq) with Pos.compare.
  destruct (Z.compare_spec e1 e2), (Z.compare_spec e2 e3), (Z.compare_spec e1 e3);
    try lia; try congruence; subst.
  destruct (Pos.compare_spec m1 m2), (Pos.compare_spec m2 m3), (Pos.compare_spec m1 m3);
    try lia; congruence.
Qed.

Lemma compareMagnitude_ge_trans e1 m1 e2 m2 e3 m3 :
  compareMagnitude e1 m1 e2 m2 <> Lt ->
  compareMagnitude e2 m2 e3 m3 <> Lt ->
  compareMagnitude e1 m1 e3 m3 <> Lt.
Proof.
  unfold compareMagnitude.
  change (Pos.compare_cont Eq) with Pos.compare.
  destruct (Z.compare_spec e1 e2), (Z.compare_spec e2 e3), (Z.compare_spec e1 e3);
    try lia; try congruence; subst.
  destruct (Pos.compare_spec m1 m2), (Pos.compare_spec m2 m3), (Pos.compare_spec m1 m3);
    try lia; congruence.
Qed.

Lemma SFleb_finite s1 m1 e1 s2 m2 e2 :
  SFleb (S754_finite s1 m1 e1) (S754_finite s2 m2 e2) =
  match s1, s2 with
  | true, false => true
  | false, true => false
  | false, false =>
      match compareMagnitude e1 m1 e2 m2 with Gt => false | _ => true end
  | true, true =>
      match compareMagnitude e1 m1 e2 m2 with Lt => false | _ => true end
  end.
Proof.
  unfold SFleb, SFcompare, compareMagnitude.
  destruct s1, s2; try reflexivity;
    destruct (Z.compare e1 e2); try reflexivity;
    destruct (Pos.compare_cont Eq m1 m2); reflexivity.
Qed.

Lemma SFleb_trans x y z : SFleb x y = true -> SFleb y z = true -> SFleb x z = true.
Proof.
  destruct x as [sx|sx| |sx mx ex], y as [sy|sy| |sy my ey], z as [sz|sz| |sz mz ez];
    try (destruct sx); try (destruct sy); try (destruct sz);
    try reflexivity; try discriminate;
    rewrite ?SFleb_finite; try reflexivity; try discriminate.
  - intros H1 H2.
    pose proof (@compareMagnitude_ge_trans ex mx ey my ez mz) as T.
    destruct (compareMagnitude ex mx ey my); try discriminate;
      destruct (compareMagnitude ey my ez mz); try discriminate;
      destruct (compareMagnitude ex mx ez mz); try reflexivity;
      exfalso; apply T; congruence.
  - intros H1 H2.
    pose proof (@compareMagnitude_le_trans ex mx ey my ez mz) as T.
    destruct (compareMagnitude ex mx ey my); try discriminate;
      destruct (compareMagnitude ey my ez mz); try discriminate;
      destruct (compareMagnitude ex mx ez mz); try reflexivity;
      exfalso; apply T; congruence.
Qed.

Lemma leb_trans (x y z : float) :
  (x <=? y)%float = true -> (y <=? z)%float = true -> (x <=? z)%float = true.
Proof. rewrite !leb_spec. apply SFleb_trans. Qed.

(** A double that is not NaN and not above zero is at most zero, and one
    above zero is at least zero. *)
Lemma zero_leb_of_ltb (x : float) : (0 <? x)%float = true -> (0 <=? x)%float = true.
Proof.
  rewrite ltb_spec, leb_spec. unfold SFltb, SFleb.
  destruct (SFcompare (Prim2SF 0) (Prim2SF x)) as [[]|]; congruence.
Qed.

Import Binary64.

(** ** The order of all doubles *)

Lemma SFcompare_antisym (x y : spec_float) :
  SFcompare y x = option_map CompOpp (SFcompare x y).
Proof.
  destruct x as [sx|sx| |sx mx ex], y as [sy|sy| |sy my ey];
    try destruct sx; try destruct sy; try reflexivity;
    cbn [SFcompare option_map]; apply f_equal;
    rewrite (Z.compare_antisym ey ex);
    change (Pos.compare_cont Eq mx my) with (Pos.compare mx my);
    change (Pos.compare_cont Eq my mx) with (Pos.compare my mx);
    rewrite (Pos.compare_antisym my mx);
    destruct (ey ?= ex)%Z; cbn [CompOpp]; try reflexivity;
    destruct (my ?= mx)%positive; reflexivity.
Qed.

Lemma SFcompare_refl (x : spec_float) : x <> S754_nan -> SFcompare x x = Some Eq.
Proof.
  intros N. destruct x as [s|s| |s m e]; try destruct s; try reflexivity;
    try (exfalso; apply N; reflexivity);
    cbn [SFcompare]; rewrite Z.compare_refl;
    change (Pos.compare_cont Eq m m) with (Pos.compare m m);
    rewrite Pos.compare_refl; reflexivity.
Qed.

Lemma is_nan_false (x : float) : PrimFloat.is_nan x = false <-> Prim2SF x <> S754_nan.
Proof.
  unfold PrimFloat.is_nan. rewrite eqb_spec. unfold SFeqb. split.
  - intros H E. rewrite E in H. discriminate.
  - intros N. rewrite (SFcompare_refl _ N). reflexivity.
Qed.

Lemma leb_refl (x : float) : PrimFloat.is_nan x = false -> (x <=? x)%float = true.
Proof.
  intros N. apply is_nan_false in N. rewrite leb_spec. unfold SFleb.
  rewrite (SFcompare_refl _ N). reflexivity.
Qed.

Lemma ltb_leb (x y : float) : (x <? y)%float = true -> (x <=? y)%float = true.
Proof.
  rewrite ltb_spec, leb_spec. unfold SFltb, SFleb.
  destruct (SFcompare (Prim2SF x) (Prim2SF y)) as [[]|]; congruence.
Qed.

Lemma not_ltb_leb (x y : float) :
  PrimFloat.is_nan x = false -> PrimFloat.is_nan y = false ->
  (x <? y)%float = false -> (y <=? x)%float = true.
Proof.
  intros Nx Ny. apply is_nan_false in Nx, Ny.
  rewrite ltb_spec, leb_spec. unfold SFltb, SFleb.
  rewrite (SFcompare_antisym (Prim2SF x) (Prim2SF y)).
  destruct (SFcompare (Prim2SF x) (Prim2SF y)) as [[]|] eqn:C; cbn; try congruence.
  exfalso. destruct (Prim2SF x) as [sx|sx| |sx mx ex], (Prim2SF y) as [sy|sy| |sy my ey];
    try discriminate C; congruence.
Qed.

Lemma leb_not_nan (x y : float) :
  (x <=? y)%float = true -> PrimFloat.is_nan x = false /\ PrimFloat.is_nan y = false.
Proof.
  rewrite leb_spec. intros L. split; apply is_nan_false; intros E; rewrite E in L;
    [|destruct (Prim2SF x)]; discriminate.
Qed.

Section Doubles.

Local Open Scope Z_scope.

(** ** The shift register of the rounding *)

Lemma digits2_pos_bounds (p : positive) :
  2 ^ (Zpos (digits2_pos p) - 1) <= Zpos p < 2 ^ Zpos (digits2_pos p).
Proof.
  induction p as [p IH|p IH|]; simpl digits2_pos.
  - rewrite Pos2Z.inj_succ.
    replace (Z.succ (Zpos (digits2_pos p)) - 1) with (Z.succ (Zpos (digits2_pos p) - 1)) by lia.
    rewrite !Z.pow_succ_r by lia. lia.
  - rewrite Pos2Z.inj_succ.
    replace (Z.succ (Zpos (digits2_pos p)) - 1) with (Z.succ (Zpos (digits2_pos p) - 1)) by lia.
    rewrite !Z.pow_succ_r by lia. lia.
  - simpl. lia.
Qed.


Lemma shr_1_nonneg (m : Z) (r s : bool) :
  0 <= m ->
  shr_1 {| shr_m := m; shr_r := r; shr_s := s |}
  = {| shr_m := m / 2; shr_r := Z.odd m; shr_s := orb r s |}.
Proof.
  intros M. destruct m as [|p|p]; [reflexivity| |lia].
  destruct p as [p|p|]; simpl shr_1.
  - f_equal. rewrite Pos2Z.inj_xI. apply (Z.div_unique_pos _ 2 _ 1); lia.
  - f_equal. rewrite Pos2Z.inj_xO. apply (Z.div_unique_pos _ 2 _ 0); lia.
  - reflexivity.
Qed.

Lemma odd_mod2 (a : Z) : a mod 2 = Z.b2z (Z.odd a).
Proof. rewrite <- Z.bit0_odd. symmetry. apply Z.bit0_mod. Qed.

Lemma shifted_step (m : Z) (j : nat) : 0 <= m -> shr_1 (shifted m j) = shifted m (S j).
Proof.
  intros M. destruct j as [|i].
  - simpl shifted at 1. rewrite shr_1_nonneg by exact M.
    unfold shifted. change (2 ^ Z.of_nat 1) with 2. change (2 ^ Z.of_nat 0) with 1.
    rewrite Z.div_1_r, Z.mod_1_r. reflexivity.
  - unfold shifted at 1. rewrite shr_1_nonneg by (apply Z.div_pos; [exact M | apply Z.pow_pos_nonneg; lia]).
    unfold shifted.
    replace (Z.of_nat (S (S i))) with (Z.succ (Z.of_nat (S i))) by lia.
    rewrite Z.pow_succ_r by lia.
    rewrite (Z.mul_comm 2), <- Z.div_div by (try apply Z.pow_pos_nonneg; lia).
    f_equal.
    (* sticky bit *)
    set (a := Z.of_nat i). replace (Z.of_nat (S i)) with (Z.succ a) by lia.
    assert (A : 0 <= a) by lia. clearbody a.
    rewrite Z.pow_succ_r by lia.
    assert (P : 0 < 2 ^ a) by (apply Z.pow_pos_nonneg; lia).
    set (w := 2 ^ a) in *.
    assert (D : m mod (2 * w) = w * ((m / w) mod 2) + m mod w).
    { rewrite (Z.mul_comm 2 w). rewrite Z.rem_mul_r by lia. lia. }
    rewrite D.
    pose proof (Z.mod_pos_bound m w P) as Bw.
    rewrite odd_mod2.
    destruct (Z.odd (m / w)); simpl Z.b2z; simpl orb.
    + symmetry. apply negb_true_iff, Z.eqb_neq. nia.
    + f_equal. f_equal. lia.
Qed.

Lemma iter_pos_shifted (p : positive) (m : Z) (j : nat) :
  0 <= m -> iter_pos shr_1 p (shifted m j) = shifted m (Pos.to_nat p + j).
Proof.
  intros M. revert j. induction p as [p IH|p IH|]; intros j; simpl iter_pos.
  - rewrite shifted_step, !IH by exact M. f_equal. lia.
  - rewrite !IH. f_equal. lia.
  - rewrite shifted_step by exact M. reflexivity.
Qed.


Lemma round_shifted (m : Z) (j : nat) :
  0 <= m ->
  round_nearest_even (shr_m (shifted m j)) (loc_of_shr_record (shifted m j))
  = nearestEven m (Z.of_nat j).
Proof.
  intros M. unfold nearestEven. destruct j as [|i].
  - change (2 ^ Z.of_nat 0) with 1. rewrite Z.div_1_r, Z.mod_1_r. reflexivity.
  - unfold shifted. cbn [shr_m loc_of_shr_record].
    set (a := Z.of_nat i). replace (Z.of_nat (S i)) with (Z.succ a) by lia.
    assert (A : 0 <= a) by lia. clearbody a.
    rewrite Z.pow_succ_r by lia.
    assert (P : 0 < 2 ^ a) by (apply Z.pow_pos_nonneg; lia).
    set (w := 2 ^ a) in *.
    assert (D : m mod (2 * w) = w * ((m / w) mod 2) + m mod w).
    { rewrite (Z.mul_comm 2 w). rewrite Z.rem_mul_r by lia. lia. }
    rewrite D, odd_mod2.
    pose proof (Z.mod_pos_bound m w P) as Bw.
    destruct (Z.odd (m / w)); simpl Z.b2z.
    + destruct (m mod w =? 0) eqn:E; [apply Z.eqb_eq in E|apply Z.eqb_neq in E]; simpl negb;
        cbn [round_nearest_even].
      * replace (2 * (w * 1 + m mod w) <? 2 * w) with false by (symmetry; apply Z.ltb_ge; lia).
        replace (2 * w <? 2 * (w * 1 + m mod w)) with false by (symmetry; apply Z.ltb_ge; lia).
        reflexivity.
      * replace (2 * (w * 1 + m mod w) <? 2 * w) with false by (symmetry; apply Z.ltb_ge; lia).
        replace (2 * w <? 2 * (w * 1 + m mod w)) with true by (symmetry; apply Z.ltb_lt; lia).
        reflexivity.
    + replace (2 * (w * 0 + m mod w) <? 2 * w) with true by (symmetry; apply Z.ltb_lt; lia).
      destruct (negb (m mod w =? 0)); reflexivity.
Qed.

Lemma fexp_eq (e : Z) : fexp prec emax e = Z.max (e - 53) (-1074).
Proof. reflexivity. Qed.

Lemma digits_le_53 (m : positive) : Zpos m < 2 ^ 53 -> Zpos (digits2_pos m) <= 53.
Proof.
  intros H. pose proof (digits2_pos_bounds m) as [L _].
  destruct (Z_le_gt_dec (Zpos (digits2_pos m)) 53) as [|G]; [assumption|exfalso].
  assert (2 ^ 53 <= 2 ^ (Zpos (digits2_pos m) - 1)) by (apply Z.pow_le_mono_r; lia).
  lia.
Qed.

Lemma nearestEven_bounds (x g : Z) :
  0 <= x -> 0 <= g ->
  x / 2 ^ g <= nearestEven x g <= x / 2 ^ g + 1.
Proof.
  intros X G. unfold nearestEven.
  destruct (_ <? _); [lia|]. destruct (_ <? _); [lia|]. destruct (Z.even _); lia.
Qed.

Lemma binary_round_aux_spec (s : bool) (M : positive) (E : Z) :
  let e1 := fexp prec emax (Zpos (digits2_pos M) + E) in
  E <= e1 ->
  let m1 := nearestEven (Zpos M) (e1 - E) in
  binary_round_aux prec emax s (Zpos M) E loc_Exact =
    if m1 =? 0 then S754_zero s
    else if m1 =? 2 ^ 53
      then (if e1 + 1 <=? 971 then S754_finite s (2 ^ 52) (e1 + 1) else S754_infinity s)
      else (if e1 <=? 971 then S754_finite s (Z.to_pos m1) e1 else S754_infinity s).
Proof.
  intros e1 K m1.
  assert (E1 : -1074 <= e1) by (unfold e1; rewrite fexp_eq; lia).
  assert (B : 0 <= m1 <= 2 ^ 53).
  { pose proof (digits2_pos_bounds M) as [_ U].
    pose proof (nearestEven_bounds (Zpos M) (e1 - E) ltac:(lia) ltac:(lia)) as N. fold m1 in N.
    assert (0 <= Zpos M / 2 ^ (e1 - E)) by (apply Z.div_pos; [lia|apply Z.pow_pos_nonneg; lia]).
    assert (Zpos M / 2 ^ (e1 - E) < 2 ^ 53); [|lia].
    apply Z.div_lt_upper_bound; [apply Z.pow_pos_nonneg; lia|].
    rewrite <- Z.pow_add_r by lia.
    eapply Z.lt_le_trans; [exact U|]. apply Z.pow_le_mono_r; [lia|].
    unfold e1. rewrite fexp_eq. lia. }
  assert (S1 : shr_fexp prec emax (Zpos M) E loc_Exact
               = (shifted (Zpos M) (Z.to_nat (e1 - E)), e1)).
  { unfold shr_fexp. cbn [shr_record_of_loc Zdigits2]. fold e1. unfold shr.
    destruct (e1 - E) as [|p|p] eqn:D; [| |lia].
    - simpl. f_equal. lia.
    - change {| shr_m := Zpos M; shr_r := false; shr_s := false |} with (shifted (Zpos M) 0).
      rewrite iter_pos_shifted by lia. f_equal; [|lia]. f_equal. lia. }
  unfold binary_round_aux. rewrite S1.
  rewrite round_shifted by lia. rewrite Z2Nat.id by lia. fold m1.
  unfold shr_fexp. cbn [shr_record_of_loc].
  destruct (m1 =? 0) eqn:Z0.
  { apply Z.eqb_eq in Z0. rewrite Z0. cbn [Zdigits2]. rewrite fexp_eq. unfold shr.
    destruct (Z.max (0 + e1 - 53) (-1074) - e1) as [|p|p] eqn:D; [reflexivity|lia|reflexivity]. }
  apply Z.eqb_neq in Z0.
  destruct m1 as [|m|m] eqn:M1; [lia| |lia].
  cbn [Zdigits2]. rewrite fexp_eq. unfold shr.
  destruct (Zpos m =? 2 ^ 53) eqn:T.
  - apply Z.eqb_eq in T. assert (Tm : m = (2 ^ 53)%positive) by (apply Pos2Z.inj; exact T).
    subst m. change (Zpos (digits2_pos (2 ^ 53))) with 54.
    replace (Z.max (54 + e1 - 53) (-1074) - e1) with 1 by lia.
    cbn [iter_pos]. cbv [shr_1 shr_m]. simpl Z.pow. reflexivity.
  - apply Z.eqb_neq in T. assert (L : Zpos m < 2 ^ 53) by lia.
    pose proof (digits_le_53 m L) as D53.
    destruct (Z.max (Zpos (digits2_pos m) + e1 - 53) (-1074) - e1) as [|p|p] eqn:D; [|lia|].
    + cbn [shr_m]. change (emax - prec) with 971. rewrite Pos2Z.id. reflexivity.
    + cbn [shr_m]. change (emax - prec) with 971. rewrite Pos2Z.id. reflexivity.
Qed.

(** ** Powers of two and bit lengths *)

Lemma pow2_pos (a : Z) : 0 <= a -> 0 < 2 ^ a.
Proof. intros. apply Z.pow_pos_nonneg; lia. Qed.

Lemma pow2_le (a b : Z) : 0 <= a <= b -> 2 ^ a <= 2 ^ b.
Proof. intros. apply Z.pow_le_mono_r; lia. Qed.

Lemma pow2_split (a b : Z) : 0 <= a <= b -> 2 ^ b = 2 ^ (b - a) * 2 ^ a.
Proof. intros. rewrite <- Z.pow_add_r by lia. f_equal. lia. Qed.

Lemma digits_bounds (x : Z) :
  0 < x -> 2 ^ (Zdigits2 x - 1) <= x < 2 ^ Zdigits2 x /\ 0 < Zdigits2 x.
Proof.
  intros X. destruct x as [|p|p]; try lia. cbn [Zdigits2].
  split; [apply digits2_pos_bounds | lia].
Qed.

Lemma digits_unique (x d : Z) : 2 ^ (d - 1) <= x < 2 ^ d -> 0 < d -> Zdigits2 x = d.
Proof.
  intros [L U] D.
  assert (X : 0 < x) by (pose proof (pow2_pos (d - 1)); lia).
  destruct (digits_bounds x X) as [[L' U'] D'].
  destruct (Z.lt_trichotomy (Zdigits2 x) d) as [C|[C|C]]; [exfalso|exact C|exfalso].
  - pose proof (pow2_le (Zdigits2 x) (d - 1)). lia.
  - pose proof (pow2_le d (Zdigits2 x - 1)). lia.
Qed.

Lemma digits_mono (x y : Z) : 0 <= x <= y -> Zdigits2 x <= Zdigits2 y.
Proof.
  intros [X Y]. destruct (Z.eq_dec x 0) as [->|N].
  - destruct y; cbn [Zdigits2]; lia.
  - destruct (digits_bounds x ltac:(lia)) as [[L U] D].
    destruct (digits_bounds y ltac:(lia)) as [[L' U'] D'].
    destruct (Z_le_gt_dec (Zdigits2 x) (Zdigits2 y)) as [|G]; [assumption|exfalso].
    pose proof (pow2_le (Zdigits2 y) (Zdigits2 x - 1)). lia.
Qed.

Lemma digits_shift (x a : Z) : 0 < x -> 0 <= a -> Zdigits2 (x * 2 ^ a) = Zdigits2 x + a.
Proof.
  intros X A. destruct (digits_bounds x X) as [[L U] D].
  apply digits_unique; [|lia].
  replace (Zdigits2 x + a - 1) with (Zdigits2 x - 1 + a) by lia.
  rewrite !Z.pow_add_r by lia.
  pose proof (pow2_pos a A). nia.
Qed.

Lemma ulpExp_ge (x : Z) : 1126 <= ulpExp x.
Proof. unfold ulpExp. lia. Qed.

Lemma ulpExp_mono (x y : Z) : 0 <= x <= y -> ulpExp x <= ulpExp y.
Proof. intros H. unfold ulpExp. pose proof (digits_mono x y H). lia. Qed.

(** ** Rounding to a multiple of a power of two *)

Section Grid.

Variable g : Z.
Hypothesis G : 0 <= g.

Let w := 2 ^ g.

Lemma grid_pos : 0 < w.
Proof. apply pow2_pos. exact G. Qed.

Lemma nearestEven_cases (x : Z) :
  let q := x / w in let r := x mod w in
  x = w * q + r /\ 0 <= r < w /\
  ((2 * r < w /\ nearestEven x g = q) \/
   (w < 2 * r /\ nearestEven x g = q + 1) \/
   (2 * r = w /\ Z.even q = true /\ nearestEven x g = q) \/
   (2 * r = w /\ Z.even q = false /\ nearestEven x g = q + 1)).
Proof.
  intros q r. pose proof grid_pos as P.
  split; [apply Z.div_mod; lia|]. split; [apply Z.mod_pos_bound; lia|].
  unfold nearestEven. fold w. fold q. fold r.
  destruct (2 * r <? w) eqn:A; [apply Z.ltb_lt in A; left; split; [lia|reflexivity]|].
  apply Z.ltb_ge in A.
  destruct (w <? 2 * r) eqn:B; [apply Z.ltb_lt in B; right; left; split; [lia|reflexivity]|].
  apply Z.ltb_ge in B.
  destruct (Z.even q) eqn:E; right; right; [left|right]; repeat split; lia.
Qed.

Lemma nearestEven_error (x : Z) : 2 * Z.abs (nearestEven x g * w - x) <= w.
Proof.
  destruct (nearestEven_cases x) as [D [R C]]. cbv zeta in *.
  destruct C as [[A ->]|[[A ->]|[[A [_ ->]]|[A [_ ->]]]]]; lia.
Qed.

Lemma nearestEven_above (x k : Z) : k * w <= x -> k <= nearestEven x g.
Proof.
  intros K. destruct (nearestEven_cases x) as [D [R C]]. cbv zeta in *.
  pose proof grid_pos as P.
  assert (k <= x / w) by (apply Z.div_le_lower_bound; lia).
  destruct C as [[A ->]|[[A ->]|[[A [_ ->]]|[A [_ ->]]]]]; lia.
Qed.

Lemma nearestEven_below (x k : Z) : x <= k * w -> nearestEven x g <= k.
Proof.
  intros K. destruct (nearestEven_cases x) as [D [R C]]. cbv zeta in *.
  pose proof grid_pos as P.
  destruct (Z.eq_dec (x mod w) 0) as [Z0|NZ].
  - assert (x / w <= k) by nia.
    destruct C as [[A ->]|[[A ->]|[[A [_ ->]]|[A [_ ->]]]]]; lia.
  - assert (x / w < k) by nia.
    destruct C as [[A ->]|[[A ->]|[[A [_ ->]]|[A [_ ->]]]]]; lia.
Qed.

Lemma nearestEven_exact (k : Z) : nearestEven (k * w) g = k.
Proof.
  pose proof (nearestEven_above (k * w) k ltac:(lia)).
  pose proof (nearestEven_below (k * w) k ltac:(lia)). lia.
Qed.

Lemma nearestEven_mono (x y : Z) : x <= y -> nearestEven x g <= nearestEven y g.
Proof.
  intros L. pose proof grid_pos as P.
  destruct (nearestEven_cases x) as [Dx [Rx Cx]].
  destruct (nearestEven_cases y) as [Dy [Ry Cy]]. cbv zeta in *.
  assert (Q : x / w <= y / w) by (apply Z.div_le_mono; lia).
  destruct (Z.eq_dec (x / w) (y / w)) as [E|N].
  - rewrite E in *.
    destruct Cx as [[A ->]|[[A ->]|[[A [Ev ->]]|[A [Ev ->]]]]];
      destruct Cy as [[B ->]|[[B ->]|[[B [Ev' ->]]|[B [Ev' ->]]]]]; try lia; congruence.
  - destruct Cx as [[A ->]|[[A ->]|[[A [Ev ->]]|[A [Ev ->]]]]];
      destruct Cy as [[B ->]|[[B ->]|[[B [Ev' ->]]|[B [Ev' ->]]]]]; lia.
Qed.

End Grid.

(** ** Rounding to a double *)

Lemma rne_error (x : Z) : 2 * Z.abs (rne x - x) <= 2 ^ ulpExp x.
Proof. unfold rne. apply nearestEven_error. pose proof (ulpExp_ge x). lia. Qed.

Lemma rne_exact (x : Z) : x mod 2 ^ ulpExp x = 0 -> rne x = x.
Proof.
  intros H. unfold rne. pose proof (ulpExp_ge x) as G.
  pose proof (pow2_pos (ulpExp x) ltac:(lia)) as P.
  assert (D : x = x / 2 ^ ulpExp x * 2 ^ ulpExp x).
  { pose proof (Z.div_mod x (2 ^ ulpExp x) ltac:(lia)). lia. }
  rewrite D at 1. rewrite nearestEven_exact by lia. lia.
Qed.

Lemma rne_nonneg (x : Z) : 0 <= x -> 0 <= rne x.
Proof.
  intros X. unfold rne. pose proof (ulpExp_ge x) as G.
  pose proof (pow2_pos (ulpExp x) ltac:(lia)) as P.
  pose proof (nearestEven_above (ulpExp x) ltac:(lia) x 0 ltac:(lia)). nia.
Qed.

(** A rounded value stays within the powers of two around its argument. *)
Lemma rne_upper (x d : Z) : 0 <= x <= 2 ^ d -> Zdigits2 x <= d -> 1126 <= d -> rne x <= 2 ^ d.
Proof.
  intros X D L. unfold rne. pose proof (ulpExp_ge x) as G.
  assert (U : ulpExp x <= d) by (unfold ulpExp; lia).
  pose proof (pow2_pos (ulpExp x) ltac:(lia)) as P.
  rewrite (pow2_split (ulpExp x) d) by lia.
  apply Z.mul_le_mono_nonneg_r; [lia|].
  apply nearestEven_below; [lia|]. rewrite <- pow2_split by lia. lia.
Qed.

Lemma rne_lower (x d : Z) : 2 ^ d <= x -> Zdigits2 x <= d + 53 -> 1126 <= d -> 2 ^ d <= rne x.
Proof.
  intros X D L. unfold rne. pose proof (ulpExp_ge x) as G.
  assert (U : ulpExp x <= d) by (unfold ulpExp; lia).
  pose proof (pow2_pos (ulpExp x) ltac:(lia)) as P.
  rewrite (pow2_split (ulpExp x) d) by lia.
  apply Z.mul_le_mono_nonneg_r; [lia|].
  apply nearestEven_above; [lia|]. rewrite <- pow2_split by lia. lia.
Qed.

Lemma rne_mono (x y : Z) : 0 <= x <= y -> rne x <= rne y.
Proof.
  intros [X Y].
  pose proof (ulpExp_mono x y ltac:(lia)) as M.
  pose proof (ulpExp_ge x) as Gx. pose proof (ulpExp_ge y) as Gy.
  destruct (Z.eq_dec (ulpExp x) (ulpExp y)) as [E|N].
  - unfold rne. rewrite E.
    apply Z.mul_le_mono_nonneg_r; [pose proof (pow2_pos (ulpExp y)); lia|].
    apply nearestEven_mono; lia.
  - assert (Dy : ulpExp y = Zdigits2 y - 53) by (unfold ulpExp in *; lia).
    assert (Dxy : Zdigits2 x < Zdigits2 y) by (unfold ulpExp in *; lia).
    assert (Py : 0 < y).
    { destruct y; cbn [Zdigits2] in *; unfold ulpExp in *; cbn [Zdigits2] in *; lia. }
    destruct (digits_bounds y Py) as [[Ly Uy] _].
    apply Z.le_trans with (2 ^ (Zdigits2 y - 1)).
    + apply rne_upper; [|lia|lia]. split; [lia|].
      destruct (Z.eq_dec x 0) as [->|NZ]; [pose proof (pow2_pos (Zdigits2 y - 1)); lia|].
      destruct (digits_bounds x ltac:(lia)) as [[Lx Ux] Dx].
      pose proof (pow2_le (Zdigits2 x) (Zdigits2 y - 1)). lia.
    + apply rne_lower; lia.
Qed.

(** In the normal range the spacing is at most [2^-52] of the value. *)
Lemma ulp_relative (x : Z) : 2 ^ 1178 <= x -> 2 ^ 52 * 2 ^ ulpExp x <= x.
Proof.
  intros X. assert (P : 0 < x) by (pose proof (pow2_pos 1178); lia).
  destruct (digits_bounds x P) as [[L U] D].
  assert (1179 <= Zdigits2 x).
  { destruct (Z_le_gt_dec 1179 (Zdigits2 x)); [assumption|exfalso].
    pose proof (pow2_le (Zdigits2 x) 1178). lia. }
  unfold ulpExp. rewrite Z.max_l by lia.
  rewrite <- Z.pow_add_r by lia. replace (52 + (Zdigits2 x - 53)) with (Zdigits2 x - 1) by lia.
  exact L.
Qed.

(** ** The bounds of the doubles *)

Lemma least_pos : 0 < least.
Proof. apply pow2_pos. lia. Qed.

Lemma one_pos : 0 < one.
Proof. apply pow2_pos. lia. Qed.

Lemma huge_pos : 0 < huge.
Proof. apply pow2_pos. lia. Qed.

Lemma huge_unbounded : huge < unbounded.
Proof. apply Z.pow_lt_mono_r; lia. Qed.

Lemma least_huge : least < huge.
Proof. apply Z.pow_lt_mono_r; lia. Qed.

Lemma pow_product_lt (m a b c : Z) :
  0 <= m < 2 ^ a -> 0 <= a -> 0 <= b <= c -> m * 2 ^ b < 2 ^ (a + c).
Proof.
  intros M A B. rewrite Z.pow_add_r by lia.
  pose proof (pow2_le b c B). pose proof (pow2_pos b ltac:(lia)). nia.
Qed.

Lemma pow_product_ge (m a b c : Z) :
  2 ^ a <= m -> 0 <= a -> 0 <= c <= b -> 2 ^ (a + c) <= m * 2 ^ b.
Proof.
  intros M A B. rewrite Z.pow_add_r by lia.
  pose proof (pow2_le c b B). pose proof (pow2_pos c ltac:(lia)).
  pose proof (pow2_pos a A). nia.
Qed.

Lemma positive_scaled (m : positive) (e : Z) : -1074 <= e -> least <= Zpos m * 2 ^ (e + 2200).
Proof.
  intros L. change least with (2 ^ (0 + 1126)). apply pow_product_ge; simpl; lia.
Qed.

Lemma overflow_small (v : Z) : v < huge -> overflow v = v.
Proof. intros H. unfold overflow. apply Z.ltb_lt in H. rewrite H. reflexivity. Qed.

Lemma overflow_large (v : Z) : huge <= v -> overflow v = unbounded.
Proof. intros H. unfold overflow. apply Z.ltb_ge in H. rewrite H. reflexivity. Qed.

Lemma overflow_mono (u v : Z) : u <= v -> overflow u <= overflow v.
Proof.
  intros L. unfold overflow. pose proof huge_unbounded.
  destruct (Z.ltb_spec u huge), (Z.ltb_spec v huge); lia.
Qed.

Lemma rne_zero : rne 0 = 0.
Proof. reflexivity. Qed.

Lemma rne_huge : rne huge = huge.
Proof.
  apply rne_exact.
  assert (U : ulpExp huge = 3172).
  { unfold ulpExp. rewrite (digits_unique huge 3225); [reflexivity| |lia].
    split; [apply Z.le_refl|apply Z.pow_lt_mono_r; lia]. }
  rewrite U. unfold huge. rewrite (pow2_split 3172 3224) by lia. apply Z.mod_mul.
  pose proof (pow2_pos 3172). lia.
Qed.

Lemma rne_large (v : Z) : huge <= v -> huge <= rne v.
Proof.
  intros H. rewrite <- rne_huge. apply rne_mono. pose proof huge_pos. lia.
Qed.

Lemma large_quotient (X Y : Z) : unbounded <= X -> least <= Y -> huge <= X * Y / one.
Proof.
  intros HX HY. apply Z.div_le_lower_bound; [apply one_pos|].
  assert (one * huge <= unbounded * least).
  { unfold one, huge, unbounded, least. rewrite <- !Z.pow_add_r by lia. apply pow2_le. lia. }
  pose proof least_pos. pose proof huge_pos. pose proof huge_unbounded. nia.
Qed.

(** ** The rounding of the standard library *)

Lemma nearestEven_scale (m k a : Z) :
  0 <= k -> 0 <= a -> nearestEven (m * 2 ^ a) (k + a) = nearestEven m k.
Proof.
  intros K A. unfold nearestEven.
  pose proof (pow2_pos a A) as Pa. pose proof (pow2_pos k K) as Pk.
  rewrite Z.pow_add_r by lia.
  rewrite Z.div_mul_cancel_r by lia.
  rewrite Z.mul_mod_distr_r by lia.
  replace (2 * (m mod 2 ^ k * 2 ^ a) <? 2 ^ k * 2 ^ a) with (2 * (m mod 2 ^ k) <? 2 ^ k).
  2:{ destruct (Z.ltb_spec (2 * (m mod 2 ^ k)) (2 ^ k));
      symmetry; [apply Z.ltb_lt|apply Z.ltb_ge]; nia. }
  replace (2 ^ k * 2 ^ a <? 2 * (m mod 2 ^ k * 2 ^ a)) with (2 ^ k <? 2 * (m mod 2 ^ k)).
  2:{ destruct (Z.ltb_spec (2 ^ k) (2 * (m mod 2 ^ k)));
      symmetry; [apply Z.ltb_lt|apply Z.ltb_ge]; nia. }
  reflexivity.
Qed.

Lemma canonical_exponent (m : positive) (e : Z) :
  canonical_mantissa prec emax m e = true ->
  -1074 <= e /\ Zpos (digits2_pos m) <= 53 /\ (-1074 < e -> Zpos (digits2_pos m) = 53).
Proof.
  unfold canonical_mantissa. rewrite fexp_eq. intros H. apply Z.eqb_eq in H. lia.
Qed.

Lemma bounded_facts (m : positive) (e : Z) :
  bounded prec emax m e = true ->
  -1074 <= e <= 971 /\ Zpos (digits2_pos m) <= 53 /\ (-1074 < e -> Zpos (digits2_pos m) = 53).
Proof.
  unfold bounded. intros H. apply andb_prop in H. destruct H as [C B].
  apply Z.leb_le in B. change (emax - prec) with 971 in B.
  destruct (canonical_exponent m e C) as [L [D N]]. lia.
Qed.

Lemma round_value (s : bool) (M : positive) (E : Z) :
  -2200 <= E -> E <= fexp prec emax (Zpos (digits2_pos M) + E) ->
  let R := binary_round_aux prec emax s (Zpos M) E loc_Exact in
  valid_binary R = true /\ signed s R /\
  scaled R = cond_Zopp s (overflow (rne (Zpos M * 2 ^ (E + 2200)))).
Proof.
  intros LE K R.
  pose proof (binary_round_aux_spec s M E K) as Spec. cbv zeta in Spec. fold R in Spec.
  set (e1 := fexp prec emax (Zpos (digits2_pos M) + E)) in *.
  set (m1 := nearestEven (Zpos M) (e1 - E)) in *.
  assert (E1 : e1 = Z.max (Zpos (digits2_pos M) + E - 53) (-1074)) by reflexivity.
  set (x := Zpos M * 2 ^ (E + 2200)).
  assert (U : ulpExp x = e1 + 2200).
  { unfold ulpExp, x. rewrite digits_shift by lia. cbn [Zdigits2]. lia. }
  assert (V : rne x = m1 * 2 ^ (e1 + 2200)).
  { unfold rne. rewrite U. f_equal. unfold x, m1.
    replace (e1 + 2200) with ((e1 - E) + (E + 2200)) by lia.
    apply nearestEven_scale; lia. }
  assert (B : 0 <= m1 <= 2 ^ 53).
  { pose proof (digits2_pos_bounds M) as [_ UM]. split.
    - apply nearestEven_above; lia.
    - apply nearestEven_below; [lia|]. rewrite <- Z.pow_add_r by lia.
      pose proof (pow2_le (Zpos (digits2_pos M)) (53 + (e1 - E))). lia. }
  assert (N : -1074 < e1 -> 2 ^ 52 <= m1).
  { intros Nrm. pose proof (digits2_pos_bounds M) as [LM _].
    apply nearestEven_above; [lia|]. rewrite <- Z.pow_add_r by lia.
    replace (52 + (e1 - E)) with (Zpos (digits2_pos M) - 1) by lia. exact LM. }
  rewrite V. clear V U x.
  destruct (m1 =? 0) eqn:Z0.
  { apply Z.eqb_eq in Z0. rewrite Spec, Z0. rewrite Z.mul_0_l.
    rewrite overflow_small by apply huge_pos.
    split; [reflexivity|split; [reflexivity|destruct s; reflexivity]]. }
  apply Z.eqb_neq in Z0.
  destruct (m1 =? 2 ^ 53) eqn:T.
  - apply Z.eqb_eq in T. rewrite T.
    destruct (e1 + 1 <=? 971) eqn:O; rewrite Spec; clear Spec.
    + apply Z.leb_le in O. split; [|split; [reflexivity|]].
      * cbn [valid_binary]. unfold bounded, canonical_mantissa.
        change (Zpos (digits2_pos (2 ^ 52))) with 53. rewrite fexp_eq.
        apply andb_true_intro. split; [apply Z.eqb_eq; lia|apply Z.leb_le; exact O].
      * cbn [scaled]. f_equal. rewrite overflow_small.
        -- change (Zpos (2 ^ 52)) with (2 ^ 52). rewrite <- !Z.pow_add_r by lia. f_equal. lia.
        -- rewrite <- Z.pow_add_r by lia. apply Z.pow_lt_mono_r; lia.
    + apply Z.leb_gt in O. split; [reflexivity|split; [reflexivity|]].
      cbn [scaled]. f_equal. symmetry. apply overflow_large.
      rewrite <- Z.pow_add_r by lia. apply pow2_le. lia.
  - apply Z.eqb_neq in T.
    destruct (e1 <=? 971) eqn:O; rewrite Spec; clear Spec.
    + apply Z.leb_le in O. split; [|split; [reflexivity|]].
      * cbn [valid_binary]. unfold bounded, canonical_mantissa. rewrite fexp_eq.
        apply andb_true_intro. split; [apply Z.eqb_eq|apply Z.leb_le; exact O].
        assert (D : Zpos (digits2_pos (Z.to_pos m1)) <= 53)
          by (apply digits_le_53; rewrite Z2Pos.id; lia).
        destruct (Z.eq_dec e1 (-1074)) as [Sub|Nrm]; [lia|].
        assert (Zdigits2 m1 = 53) by (apply digits_unique; [split; [apply N|]|]; lia).
        destruct m1; try lia. cbn [Zdigits2] in H. cbn [Z.to_pos]. lia.
      * cbn [scaled]. f_equal. rewrite Z2Pos.id by lia. symmetry. apply overflow_small.
        change huge with (2 ^ (53 + 3171)). apply pow_product_lt; lia.
    + apply Z.leb_gt in O. split; [reflexivity|split; [reflexivity|]].
      cbn [scaled]. f_equal. symmetry. apply overflow_large.
      change huge with (2 ^ (52 + 3172)). apply pow_product_ge; [apply N; lia|lia|lia].
Qed.

Lemma signed_nonnegative (x : spec_float) : signed false x -> nonnegative x = true.
Proof.
  destruct x as [s|s| |s m e]; simpl; intros H; try subst s; try reflexivity; contradiction.
Qed.

Lemma pos_iter_xO (m d : positive) : Zpos (Pos.iter xO m d) = Zpos m * 2 ^ Zpos d.
Proof.
  induction d as [|d IH] using Pos.peano_ind.
  - simpl. lia.
  - rewrite Pos.iter_succ, Pos2Z.inj_xO, IH, Pos2Z.inj_succ, Z.pow_succ_r by lia. lia.
Qed.

Lemma shl_align_spec (mx : positive) (ex ex' : Z) :
  (ex' < ex -> shl_align mx ex ex' = (Z.to_pos (Zpos mx * 2 ^ (ex - ex')), ex')) /\
  (ex <= ex' -> shl_align mx ex ex' = (mx, ex)).
Proof.
  unfold shl_align. split; intros H.
  - destruct (ex' - ex) as [|d|d] eqn:D; try lia.
    f_equal. apply Pos2Z.inj. rewrite pos_iter_xO.
    assert (0 < 2 ^ (ex - ex')) by (apply pow2_pos; lia).
    rewrite Z2Pos.id by nia. f_equal. f_equal. lia.
  - destruct (ex' - ex) as [|d|d] eqn:D; try lia; reflexivity.
Qed.

Lemma shl_align_value (mx : positive) (ex ex' : Z) :
  ex' <= ex -> Zpos (fst (shl_align mx ex ex')) = Zpos mx * 2 ^ (ex - ex').
Proof.
  intros H. destruct (shl_align_spec mx ex ex') as [A B].
  destruct (Z.eq_dec ex ex') as [->|N].
  - rewrite B by lia. rewrite Z.sub_diag. simpl. lia.
  - rewrite A by lia. cbn [fst].
    assert (0 < 2 ^ (ex - ex')) by (apply pow2_pos; lia).
    rewrite Z2Pos.id by nia. reflexivity.
Qed.

Lemma aligned_value (m : positive) (e ez : Z) :
  -1074 <= ez <= e ->
  Zpos (fst (shl_align m e ez)) * 2 ^ (ez + 2200) = Zpos m * 2 ^ (e + 2200).
Proof.
  intros H. rewrite shl_align_value by lia.
  rewrite <- Z.mul_assoc, <- Z.pow_add_r by lia. f_equal. f_equal. lia.
Qed.

Lemma binary_round_value (s : bool) (M : positive) (E : Z) :
  -2200 <= E ->
  let R := binary_round prec emax s M E in
  valid_binary R = true /\ signed s R /\
  scaled R = cond_Zopp s (overflow (rne (Zpos M * 2 ^ (E + 2200)))).
Proof.
  intros LE. unfold binary_round.
  set (e1 := fexp prec emax (Zpos (digits2_pos M) + E)).
  assert (E1 : e1 = Z.max (Zpos (digits2_pos M) + E - 53) (-1074)) by reflexivity.
  destruct (shl_align_spec M E e1) as [A B].
  destruct (Z_lt_le_dec e1 E) as [Lt|Ge].
  - rewrite A by exact Lt.
    assert (P : 0 < 2 ^ (E - e1)) by (apply pow2_pos; lia).
    set (M' := Z.to_pos (Zpos M * 2 ^ (E - e1))).
    assert (V : Zpos M' = Zpos M * 2 ^ (E - e1)) by (unfold M'; rewrite Z2Pos.id by nia; reflexivity).
    assert (D : Zpos (digits2_pos M') = Zpos (digits2_pos M) + (E - e1)).
    { change (Zpos (digits2_pos M')) with (Zdigits2 (Zpos M')). rewrite V.
      rewrite digits_shift by lia. reflexivity. }
    pose proof (round_value s M' e1 ltac:(lia)) as RV.
    rewrite fexp_eq, D in RV. specialize (RV ltac:(lia)). cbv zeta in RV.
    replace (Zpos M' * 2 ^ (e1 + 2200)) with (Zpos M * 2 ^ (E + 2200)) in RV; [exact RV|].
    rewrite V, <- Z.mul_assoc, <- Z.pow_add_r by lia. f_equal. f_equal. lia.
  - rewrite B by exact Ge. apply round_value; [exact LE|exact Ge].
Qed.

(** A valid double that is not negative is its own rounding. *)
Lemma valid_value (x : spec_float) :
  valid_binary x = true -> nonnegative x = true -> finite x = true ->
  0 <= scaled x < huge /\ scaled x mod least = 0 /\ rne (scaled x) = scaled x.
Proof.
  intros V N F. destruct x as [s|s| |s m e]; try discriminate.
  - cbn [scaled]. split; [split; [lia|apply huge_pos]|split; reflexivity].
  - simpl in N. destruct s; [discriminate|]. cbn [scaled cond_Zopp].
    cbn [valid_binary] in V. destruct (bounded_facts m e V) as [B [D Nrm]].
    pose proof (digits2_pos_bounds m) as [Lm Um].
    assert (P : 0 < 2 ^ (e + 2200)) by (apply pow2_pos; lia).
    assert (U : ulpExp (Zpos m * 2 ^ (e + 2200)) = e + 2200).
    { unfold ulpExp. rewrite digits_shift by lia. cbn [Zdigits2]. lia. }
    split; [split; [nia|]|split].
    + change huge with (2 ^ (53 + 3171)). apply pow_product_lt; [|lia|lia].
      pose proof (pow2_le (Zpos (digits2_pos m)) 53 ltac:(lia)). lia.
    + unfold least. rewrite (pow2_split 1126 (e + 2200)) by lia.
      rewrite Z.mul_assoc. apply Z.mod_mul. pose proof (pow2_pos 1126); lia.
    + apply rne_exact. rewrite U. apply Z.mod_mul. lia.
Qed.

Lemma scaled_unbounded (R : spec_float) :
  valid_binary R = true -> nonnegative R = true -> scaled R < huge -> finite R = true.
Proof.
  intros V N S. destruct R as [s|s| |s m e]; try reflexivity; try discriminate.
  simpl in N. destruct s; [discriminate|]. cbn [scaled cond_Zopp] in S.
  exfalso. pose proof huge_unbounded. lia.
Qed.

Lemma digits_product (mx my : positive) :
  Zpos (digits2_pos mx) + Zpos (digits2_pos my) - 1 <= Zpos (digits2_pos (mx * my)).
Proof.
  pose proof (digits2_pos_bounds mx) as [Lx Ux].
  pose proof (digits2_pos_bounds my) as [Ly Uy].
  pose proof (digits2_pos_bounds (mx * my)) as [L U].
  rewrite Pos2Z.inj_mul in *.
  destruct (Z_le_gt_dec (Zpos (digits2_pos mx) + Zpos (digits2_pos my) - 1)
              (Zpos (digits2_pos (mx * my)))) as [|G]; [assumption|exfalso].
  assert (2 ^ Zpos (digits2_pos (mx * my))
          <= 2 ^ (Zpos (digits2_pos mx) - 1 + (Zpos (digits2_pos my) - 1)))
    by (apply pow2_le; lia).
  rewrite Z.pow_add_r in H by lia.
  pose proof (pow2_pos (Zpos (digits2_pos mx) - 1) ltac:(lia)).
  pose proof (pow2_pos (Zpos (digits2_pos my) - 1) ltac:(lia)).
  nia.
Qed.

(** ** The operations on doubles that are not negative *)

Lemma scaled_finite_bounds (m : positive) (e : Z) :
  bounded prec emax m e = true ->
  least <= Zpos m * 2 ^ (e + 2200) < huge.
Proof.
  intros V. destruct (bounded_facts m e V) as [B _]. split.
  - apply positive_scaled. lia.
  - destruct (valid_value (S754_finite false m e) V eq_refl eq_refl) as [[_ U] _]. exact U.
Qed.

Lemma SFmul_value (x y : spec_float) :
  valid_binary x = true -> valid_binary y = true ->
  nonnegative x = true -> nonnegative y = true ->
  (finite x = true \/ 0 < scaled y) -> (finite y = true \/ 0 < scaled x) ->
  valid_binary (SF64mul x y) = true /\ nonnegative (SF64mul x y) = true /\
  scaled (SF64mul x y) = overflow (rne (scaled x * scaled y / one)).
Proof.
  intros Vx Vy Nx Ny Fx Fy. unfold SF64mul.
  destruct x as [sx|sx| |sx mx ex], y as [sy|sy| |sy my ey];
    try discriminate Nx; try discriminate Ny;
    cbn [nonnegative] in Nx, Ny;
    try (destruct sx; [discriminate Nx|]); try (destruct sy; [discriminate Ny|]);
    cbn [SFmul scaled cond_Zopp xorb finite] in *;
    rewrite ?Z.mul_0_l, ?Z.mul_0_r;
    pose proof huge_pos as HP; pose proof huge_unbounded as HU; pose proof least_pos as LP;
    pose proof least_huge as LH;
    assert (Z0 : 0 = overflow (rne (0 / one)))
      by (rewrite Z.div_0_l by (pose proof one_pos; lia); rewrite rne_zero;
          symmetry; apply overflow_small; exact HP).
  - split; [reflexivity|split; [reflexivity|exact Z0]].
  - exfalso. destruct Fy as [Fy|Fy]; [discriminate Fy|lia].
  - split; [reflexivity|split; [reflexivity|exact Z0]].
  - exfalso. destruct Fx as [Fx|Fx]; [discriminate Fx|lia].
  - (* infinity * infinity *)
    split; [reflexivity|split; [reflexivity|]]. symmetry. apply overflow_large, rne_large.
    apply large_quotient; lia.
  - (* infinity * finite *)
    cbn [valid_binary] in Vy. pose proof (scaled_finite_bounds my ey Vy).
    split; [reflexivity|split; [reflexivity|]]. symmetry. apply overflow_large, rne_large.
    apply large_quotient; lia.
  - split; [reflexivity|split; [reflexivity|exact Z0]].
  - (* finite * infinity *)
    cbn [valid_binary] in Vx. pose proof (scaled_finite_bounds mx ex Vx).
    split; [reflexivity|split; [reflexivity|]]. symmetry. apply overflow_large, rne_large.
    rewrite Z.mul_comm. apply large_quotient; lia.
  - (* finite * finite *)
    cbn [valid_binary] in Vx, Vy.
    destruct (bounded_facts mx ex Vx) as [Bx [Dx Nrmx]].
    destruct (bounded_facts my ey Vy) as [By [Dy Nrmy]].
    pose proof (digits_product mx my) as DP.
    assert (0 < Zpos (digits2_pos mx)) by lia. assert (0 < Zpos (digits2_pos my)) by lia.
    destruct (round_value false (mx * my) (ex + ey) ltac:(lia)) as [V [S R]].
    { rewrite fexp_eq. lia. }
    split; [exact V|split; [apply signed_nonnegative; exact S|]].
    rewrite R. cbn [cond_Zopp]. f_equal. f_equal.
    apply Z.div_unique_exact; [pose proof one_pos; lia|].
    rewrite Pos2Z.inj_mul. unfold one.
    transitivity (Zpos mx * Zpos my * (2 ^ (ex + ey + 2200) * 2 ^ 2200)); [|ring].
    rewrite <- Z.pow_add_r by lia.
    replace (ex + ey + 2200 + 2200) with ((ex + 2200) + (ey + 2200)) by lia.
    rewrite (Z.pow_add_r 2 (ex + 2200) (ey + 2200)) by lia. ring.
Qed.

Lemma SFadd_value (x y : spec_float) :
  valid_binary x = true -> valid_binary y = true ->
  nonnegative x = true -> nonnegative y = true ->
  valid_binary (SF64add x y) = true /\ nonnegative (SF64add x y) = true /\
  scaled (SF64add x y) = overflow (rne (scaled x + scaled y)).
Proof.
  intros Vx Vy Nx Ny. unfold SF64add.
  assert (Big : forall v, unbounded <= v -> unbounded = overflow (rne v)).
  { intros v Hv. symmetry. apply overflow_large, rne_large. pose proof huge_unbounded. lia. }
  assert (Z0 : 0 = overflow (rne (0 + 0))).
  { rewrite Z.add_0_l, rne_zero. symmetry. apply overflow_small. apply huge_pos. }
  destruct x as [sx|sx| |sx mx ex] eqn:Ex, y as [sy|sy| |sy my ey] eqn:Ey;
    try discriminate Nx; try discriminate Ny;
    cbn [nonnegative] in Nx, Ny;
    try (destruct sx; [discriminate Nx|]); try (destruct sy; [discriminate Ny|]);
    try (pose proof (scaled_finite_bounds mx ex Vx) as Sx);
    try (pose proof (scaled_finite_bounds my ey Vy) as Sy);
    pose proof huge_pos as HP; pose proof huge_unbounded as HU; pose proof least_pos as LP.
  - (* zero + zero *)
    cbn [scaled]. destruct sx, sy; (split; [reflexivity|split; [reflexivity|exact Z0]]).
  - cbn [SFadd scaled cond_Zopp]. split; [reflexivity|split; [reflexivity|]]. apply Big. lia.
  - (* zero + finite *)
    cbn [SFadd]. split; [exact Vy|split; [reflexivity|]].
    destruct (valid_value (S754_finite false my ey) Vy eq_refl eq_refl) as [B [_ R]].
    cbn [scaled] in *. rewrite Z.add_0_l, R. symmetry. apply overflow_small. lia.
  - cbn [SFadd scaled cond_Zopp]. split; [reflexivity|split; [reflexivity|]]. apply Big. lia.
  - cbn [SFadd scaled cond_Zopp]. split; [reflexivity|split; [reflexivity|]]. apply Big. lia.
  - cbn [SFadd scaled cond_Zopp]. split; [reflexivity|split; [reflexivity|]]. apply Big. lia.
  - (* finite + zero *)
    cbn [SFadd]. split; [exact Vx|split; [reflexivity|]].
    destruct (valid_value (S754_finite false mx ex) Vx eq_refl eq_refl) as [B [_ R]].
    cbn [scaled] in *. rewrite Z.add_0_r, R. symmetry. apply overflow_small. lia.
  - cbn [SFadd scaled cond_Zopp]. split; [reflexivity|split; [reflexivity|]]. apply Big. lia.
  - (* finite + finite *)
    cbn [valid_binary] in Vx, Vy.
    destruct (bounded_facts mx ex Vx) as [Bx _].
    destruct (bounded_facts my ey Vy) as [By _].
    cbn [SFadd cond_Zopp]. cbv zeta.
    set (ez := Z.min ex ey).
    change (Zpos (fst (shl_align mx ex ez)) + Zpos (fst (shl_align my ey ez)))
      with (Zpos (fst (shl_align mx ex ez) + fst (shl_align my ey ez))).
    cbn [binary_normalize].
    destruct (binary_round_value false
                (fst (shl_align mx ex ez) + fst (shl_align my ey ez)) ez ltac:(lia))
      as [V [S R]].
    split; [exact V|split; [apply signed_nonnegative; exact S|]].
    rewrite R. cbn [cond_Zopp scaled]. f_equal. f_equal.
    rewrite Pos2Z.inj_add, Z.mul_add_distr_r, !aligned_value by lia. reflexivity.
Qed.

Lemma SFsub_value (x y : spec_float) :
  valid_binary x = true -> valid_binary y = true ->
  nonnegative x = true -> nonnegative y = true ->
  finite x = true -> finite y = true ->
  scaled y <= scaled x ->
  valid_binary (SF64sub x y) = true /\ nonnegative (SF64sub x y) = true /\
  finite (SF64sub x y) = true /\
  scaled (SF64sub x y) = rne (scaled x - scaled y).
Proof.
  intros Vx Vy Nx Ny Fx Fy L. unfold SF64sub.
  destruct x as [sx|sx| |sx mx ex] eqn:Ex, y as [sy|sy| |sy my ey] eqn:Ey;
    try discriminate Fx; try discriminate Fy;
    cbn [nonnegative] in Nx, Ny;
    try (destruct sx; [discriminate Nx|]); try (destruct sy; [discriminate Ny|]);
    try (pose proof (scaled_finite_bounds mx ex Vx) as Sx);
    try (pose proof (scaled_finite_bounds my ey Vy) as Sy);
    pose proof huge_pos as HP; pose proof huge_unbounded as HU; pose proof least_pos as LP.
  - cbn [scaled]. rewrite Z.sub_0_r, rne_zero.
    destruct sx, sy; (split; [reflexivity|split; [reflexivity|split; reflexivity]]).
  - exfalso. cbn [scaled cond_Zopp] in L. lia.
  - cbn [SFsub]. split; [exact Vx|split; [reflexivity|split; [reflexivity|]]].
    destruct (valid_value (S754_finite false mx ex) Vx eq_refl eq_refl) as [B [_ R]].
    cbn [scaled] in *. rewrite Z.sub_0_r, R. reflexivity.
  - cbn [valid_binary] in Vx, Vy.
    destruct (bounded_facts mx ex Vx) as [Bx _].
    destruct (bounded_facts my ey Vy) as [By _].
    destruct (valid_value (S754_finite false mx ex) Vx eq_refl eq_refl) as [Bdx [_ Rx]].
    cbn [scaled cond_Zopp] in L, Bdx, Rx |- *.
    cbn [SFsub cond_Zopp]. cbv zeta.
    set (ez := Z.min ex ey).
    pose proof (aligned_value mx ex ez ltac:(lia)) as Ax.
    pose proof (aligned_value my ey ez ltac:(lia)) as Ay.
    assert (P : 0 < 2 ^ (ez + 2200)) by (apply pow2_pos; lia).
    assert (D : (Zpos (fst (shl_align mx ex ez)) - Zpos (fst (shl_align my ey ez)))
                * 2 ^ (ez + 2200)
                = Zpos mx * 2 ^ (ex + 2200) - Zpos my * 2 ^ (ey + 2200))
      by (rewrite Z.mul_sub_distr_r, Ax, Ay; reflexivity).
    destruct (Zpos (fst (shl_align mx ex ez)) - Zpos (fst (shl_align my ey ez)))
      as [|p|p] eqn:Diff.
    + cbn [binary_normalize]. rewrite <- D, Z.mul_0_l, rne_zero.
      split; [reflexivity|split; [reflexivity|split; reflexivity]].
    + cbn [binary_normalize].
      destruct (binary_round_value false p ez ltac:(lia)) as [V [S R]].
      rewrite D in R. cbn [cond_Zopp] in R.
      assert (Sm : rne (Zpos mx * 2 ^ (ex + 2200) - Zpos my * 2 ^ (ey + 2200)) < huge).
      { assert (rne (Zpos mx * 2 ^ (ex + 2200) - Zpos my * 2 ^ (ey + 2200))
                <= rne (Zpos mx * 2 ^ (ex + 2200))); [|lia].
        apply rne_mono. lia. }
      rewrite overflow_small in R by exact Sm.
      split; [exact V|split; [apply signed_nonnegative; exact S|split; [|exact R]]].
      apply scaled_unbounded; [exact V|apply signed_nonnegative; exact S|lia].
    + exfalso. pose proof (Pos2Z.neg_is_neg p). nia.
Qed.

Lemma lower_exponent_smaller (m m' a b : Z) :
  0 <= m < 2 ^ 53 -> 2 ^ 52 <= m' -> 0 <= a < b -> m * 2 ^ a < m' * 2 ^ b.
Proof.
  intros M M' A.
  pose proof (pow_product_lt m 53 a a M ltac:(lia) ltac:(lia)).
  pose proof (pow_product_ge m' 52 b (a + 1) M' ltac:(lia) ltac:(lia)).
  replace (52 + (a + 1)) with (53 + a) in * by lia. lia.
Qed.

Lemma SFcompare_value (x y : spec_float) :
  valid_binary x = true -> valid_binary y = true ->
  nonnegative x = true -> nonnegative y = true ->
  SFcompare x y = Some (scaled x ?= scaled y).
Proof.
  intros Vx Vy Nx Ny.
  destruct x as [sx|sx| |sx mx ex] eqn:Ex, y as [sy|sy| |sy my ey] eqn:Ey;
    try discriminate Nx; try discriminate Ny;
    cbn [nonnegative] in Nx, Ny;
    try (destruct sx; [discriminate Nx|]); try (destruct sy; [discriminate Ny|]);
    try (pose proof (scaled_finite_bounds mx ex Vx) as Sx);
    try (pose proof (scaled_finite_bounds my ey Vy) as Sy);
    pose proof huge_pos as HP; pose proof huge_unbounded as HU; pose proof least_pos as LP;
    cbn [scaled cond_Zopp] in *; cbn [SFcompare]; apply f_equal; symmetry;
    try (apply Z.compare_eq_iff; reflexivity);
    try (apply Z.compare_lt_iff; lia);
    try (apply Z.compare_gt_iff; lia).
  cbn [valid_binary] in Vx, Vy.
  destruct (bounded_facts mx ex Vx) as [Ex' [Dx Nx']].
  destruct (bounded_facts my ey Vy) as [Ey' [Dy Ny']].
  pose proof (digits2_pos_bounds mx) as [Lx Ux].
  pose proof (digits2_pos_bounds my) as [Ly Uy].
  destruct (Z.compare_spec ex ey) as [E|E|E].
  - subst ey. change (Pos.compare_cont Eq mx my) with (Zpos mx ?= Zpos my).
    pose proof (pow2_pos (ex + 2200) ltac:(lia)) as P.
    destruct (Z.compare_spec (Zpos mx) (Zpos my)) as [C|C|C].
    + apply Z.compare_eq_iff. congruence.
    + apply Z.compare_lt_iff. nia.
    + apply Z.compare_gt_iff. nia.
  - apply Z.compare_lt_iff. rewrite (Ny' ltac:(lia)) in Ly.
    pose proof (pow2_le (Zpos (digits2_pos mx)) 53 ltac:(lia)).
    apply lower_exponent_smaller; [lia|exact Ly|lia].
  - apply Z.compare_gt_iff. rewrite (Nx' ltac:(lia)) in Lx.
    pose proof (pow2_le (Zpos (digits2_pos my)) 53 ltac:(lia)).
    apply lower_exponent_smaller; [lia|exact Lx|lia].
Qed.

(** ** Doubles that are not negative *)

Lemma nonnegative_leb (x : float) :
  (0 <=? x)%float = true <-> nonnegative (Prim2SF x) = true.
Proof.
  rewrite leb_spec. change (Prim2SF 0) with (S754_zero false).
  destruct (Prim2SF x) as [s|s| |s m e]; try destruct s; simpl; split; intros H;
    first [exact H | discriminate H | reflexivity].
Qed.

Lemma value_nonneg (x : float) : (0 <=? x)%float = true -> 0 <= value x <= unbounded.
Proof.
  intros N. apply nonnegative_leb in N. unfold value.
  pose proof (Prim2SF_valid x) as V.
  pose proof huge_pos. pose proof huge_unbounded.
  destruct (Prim2SF x) as [s|s| |s m e] eqn:E; try discriminate N; cbn [scaled].
  - lia.
  - destruct s; [discriminate N|]. cbn [cond_Zopp]. lia.
  - destruct s; [discriminate N|]. cbn [cond_Zopp].
    pose proof (scaled_finite_bounds m e V). pose proof least_pos. lia.
Qed.

Lemma finite_value (x : float) :
  (0 <=? x)%float = true -> (finite (Prim2SF x) = true <-> value x < huge).
Proof.
  intros N. apply nonnegative_leb in N. unfold value.
  pose proof (Prim2SF_valid x) as V. split.
  - intros F. apply (valid_value _ V N F).
  - apply scaled_unbounded; assumption.
Qed.

Lemma compare_value (x y : float) :
  (0 <=? x)%float = true -> (0 <=? y)%float = true ->
  (x <=? y)%float = (value x <=? value y) /\
  (x <? y)%float = (value x <? value y) /\
  (x =? y)%float = (value x =? value y).
Proof.
  intros Nx Ny. apply nonnegative_leb in Nx, Ny.
  rewrite leb_spec, ltb_spec, eqb_spec. unfold SFleb, SFltb, SFeqb, value.
  rewrite (SFcompare_value _ _ (Prim2SF_valid x) (Prim2SF_valid y) Nx Ny).
  set (a := scaled (Prim2SF x)). set (b := scaled (Prim2SF y)).
  destruct (Z.compare_spec a b) as [E|L|G].
  - rewrite E, Z.leb_refl, Z.ltb_irrefl, Z.eqb_refl. repeat split.
  - rewrite (proj2 (Z.leb_le a b)), (proj2 (Z.ltb_lt a b)), (proj2 (Z.eqb_neq a b)) by lia.
    repeat split.
  - rewrite (proj2 (Z.leb_gt a b)), (proj2 (Z.ltb_ge a b)), (proj2 (Z.eqb_neq a b)) by lia.
    repeat split.
Qed.

Lemma leb_value (x y : float) :
  (0 <=? x)%float = true -> (0 <=? y)%float = true ->
  ((x <=? y)%float = true <-> value x <= value y).
Proof.
  intros Nx Ny. destruct (compare_value x y Nx Ny) as [-> _]. apply Z.leb_le.
Qed.

Lemma ltb_value (x y : float) :
  (0 <=? x)%float = true -> (0 <=? y)%float = true ->
  ((x <? y)%float = true <-> value x < value y).
Proof.
  intros Nx Ny. destruct (compare_value x y Nx Ny) as [_ [-> _]]. apply Z.ltb_lt.
Qed.

Lemma eqb_value (x y : float) :
  (0 <=? x)%float = true -> (0 <=? y)%float = true ->
  ((x =? y)%float = true <-> value x = value y).
Proof.
  intros Nx Ny. destruct (compare_value x y Nx Ny) as [_ [_ ->]]. apply Z.eqb_eq.
Qed.

Lemma mul_value (x y : float) :
  (0 <=? x)%float = true -> (0 <=? y)%float = true ->
  (value x < huge \/ 0 < value y) -> (value y < huge \/ 0 < value x) ->
  (0 <=? x * y)%float = true /\
  value (x * y) = overflow (rne (value x * value y / one)).
Proof.
  intros Nx Ny Fx Fy.
  rewrite <- (finite_value x Nx) in Fx. rewrite <- (finite_value y Ny) in Fy.
  rewrite nonnegative_leb in *. unfold value in *. rewrite mul_spec.
  destruct (SFmul_value _ _ (Prim2SF_valid x) (Prim2SF_valid y) Nx Ny Fx Fy) as [_ [N V]].
  split; assumption.
Qed.

Lemma add_value (x y : float) :
  (0 <=? x)%float = true -> (0 <=? y)%float = true ->
  (0 <=? x + y)%float = true /\
  value (x + y) = overflow (rne (value x + value y)).
Proof.
  intros Nx Ny. rewrite nonnegative_leb in *. unfold value. rewrite add_spec.
  destruct (SFadd_value _ _ (Prim2SF_valid x) (Prim2SF_valid y) Nx Ny) as [_ [N V]].
  split; assumption.
Qed.

Lemma sub_value (x y : float) :
  (0 <=? x)%float = true -> (0 <=? y)%float = true ->
  value y <= value x -> value x < huge ->
  (0 <=? x - y)%float = true /\
  value (x - y) = rne (value x - value y) /\ value (x - y) < huge.
Proof.
  intros Nx Ny L F.
  assert (Fy : value y < huge) by lia.
  rewrite <- (finite_value x Nx) in F. rewrite <- (finite_value y Ny) in Fy.
  rewrite nonnegative_leb in *. unfold value in *. rewrite sub_spec.
  destruct (SFsub_value _ _ (Prim2SF_valid x) (Prim2SF_valid y) Nx Ny F Fy L)
    as [V [N [Fin S]]].
  split; [exact N|split; [exact S|]].
  apply (valid_value _ V N Fin).
Qed.

(** A double that is not negative is its own rounding. *)
Lemma value_representable (x : float) :
  (0 <=? x)%float = true -> value x < huge ->
  rne (value x) = value x /\ value x mod least = 0.
Proof.
  intros N F. rewrite <- (finite_value x N) in F. rewrite nonnegative_leb in N.
  destruct (valid_value _ (Prim2SF_valid x) N F) as [_ [M R]]. split; assumption.
Qed.

Lemma value_rounded (x : float) :
  (0 <=? x)%float = true -> overflow (rne (value x)) = value x.
Proof.
  intros N. destruct (Z_lt_le_dec (value x) huge) as [F|I].
  - destruct (value_representable x N F) as [-> _]. apply overflow_small. exact F.
  - rewrite overflow_large by (apply rne_large; exact I).
    pose proof (value_nonneg x N). apply nonnegative_leb in N.
    pose proof (Prim2SF_valid x) as V. unfold value in *.
    destruct (Prim2SF x) as [s|s| |s m e]; try discriminate N; cbn [scaled] in *.
    + pose proof huge_pos. lia.
    + destruct s; [discriminate N|]. reflexivity.
    + destruct s; [discriminate N|]. cbn [cond_Zopp] in *.
      pose proof (scaled_finite_bounds m e V). lia.
Qed.

(** ** Monotonicity *)

Lemma mul_mono (a a' c c' : float) :
  (0 <=? a)%float = true -> (a <=? a')%float = true ->
  (0 <=? c)%float = true -> (c <=? c')%float = true ->
  (value a' < huge \/ 0 < value c) -> (value c' < huge \/ 0 < value a) ->
  (a * c <=? a' * c')%float = true.
Proof.
  intros Na La Nc Lc Fa Fc.
  pose proof (leb_trans _ _ _ Na La) as Na'. pose proof (leb_trans _ _ _ Nc Lc) as Nc'.
  apply (leb_value a a' Na Na') in La. apply (leb_value c c' Nc Nc') in Lc.
  pose proof (value_nonneg a Na). pose proof (value_nonneg c Nc).
  destruct (mul_value a c Na Nc ltac:(lia) ltac:(lia)) as [N1 V1].
  destruct (mul_value a' c' Na' Nc' ltac:(lia) ltac:(lia)) as [N2 V2].
  apply (leb_value _ _ N1 N2). rewrite V1, V2.
  apply overflow_mono, rne_mono. pose proof one_pos. split.
  - apply Z.div_pos; nia.
  - apply Z.div_le_mono; [lia|nia].
Qed.

Lemma add_mono (a a' c c' : float) :
  (0 <=? a)%float = true -> (a <=? a')%float = true ->
  (0 <=? c)%float = true -> (c <=? c')%float = true ->
  (a + c <=? a' + c')%float = true.
Proof.
  intros Na La Nc Lc.
  pose proof (leb_trans _ _ _ Na La) as Na'. pose proof (leb_trans _ _ _ Nc Lc) as Nc'.
  apply (leb_value a a' Na Na') in La. apply (leb_value c c' Nc Nc') in Lc.
  pose proof (value_nonneg a Na). pose proof (value_nonneg c Nc).
  destruct (add_value a c Na Nc) as [N1 V1].
  destruct (add_value a' c' Na' Nc') as [N2 V2].
  apply (leb_value _ _ N1 N2). rewrite V1, V2.
  apply overflow_mono, rne_mono. lia.
Qed.

Lemma value_one : value 1 = one.
Proof. vm_compute. reflexivity. Qed.

Lemma mul_one (b : float) :
  (0 <=? b)%float = true -> (0 <=? b * 1)%float = true /\ value (b * 1) = value b.
Proof.
  intros N. pose proof one_pos. pose proof huge_unbounded.
  assert (O : one < huge) by (apply Z.pow_lt_mono_r; lia).
  destruct (mul_value b 1 N eq_refl) as [N1 V1]; rewrite ?value_one; try lia.
  split; [exact N1|]. rewrite V1, value_one, Z.div_mul by lia. apply value_rounded. exact N.
Qed.

(** ** A difference and its subtrahend add up again *)

(** Within half a step of an even multiple, rounding gives that multiple. *)
Lemma nearestEven_near_even (x g k : Z) :
  0 <= g -> Z.even k = true -> 2 * Z.abs (x - k * 2 ^ g) <= 2 ^ g -> nearestEven x g = k.
Proof.
  intros G E A. pose proof (pow2_pos g G) as P.
  destruct (nearestEven_cases g G x) as [D [R C]]. cbv zeta in *.
  set (w := 2 ^ g) in *. set (q := x / w) in *. set (r := x mod w) in *.
  assert (Q : q = k \/ q = k - 1) by nia.
  destruct Q as [Q|Q].
  - destruct C as [[B ->]|[[B ->]|[[B [Ev ->]]|[B [Ev ->]]]]]; try lia; try nia.
    congruence.
  - assert (Odd : Z.even q = false).
    { rewrite Q. replace (k - 1) with (Z.pred k) by lia. rewrite Z.even_pred.
      rewrite <- Z.negb_even, E. reflexivity. }
    destruct C as [[B ->]|[[B ->]|[[B [Ev ->]]|[B [Ev ->]]]]]; try lia; try nia.
    congruence.
Qed.

Lemma ulpExp_of_digits (x d : Z) :
  2 ^ (d - 1) <= x < 2 ^ d -> 0 < d -> ulpExp x = Z.max (d - 53) 1126.
Proof. intros B D. unfold ulpExp. rewrite (digits_unique x d B D). reflexivity. Qed.

Lemma multiple_below (n w c : Z) : 0 < w -> n mod w = 0 -> n < c * w -> n <= c * w - w.
Proof.
  intros W M L. pose proof (Z.div_mod n w ltac:(lia)) as D. rewrite M in D.
  assert (n / w < c) by nia. nia.
Qed.

Lemma multiple_above (n w c : Z) : 0 < w -> n mod w = 0 -> c * w < n -> c * w + w <= n.
Proof.
  intros W M L. pose proof (Z.div_mod n w ltac:(lia)) as D. rewrite M in D.
  assert (c < n / w) by nia. nia.
Qed.

Lemma rne_sum_back (N S : Z) :
  0 <= S <= N -> S mod least = 0 ->
  N mod 2 ^ ulpExp N = 0 -> Z.even (N / 2 ^ ulpExp N) = true ->
  rne (rne (N - S) + S) = N.
Proof.
  intros [S0 SN] SM NM NE.
  destruct (Z.eq_dec N 0) as [->|NZ].
  { replace S with 0 by lia. reflexivity. }
  assert (NP : 0 < N) by lia.
  destruct (digits_bounds N NP) as [[Ld Ud] Dp].
  set (d := Zdigits2 N) in *.
  set (u := ulpExp N) in *.
  assert (U : u = Z.max (d - 53) 1126) by reflexivity.
  assert (U0 : 0 <= u) by lia.
  pose proof (pow2_pos u U0) as W.
  set (w := 2 ^ u) in *.
  set (k := N / w) in *.
  assert (Nk : N = k * w).
  { pose proof (Z.div_mod N w ltac:(lia)) as D. rewrite NM in D. fold k in D. lia. }
  assert (k1 : 1 <= k) by nia.
  assert (Du : u + 1 <= d).
  { destruct (Z_le_gt_dec (u + 1) d) as [|G]; [assumption|exfalso].
    pose proof (pow2_le d u ltac:(lia)). fold w in H. nia. }
  assert (least_w : w mod least = 0).
  { unfold w, least. rewrite (pow2_split 1126 u) by lia. apply Z.mod_mul.
    pose proof (pow2_pos 1126). lia. }
  set (X := N - S).
  assert (XM : X mod least = 0).
  { unfold X. rewrite Nk. pose proof least_pos.
    rewrite Zminus_mod, SM, Z.sub_0_r, Z.mod_mod by lia.
    rewrite <- Zmult_mod_idemp_r, least_w, Z.mul_0_r. reflexivity. }
  pose proof (rne_error X) as Err.
  pose proof (ulpExp_mono X N ltac:(unfold X; lia)) as EX. fold u in EX.
  pose proof (ulpExp_ge X) as GX.
  pose proof (pow2_le (ulpExp X) u ltac:(lia)) as PX. fold w in PX.
  set (F := rne X) in *.
  replace (F + S) with (N + (F - X)) by (unfold X; lia).
  set (delta := F - X) in *.
  (* the two powers of two around [N] are multiples of the spacing *)
  assert (Top : 2 ^ d = 2 ^ (d - u) * w) by (apply pow2_split; lia).
  assert (Bot : 2 ^ (d - 1) = 2 ^ (d - 1 - u) * w) by (apply pow2_split; lia).
  assert (Same : 2 ^ (d - 1) <= N + delta < 2 ^ d -> rne (N + delta) = N).
  { intros B. unfold rne. rewrite (ulpExp_of_digits _ d B Dp), <- U. fold w.
    rewrite (nearestEven_near_even (N + delta) u k U0 NE); [symmetry; exact Nk|].
    fold w. replace (N + delta - k * w) with delta by lia. lia. }
  assert (Up : N + w <= 2 ^ d).
  { rewrite Top in Ud |- *. pose proof (multiple_below N w (2 ^ (d - u)) W NM Ud). lia. }
  destruct (Z_le_gt_dec 0 delta) as [Pos|Neg].
  { apply Same. lia. }
  destruct (Z.eq_dec N (2 ^ (d - 1))) as [Pow|NotPow].
  2:{ apply Same. split; [|lia].
      assert (2 ^ (d - 1) < N) by lia. rewrite Bot in H |- *.
      pose proof (multiple_above N w (2 ^ (d - 1 - u)) W NM H). lia. }
  (* [N] is a power of two and the difference was rounded down *)
  assert (XN : X < N).
  { destruct (Z.eq_dec X N) as [E|]; [exfalso|unfold X in *; lia].
    unfold delta, F in Neg. rewrite E in Neg. rewrite (rne_exact N NM) in Neg. lia. }
  destruct (Z.eq_dec (ulpExp X) 1126) as [Sub|Nrm].
  { exfalso. unfold delta, F in Neg. rewrite rne_exact in Neg; [lia|].
    rewrite Sub. exact XM. }
  assert (X0 : 0 < X).
  { destruct (Z.eq_dec X 0) as [E|]; [exfalso|unfold X in *; lia].
    apply Nrm. rewrite E. reflexivity. }
  destruct (digits_bounds X X0) as [[LX UX] DX].
  assert (DXd : Zdigits2 X <= d - 1).
  { destruct (Z_le_gt_dec (Zdigits2 X) (d - 1)) as [|G]; [assumption|exfalso].
    pose proof (pow2_le (d - 1) (Zdigits2 X - 1) ltac:(lia)). lia. }
  assert (EX' : ulpExp X <= u - 1) by (unfold ulpExp in *; lia).
  assert (U1 : 1127 <= u) by lia.
  assert (Ud53 : u = d - 53) by lia.
  pose proof (pow2_le (ulpExp X) (u - 1) ltac:(lia)) as PX'.
  assert (Wh : w = 2 * 2 ^ (u - 1)).
  { unfold w. replace u with (Z.succ (u - 1)) at 1 by lia. apply Z.pow_succ_r. lia. }
  pose proof (pow2_pos (u - 1) ltac:(lia)) as Wp.
  assert (Q : 2 ^ (d - 1) = 2 * 2 ^ (d - 2)).
  { replace (d - 1) with (Z.succ (d - 2)) by lia. apply Z.pow_succ_r. lia. }
  assert (Low : 2 ^ (u - 1) <= 2 ^ (d - 2)) by (apply pow2_le; lia).
  assert (B : 2 ^ (d - 1 - 1) <= N + delta < 2 ^ (d - 1)).
  { replace (d - 1 - 1) with (d - 2) by lia. lia. }
  unfold rne. rewrite (ulpExp_of_digits _ (d - 1) B ltac:(lia)).
  replace (Z.max (d - 1 - 53) 1126) with (u - 1) by lia.
  rewrite (nearestEven_near_even (N + delta) (u - 1) (2 * k) ltac:(lia)).
  - rewrite Nk, Wh. ring.
  - rewrite Z.even_mul. reflexivity.
  - replace (N + delta - 2 * k * 2 ^ (u - 1)) with delta by (rewrite Nk, Wh; ring). lia.
Qed.

(** Strictly within half a step of a multiple, rounding gives that
    multiple. *)
Lemma nearestEven_near (x g k : Z) :
  0 <= g -> 2 * Z.abs (x - k * 2 ^ g) < 2 ^ g -> nearestEven x g = k.
Proof.
  intros G A. pose proof (pow2_pos g G) as P.
  destruct (nearestEven_cases g G x) as [D [R C]]. cbv zeta in *.
  set (w := 2 ^ g) in *. set (q := x / w) in *. set (r := x mod w) in *.
  assert (Q : q = k \/ q = k - 1) by nia.
  destruct Q as [Q|Q];
    destruct C as [[B ->]|[[B ->]|[[B [Ev ->]]|[B [Ev ->]]]]]; try lia; nia.
Qed.

(** The same for a minuend with an odd mantissa, when the difference
    lies below the power of two under the minuend: it is then rounded on
    a finer scale. *)
Lemma rne_sum_back_small (N S : Z) :
  0 <= S <= N -> S mod least = 0 ->
  N mod 2 ^ ulpExp N = 0 ->
  2 ^ (Zdigits2 N - 1) < N -> rne (N - S) < 2 ^ (Zdigits2 N - 1) ->
  rne (rne (N - S) + S) = N.
Proof.
  intros [S0 SN] SM NM Above Small.
  assert (NP : 0 < N) by (pose proof (Z.pow_nonneg 2 (Zdigits2 N - 1)); lia).
  destruct (digits_bounds N NP) as [[Ld Ud] Dp].
  set (d := Zdigits2 N) in *.
  set (u := ulpExp N) in *.
  assert (U : u = Z.max (d - 53) 1126) by reflexivity.
  assert (U0 : 0 <= u) by lia.
  pose proof (pow2_pos u U0) as W.
  set (w := 2 ^ u) in *.
  set (k := N / w) in *.
  assert (Nk : N = k * w).
  { pose proof (Z.div_mod N w ltac:(lia)) as D. rewrite NM in D. fold k in D. lia. }
  assert (k1 : 1 <= k) by nia.
  assert (Du : u + 1 <= d).
  { destruct (Z_le_gt_dec (u + 1) d) as [|G]; [assumption|exfalso].
    pose proof (pow2_le d u ltac:(lia)). fold w in H. nia. }
  assert (least_w : w mod least = 0).
  { unfold w, least. rewrite (pow2_split 1126 u) by lia. apply Z.mod_mul.
    pose proof (pow2_pos 1126). lia. }
  set (X := N - S) in *.
  assert (XM : X mod least = 0).
  { unfold X. rewrite Nk. pose proof least_pos.
    rewrite Zminus_mod, SM, Z.sub_0_r, Z.mod_mod by lia.
    rewrite <- Zmult_mod_idemp_r, least_w, Z.mul_0_r. reflexivity. }
  assert (X0 : 0 <= X) by (unfold X; lia).
  destruct (Z.eq_dec (ulpExp X) 1126) as [Sub|Nrm].
  { rewrite (rne_exact X) by (rewrite Sub; exact XM).
    replace (X + S) with N by (unfold X; lia). apply rne_exact. exact NM. }
  assert (XP : 0 < X).
  { destruct (Z.eq_dec X 0) as [E|]; [exfalso|lia]. apply Nrm. rewrite E. reflexivity. }
  destruct (digits_bounds X XP) as [[LX UX] DX].
  assert (DXd : Zdigits2 X <= d - 1).
  { destruct (Z_le_gt_dec (Zdigits2 X) (d - 1)) as [|G]; [assumption|exfalso].
    assert (L : 2 ^ (d - 1) <= X).
    { pose proof (pow2_le (d - 1) (Zdigits2 X - 1) ltac:(lia)). lia. }
    pose proof (ulpExp_ge X) as GX.
    assert (2 ^ (d - 1) <= rne X); [|lia].
    apply rne_lower; [exact L| |].
    - pose proof (digits_mono X N ltac:(unfold X; lia)). fold d in H. lia.
    - unfold ulpExp in Nrm, GX. lia. }
  pose proof (ulpExp_ge X) as GX.
  assert (EX : ulpExp X <= u - 1) by (unfold ulpExp in *; lia).
  pose proof (rne_error X) as Err.
  pose proof (pow2_le (ulpExp X) (u - 1) ltac:(lia)) as PX.
  assert (Wh : w = 2 * 2 ^ (u - 1)).
  { unfold w. replace u with (Z.succ (u - 1)) at 1 by lia. apply Z.pow_succ_r. lia. }
  set (F := rne X) in *.
  replace (F + S) with (N + (F - X)) by (unfold X; lia).
  set (delta := F - X) in *.
  assert (Top : 2 ^ d = 2 ^ (d - u) * w) by (apply pow2_split; lia).
  assert (Bot : 2 ^ (d - 1) = 2 ^ (d - 1 - u) * w) by (apply pow2_split; lia).
  assert (Up : N + w <= 2 ^ d).
  { rewrite Top in Ud |- *. pose proof (multiple_below N w (2 ^ (d - u)) W NM Ud). lia. }
  assert (Down : 2 ^ (d - 1) + w <= N).
  { rewrite Bot in Above |- *. pose proof (multiple_above N w (2 ^ (d - 1 - u)) W NM Above). lia. }
  assert (B : 2 ^ (d - 1) <= N + delta < 2 ^ d) by lia.
  unfold rne. rewrite (ulpExp_of_digits _ d B Dp), <- U. fold w.
  rewrite (nearestEven_near (N + delta) u k U0); [symmetry; exact Nk|].
  fold w. replace (N + delta - k * w) with delta by lia. lia.
Qed.

(** ** The error of a discounted price *)

Lemma rne_relative (x : Z) :
  0 <= x -> 2 ^ 53 * Z.abs (rne x - x) <= x + 2 ^ 52 * least.
Proof.
  intros X. pose proof (rne_error x) as E. pose proof least_pos.
  destruct (Z_le_gt_dec (2 ^ 1178) x) as [L|G].
  - pose proof (ulp_relative x L). lia.
  - assert (U : ulpExp x = 1126).
    { unfold ulpExp. destruct (Z.eq_dec x 0) as [->|NZ]; [reflexivity|].
      destruct (digits_bounds x ltac:(lia)) as [[Lx Ux] D].
      destruct (Z_le_gt_dec (Zdigits2 x) 1178) as [|G']; [lia|exfalso].
      pose proof (pow2_le 1178 (Zdigits2 x - 1) ltac:(lia)). lia. }
    rewrite U in E. fold least in E. lia.
Qed.

Lemma rne_relative_exact (x : Z) :
  0 <= x -> x mod least = 0 -> 2 ^ 53 * Z.abs (rne x - x) <= x.
Proof.
  intros X M. pose proof (rne_error x) as E.
  destruct (Z_le_gt_dec (2 ^ 1178) x) as [L|G].
  - pose proof (ulp_relative x L). lia.
  - assert (U : ulpExp x = 1126).
    { unfold ulpExp. destruct (Z.eq_dec x 0) as [->|NZ]; [reflexivity|].
      destruct (digits_bounds x ltac:(lia)) as [[Lx Ux] D].
      destruct (Z_le_gt_dec (Zdigits2 x) 1178) as [|G']; [lia|exfalso].
      pose proof (pow2_le 1178 (Zdigits2 x - 1) ltac:(lia)). lia. }
    rewrite rne_exact by (rewrite U; exact M). lia.
Qed.

(** With [P] the scaled discount factor for [c] percent, [S] the rounded
    savings and [F] the rounded difference. *)
Lemma discount_error (N P c W S F : Z) :
  0 <= N -> 0 <= P -> 2 * P <= one -> 0 <= c ->
  2 ^ 53 * Z.abs (100 * P - c * one) <= 100 * P ->
  one * W = N * P ->
  2 ^ 53 * Z.abs (S - W) <= W + 2 ^ 52 * least ->
  2 ^ 53 * Z.abs (F - (N - S)) <= N - S ->
  0 <= S <= N ->
  2 ^ 52 * Z.abs (100 * F - N * (100 - c)) <= 100 * N + 50 * (2 ^ 52 * least).
Proof.
  intros N0 P0 PH C0 PE WE SE FE SB.
  pose proof one_pos as O. pose proof least_pos as L.
  assert (W0 : 0 <= W) by nia.
  assert (WH : 2 * W <= N) by nia.
  assert (T3 : 2 ^ 53 * Z.abs (100 * W - c * N) <= 100 * W).
  { apply (Z.mul_le_mono_pos_l _ _ one O).
    replace (one * (2 ^ 53 * Z.abs (100 * W - c * N)))
      with (2 ^ 53 * Z.abs (one * (100 * W - c * N)))
      by (rewrite Z.abs_mul, (Z.abs_eq one) by lia; ring).
    replace (one * (100 * W - c * N)) with (N * (100 * P - c * one)) by (rewrite <- (Z.mul_comm one c); nia).
    rewrite Z.abs_mul, (Z.abs_eq N) by lia.
    replace (one * (100 * W)) with (N * (100 * P)) by nia.
    rewrite Z.mul_assoc, (Z.mul_comm (2 ^ 53) N), <- Z.mul_assoc.
    apply Z.mul_le_mono_nonneg_l; [exact N0|exact PE]. }
  replace (100 * F - N * (100 - c))
    with (100 * (F - (N - S)) - 100 * (S - W) - (100 * W - c * N)) by ring.
  set (a := F - (N - S)) in *. set (b := S - W) in *. set (e := 100 * W - c * N) in *.
  lia.
Qed.

(** ** Values as rational numbers *)

Lemma one_as_power : (inject_Z one == 2 ^ 2200)%Q.
Proof. unfold one. apply (Zpower_Qpower 2 2200). lia. Qed.

Lemma power_positive (e : Z) : (0 < 2 ^ e)%Q.
Proof. apply Qpower_0_lt. reflexivity. Qed.

Lemma valueOf_value (x : float) :
  finite (Prim2SF x) = true -> (valueOf x == inject_Z (value x) / inject_Z one)%Q.
Proof.
  intros F. unfold valueOf, value. pose proof (Prim2SF_valid x) as V.
  destruct (Prim2SF x) as [s|s| |s m e]; try discriminate F; cbn [scaled].
  - unfold Qdiv. rewrite Qmult_0_l. reflexivity.
  - cbn [valid_binary] in V. destruct (bounded_facts m e V) as [B _].
    replace (cond_Zopp s (Zpos m * 2 ^ (e + 2200)))
      with (cond_Zopp s (Zpos m) * 2 ^ (e + 2200)) by (destruct s; cbn [cond_Zopp]; lia).
    rewrite inject_Z_mult, one_as_power.
    rewrite (Zpower_Qpower 2 (e + 2200)) by lia.
    change (inject_Z 2) with 2%Q.
    rewrite (Qpower_plus 2 e 2200) by discriminate.
    pose proof (power_positive 2200) as T.
    set (t := (2 ^ 2200)%Q) in *. clearbody t.
    field. intros Z0. rewrite Z0 in T. discriminate.
Qed.

Lemma valueOf_le (x y : float) :
  (0 <=? x)%float = true -> (x <=? y)%float = true -> value y < huge ->
  (valueOf x <= valueOf y)%Q.
Proof.
  intros Nx L Fy. pose proof (leb_trans _ _ _ Nx L) as Ny.
  apply (leb_value x y Nx Ny) in L.
  assert (Fx : value x < huge) by lia.
  rewrite (valueOf_value x), (valueOf_value y) by (apply finite_value; assumption).
  pose proof one_pos as O.
  apply Qmult_le_compat_r; [rewrite <- Zle_Qle; exact L|].
  apply Qlt_le_weak, Qinv_lt_0_compat. change 0%Q with (inject_Z 0). rewrite <- Zlt_Qlt. exact O.
Qed.

End Doubles.

(** ** Tiers *)

Lemma tier_threshold_passes (t : TokenHolderTier) (a b : float) :
  (TIER_THRESHOLDS t <=? a)%float = true -> (a <=? b)%float = true ->
  (TIER_THRESHOLDS t <=? b)%float = true.
Proof. apply leb_trans. Qed.

(** C6: the tier is non-decreasing in the balance, and takes the stated
    values at 0, 1000, 9999, 10000, 50000 and 100000. *)
Theorem tier_monotone_with_fixed_thresholds :
  (forall a b : float,
      (a <=? b)%float = true ->
      (rank (tierOfBalance a) <= rank (tierOfBalance b))%nat) /\
  tierOfBalance 0 = NONE /\
  tierOfBalance 1000 = BRONZE /\
  tierOfBalance 9999 = BRONZE /\
  tierOfBalance 10000 = SILVER /\
  tierOfBalance 50000 = GOLD /\
  tierOfBalance 100000 = DIAMOND.
Proof.
  split; [| repeat split; reflexivity].
  intros a b Hab. unfold tierOfBalance.
  destruct (TIER_THRESHOLDS DIAMOND <=? a)%float eqn:D;
    [rewrite (@tier_threshold_passes DIAMOND _ _ D Hab); reflexivity|].
  destruct (TIER_THRESHOLDS GOLD <=? a)%float eqn:G;
    [rewrite (@tier_threshold_passes GOLD _ _ G Hab);
     destruct (TIER_THRESHOLDS DIAMOND <=? b)%float; simpl; lia|].
  destruct (TIER_THRESHOLDS SILVER <=? a)%float eqn:S;
    [rewrite (@tier_threshold_passes SILVER _ _ S Hab);
     destruct (TIER_THRESHOLDS DIAMOND <=? b)%float,
              (TIER_THRESHOLDS GOLD <=? b)%float; simpl; lia|].
  destruct (TIER_THRESHOLDS BRONZE <=? a)%float eqn:B;
    [rewrite (@tier_threshold_passes BRONZE _ _ B Hab);
     destruct (TIER_THRESHOLDS DIAMOND <=? b)%float,
              (TIER_THRESHOLDS GOLD <=? b)%float,
              (TIER_THRESHOLDS SILVER <=? b)%float; simpl; lia|].
  simpl. lia.
Qed.

Lemma tier_monotone_witness :
  (1000 <=? 15000)%float = true /\
  (rank (tierOfBalance 1000) <= rank (tierOfBalance 15000))%nat.
Proof.
  split; [reflexivity |].
  apply (proj1 tier_monotone_with_fixed_thresholds). reflexivity.
Defined.

(** The holder lookup never throws: whichever step fails, the answer is the
    empty holding. *)
Lemma getB402HolderTier_returns env lib walletAddress connection :
  exists info, getB402HolderTier env lib walletAddress connection = Return info.
Proof.
  unfold getB402HolderTier, tryCatch, bind.
  repeat match goal with
         | |- context [match ?c with _ => _ end] => destruct c
         end; eauto.
Qed.

(** C10: [getB402HolderTier] always returns, and returns the NONE holding
    (balance 0, raw balance 0, the NONE benefits) whenever obtaining the
    connection, parsing the address, deriving the token account or reading
    it fails. *)
Theorem getB402HolderTier_total_and_fail_safe :
  forall env lib walletAddress connection,
    let outcome := getB402HolderTier env lib walletAddress connection in
    let none := {| tier := NONE; balance := 0; rawBalance := 0; benefits := TIER_BENEFITS NONE |} in
    let conn := match connection with
                | Some c => Return c
                | None => Solana.getConnection env lib
                end in
    (exists info, outcome = Return info) /\
    (forall e, conn = Throw e -> outcome = Return none) /\
    (forall e, newPublicKey lib walletAddress = Throw e -> outcome = Return none) /\
    (forall wallet e,
        newPublicKey lib walletAddress = Return wallet ->
        getAssociatedTokenAddress lib (B402_MINT_ADDRESS env) wallet = Throw e ->
        outcome = Return none) /\
    (forall c wallet tokenAccount e,
        conn = Return c ->
        newPublicKey lib walletAddress = Return wallet ->
        getAssociatedTokenAddress lib (B402_MINT_ADDRESS env) wallet = Return tokenAccount ->
        getAccount c tokenAccount = Throw e ->
        outcome = Return none).
Proof.
  intros env lib walletAddress connection outcome none conn.
  split; [apply getB402HolderTier_returns |].
  subst outcome none conn. unfold getB402HolderTier, noHolding.
  repeat split.
  - intros e H. rewrite H. reflexivity.
  - intros e H. rewrite H.
    destruct (match connection with Some c => Return c | None => _ end); reflexivity.
  - intros wallet e Hw Ha. rewrite Hw. simpl. rewrite Ha.
    destruct (match connection with Some c => Return c | None => _ end); reflexivity.
  - intros c wallet tokenAccount e Hc Hw Ha Hg.
    rewrite Hc. simpl. rewrite Hw. simpl. rewrite Ha. simpl. rewrite Hg. simpl.
    destruct (accountMissing e); reflexivity.
Qed.

Lemma getB402HolderTier_fail_safe_witness :
  getAccount (holding (development None) 0) "stranger/11111111111111111111111111111111"
    = Throw noAccount /\
  getB402HolderTier (development None) sampleLib "stranger"
    (Some (holding (development None) 0))
  = Return {| tier := NONE; balance := 0; rawBalance := 0; benefits := TIER_BENEFITS NONE |}.
Proof.
  split; [reflexivity |].
  refine (proj2 (proj2 (proj2 (proj2
    (getB402HolderTier_total_and_fail_safe (development None) sampleLib "stranger"
       (Some (holding (development None) 0))))))
    (holding (development None) 0) "stranger"
    "stranger/11111111111111111111111111111111" noAccount _ _ _ _); reflexivity.
Defined.

(** ** The verification bypass *)

(** C4: in production the MOCK_PAYMENTS flag has no effect: both
    [isMockPaymentsEnabled] helpers answer false, [verifyPayment] does not
    take the mock branch, and its outcome is the same whatever value the
    flag is set to, and the same in any two production environments. *)
Theorem production_disables_mock_payments :
  forall (env : Env) lib clock fuel params,
    env "NODE_ENV" = Some "production" ->
    Config.isMockPaymentsEnabled env = false /\
    Solana.isMockPaymentsEnabled env = false /\
    mockBranch env = false /\
    (forall flag : option string,
        verifyPayment (setenv env "MOCK_PAYMENTS" flag) lib clock fuel params =
        verifyPayment env lib clock fuel params) /\
    (forall env' : Env,
        env' "NODE_ENV" = Some "production" ->
        verifyPayment env' lib clock fuel params = verifyPayment env lib clock fuel params).
Proof.
  intros env lib clock fuel params P.
  assert (M : forall e : Env, e "NODE_ENV" = Some "production" -> mockBranch e = false).
  { intros e Pe. unfold mockBranch, envIs. rewrite Pe. simpl.
    destruct (e "MOCK_PAYMENTS") as [s|]; [destruct (String.eqb s "true")|]; reflexivity. }
  assert (Same : forall env' : Env,
             env' "NODE_ENV" = Some "production" ->
             verifyPayment env' lib clock fuel params = verifyPayment env lib clock fuel params).
  { intros env' P'. unfold verifyPayment. rewrite (M env P), (M env' P'). reflexivity. }
  repeat split.
  - unfold Config.isMockPaymentsEnabled, isProduction, envIs. rewrite P. reflexivity.
  - apply (M env P).
  - apply (M env P).
  - intros flag. apply Same. unfold setenv. simpl. exact P.
  - exact Same.
Qed.

Lemma production_disables_mock_payments_witness :
  production None "NODE_ENV" = Some "production" /\
  Config.isMockPaymentsEnabled (production None) = false /\
  verifyPayment (setenv (production None) "MOCK_PAYMENTS" (Some "true")) sampleLib everySecond 20
    (expectation (node [] found failsOnSecondPoll None)) =
  verifyPayment (production None) sampleLib everySecond 20
    (expectation (node [] found failsOnSecondPoll None)).
Proof.
  split; [reflexivity |].
  pose proof (production_disables_mock_payments (production None)
                sampleLib everySecond 20%nat
                (expectation (node [] found failsOnSecondPoll None))
                eq_refl) as [H1 [_ [_ [H4 _]]]].
  split; [exact H1 | exact (H4 (Some "true"))].
Defined.

(** ** Execution errors end a verification *)






(** ** Transfer validation *)

(** C2: a transaction that does not list the reference among its account
    keys never validates: the validator throws the reference mismatch (or,
    when the transaction carries no metadata at all, the metadata error)
    whatever its balances, the recipient and the amount are. *)
Theorem missing_reference_never_validates :
  forall lib tx expectedRecipient expectedAmount expectedToken reference,
    ~ In reference (referencedAccounts tx) ->
    validateTransferManually lib tx expectedRecipient expectedAmount expectedToken reference =
    Throw (match meta tx, transaction tx with
           | Some _, Some _ => ReferenceNotFound
           | _, _ => MetadataUnavailable
           end).
Proof.
  intros lib tx rcp amt tok ref Absent.
  unfold validateTransferManually, referencedAccounts in *.
  destruct (meta tx) as [m|]; [| reflexivity].
  destruct (transaction tx) as [body|]; [| reflexivity].
  destruct (existsb (fun key => String.eqb (keyText key) ref)
              (orEmpty (accountKeys (message body)))) eqn:Found; [| reflexivity].
  exfalso. apply Absent.
  apply existsb_exists in Found. destruct Found as [key [K E]].
  apply String.eqb_eq in E. subst ref. apply in_map. exact K.
Qed.

Lemma missing_reference_witness :
  validateSplTokenTransfer sampleLib (payment keysWithoutReference 50000 None) "M" 50000 USDC
    = Return tt /\
  validateTransferManually sampleLib (payment keysWithoutReference 50000 None)
    "M" 50000 (Some USDC) "R" = Throw ReferenceNotFound.
Proof.
  split; [reflexivity |].
  apply (@missing_reference_never_validates sampleLib
           (payment keysWithoutReference 50000 None) "M" 50000%Z (Some USDC) "R").
  simpl. intros [H|[H|[H|[H|[H|[H|[]]]]]]]; discriminate H.
Defined.

Lemma absDifference_abs (a b : Z) : absDifference a b = Z.abs (a - b).
Proof. unfold absDifference. destruct (Z.gtb_spec a b); lia. Qed.

Lemma accountOf_key tx entry key :
  accountOf tx entry = Some key ->
  exists keys k,
    accountKeysOf tx = Return keys /\
    nth_error keys (accountIndex entry) = Some k /\
    keyText k = key.
Proof.
  unfold accountOf, referencedAccounts, accountKeysOf.
  destruct (transaction tx) as [body|].
  - intros H. rewrite nth_error_map in H.
    destruct (nth_error (orEmpty (accountKeys (message body))) (accountIndex entry))
      as [k|] eqn:N; [| discriminate].
    inversion H. eauto.
  - destruct (accountIndex entry); discriminate.
Qed.

(** The search goes past every entry that is passed over. *)
Lemma findReceived_passes_over tx m ata token skipped rest :
  (forall b, In b skipped -> passedOver tx m ata b) ->
  findReceived tx (orEmpty (preTokenBalances m)) ata token (skipped ++ rest) =
  findReceived tx (orEmpty (preTokenBalances m)) ata token rest.
Proof.
  induction skipped as [|b skipped IH]; intros P; [reflexivity |].
  simpl. destruct (P b (or_introl eq_refl)) as [key [A C]].
  destruct (accountOf_key _ _ _ A) as [keys [k [K [N T]]]].
  rewrite K. simpl. rewrite N, T.
  fold (increaseOf m b).
  assert (andb (String.eqb key ata) (increaseOf m b >? 0)%Z = false) as ->.
  { destruct C as [C|C].
    - apply String.eqb_neq in C. rewrite C. reflexivity.
    - apply andb_false_iff. right. destruct (Z.gtb_spec (increaseOf m b) 0); [lia | reflexivity]. }
  apply IH. intros b' I. apply P. right. exact I.
Qed.

(** C3, as the code has it: once the recipient's token account is found to
    have grown, the increase must be within one unit of the expected amount,
    and a larger difference is reported with the expected and the actual
    amount; an account that did not grow is reported as no transfer at all. *)
Theorem spl_amount_within_one_unit :
  forall lib tx m expectedRecipient expectedAmount expectedToken ata,
    getAssociatedTokenAddress lib expectedToken expectedRecipient = Return ata ->
    meta tx = Some m ->
    (forall skipped entry rest,
        orEmpty (postTokenBalances m) = skipped ++ entry :: rest ->
        (forall b, In b skipped -> passedOver tx m ata b) ->
        accountOf tx entry = Some ata ->
        (0 < increaseOf m entry)%Z ->
        mint entry = expectedToken ->
        validateSplTokenTransfer lib tx expectedRecipient expectedAmount expectedToken =
        if (Z.abs (increaseOf m entry - expectedAmount) <=? 1)%Z
        then Return tt
        else Throw (WrongAmount expectedAmount (increaseOf m entry)
                      (Z.abs (increaseOf m entry - expectedAmount)))) /\
    ((forall b, In b (orEmpty (postTokenBalances m)) -> passedOver tx m ata b) ->
     validateSplTokenTransfer lib tx expectedRecipient expectedAmount expectedToken =
     Throw (NoSplTransferFound expectedRecipient ata)).
Proof.
  intros lib tx m rcp amt tok ata A M. unfold validateSplTokenTransfer.
  rewrite A, M. simpl. split.
  - intros skipped entry rest Split P Acc Pos Mint.
    rewrite Split, (findReceived_passes_over _ _ _ _ _ (entry :: rest) P).
    simpl. destruct (accountOf_key _ _ _ Acc) as [keys [k [K [N T]]]].
    rewrite K. simpl. rewrite N, T. fold (increaseOf m entry).
    rewrite String.eqb_refl. simpl.
    destruct (Z.gtb_spec (increaseOf m entry) 0) as [_|]; [| lia].
    rewrite Mint, String.eqb_refl. simpl.
    rewrite absDifference_abs.
    destruct (Z.gtb_spec (Z.abs (increaseOf m entry - amt)) 1),
             (Z.leb_spec (Z.abs (increaseOf m entry - amt)) 1); try lia; reflexivity.
  - intros P.
    pose proof (findReceived_passes_over tx m ata tok (orEmpty (postTokenBalances m)) [] P) as F.
    rewrite app_nil_r in F. rewrite F. reflexivity.
Qed.

(** Scenario C: 40000 units arrive where 50000 are expected. *)
Lemma spl_amount_scenario_C :
  getAssociatedTokenAddress sampleLib USDC "M" = Return (ataOf USDC "M") /\
  validateSplTokenTransfer sampleLib (payment keysWithReference 40000 None) "M" 50000 USDC
  = Throw (WrongAmount 50000 40000 10000).
Proof.
  split; [reflexivity |].
  set (tx := payment keysWithReference 40000 None).
  set (m := {| metaErr := None;
               preBalances := Some [10000000; 0; 0; 0; 0; 2039280]%Z;
               postBalances := Some [9995000; 0; 0; 0; 0; 2039280]%Z;
               preTokenBalances :=
                 Some [ {| accountIndex := 4; mint := USDC; uiTokenAmount := 90000 |};
                        {| accountIndex := 5; mint := USDC; uiTokenAmount := 70000 |} ];
               postTokenBalances :=
                 Some [ {| accountIndex := 4; mint := USDC; uiTokenAmount := 50000 |};
                        {| accountIndex := 5; mint := USDC; uiTokenAmount := 110000 |} ] |}).
  refine (proj1 (@spl_amount_within_one_unit sampleLib tx m "M" 50000%Z USDC (ataOf USDC "M")
                   eq_refl eq_refl)
            [ {| accountIndex := 4; mint := USDC; uiTokenAmount := 50000 |} ]
            {| accountIndex := 5; mint := USDC; uiTokenAmount := 110000 |}
            [] eq_refl _ eq_refl eq_refl eq_refl).
  intros b [B|[]]. subst b.
  exists (ataOf USDC "payer"). split; [reflexivity |].
  left. discriminate.
Defined.

(** The recipient's token account is part of the transaction and did not
    grow, so the balance is 50000 short; what is thrown is the missing
    transfer, which carries no amounts. *)
Lemma spl_shortfall_without_amounts :
  accountOf (payment keysWithReference 0 None)
    {| accountIndex := 5; mint := USDC; uiTokenAmount := 70000 |} = Some (ataOf USDC "M") /\
  (70000 - 70000 = 0)%Z /\
  (1 < Z.abs (0 - 50000))%Z /\
  validateSplTokenTransfer sampleLib (payment keysWithReference 0 None) "M" 50000 USDC
  = Throw (NoSplTransferFound "M" (ataOf USDC "M")).
Proof. repeat split. Qed.

(** ** Transaction templates *)

Ltac step_outcome :=
  match goal with
  | H : context [match ?c with Return _ => _ | Throw _ => _ end] |- _ =>
      let E := fresh "E" in destruct c eqn:E; simpl in H; try discriminate H
  | H : context [match ?c with Some _ => _ | None => _ end] |- _ =>
      let E := fresh "E" in destruct c eqn:E; simpl in H; try discriminate H
  | H : context [if ?c then _ else _] |- _ =>
      let E := fresh "E" in destruct c eqn:E; simpl in H; try discriminate H
  end.

(** C5, as the code has it: a payment template has exactly the three
    instructions compute-unit limit, compute-unit price, token transfer, in
    this order, and its fee payer is the fixed PayAI account, hence distinct
    from every sending wallet other than that account itself. *)
Theorem payment_template_structure :
  forall lib params tx,
    buildUsdcPaymentTransaction lib params = Return tx ->
    map kindOf (messageInstructions tx) = [ComputeLimit; ComputePrice; TokenTransfer] /\
    (exists payerATA merchantATA amountAtomic usdcMint,
        messageInstructions tx =
        [ SetComputeUnitLimit 40000;
          SetComputeUnitPrice 1;
          TransferChecked payerATA usdcMint merchantATA (payer params) amountAtomic 6 [] ]) /\
    payerKey tx = PAYAI_FEE_PAYER /\
    (payer params <> PAYAI_FEE_PAYER -> payerKey tx <> payer params).
Proof.
  intros lib params tx H.
  unfold buildUsdcPaymentTransaction, bind, tryCatch in H.
  repeat step_outcome.
  all: inversion H; subst tx; simpl;
    (split; [reflexivity |]);
    (split; [do 4 eexists; reflexivity |]);
    (split; [reflexivity | intros N C; apply N; symmetry; exact C]).
Qed.

Lemma payment_template_witness :
  buildUsdcPaymentTransaction sampleLib (paymentRequest "payer") =
  Return {| payerKey := PAYAI_FEE_PAYER;
            messageBlockhash := "blockhash-confirmed";
            messageInstructions :=
              [ SetComputeUnitLimit 40000;
                SetComputeUnitPrice 1;
                TransferChecked (ataOf USDC "payer") USDC (ataOf USDC "M") "payer" 50000 6 [] ] |} /\
  map kindOf
    [ SetComputeUnitLimit 40000;
      SetComputeUnitPrice 1;
      TransferChecked (ataOf USDC "payer") USDC (ataOf USDC "M") "payer" 50000 6 [] ]
  = [ComputeLimit; ComputePrice; TokenTransfer].
Proof.
  assert (B : buildUsdcPaymentTransaction sampleLib (paymentRequest "payer") =
              Return {| payerKey := PAYAI_FEE_PAYER;
                        messageBlockhash := "blockhash-confirmed";
                        messageInstructions :=
                          [ SetComputeUnitLimit 40000;
                            SetComputeUnitPrice 1;
                            TransferChecked (ataOf USDC "payer") USDC (ataOf USDC "M")
                              "payer" 50000 6 [] ] |}) by reflexivity.
  split; [exact B |].
  exact (proj1 (payment_template_structure sampleLib (paymentRequest "payer") _ B)).
Defined.

(** When the PayAI account itself is the sender, a template is returned
    whose fee payer is the sending wallet. *)
Lemma payment_template_fee_payer_is_sender :
  buildUsdcPaymentTransaction sampleLib (paymentRequest PAYAI_FEE_PAYER) =
  Return {| payerKey := PAYAI_FEE_PAYER;
            messageBlockhash := "blockhash-confirmed";
            messageInstructions :=
              [ SetComputeUnitLimit 40000;
                SetComputeUnitPrice 1;
                TransferChecked (ataOf USDC PAYAI_FEE_PAYER) USDC (ataOf USDC "M")
                  PAYAI_FEE_PAYER 50000 6 [] ] |} /\
  payer (paymentRequest PAYAI_FEE_PAYER) = PAYAI_FEE_PAYER.
Proof. split; reflexivity. Qed.

Lemma memo_plain (memo : option string) :
  Forall (fun i => computeBudget i = false /\ pushedKeys i = None) (memoInstructions memo).
Proof.
  unfold memoInstructions. destruct memo as [text|]; [|constructor].
  destruct (String.eqb text ""); repeat constructor.
Qed.

Lemma created_plain (created : option Instruction) :
  (created = None \/ exists a b c d, created = Some (CreateAssociatedTokenAccount a b c d)) ->
  Forall (fun i => computeBudget i = false /\ pushedKeys i = None) (optionToList created).
Proof.
  intros [->|[a [b [c [d ->]]]]]; repeat constructor.
Qed.

Lemma getOrCreateTokenAccount_creates env lib conn payer owner mint info :
  getOrCreateTokenAccount env lib conn payer owner mint = Return info ->
  snd info = None \/ exists a b c d, snd info = Some (CreateAssociatedTokenAccount a b c d).
Proof.
  unfold getOrCreateTokenAccount, bind, tryCatch. intros H.
  destruct (match mint with Some m => Return m | None => getUsdcMint env lib None end)
    as [tokenMint|e]; [|discriminate H].
  destruct (getAssociatedTokenAddress lib tokenMint owner) as [ata|e]; [|discriminate H].
  destruct (getAccount conn ata) as [acc|e]; inversion H; subst info; cbn [snd].
  - left. reflexivity.
  - right. do 4 eexists. reflexivity.
Qed.

(** C9, as the code has it: for the same wallet, recipient, amount, asset,
    memo and reference, the reward template is the refund template preceded
    by the two compute-budget instructions, of which the refund template
    contains none; each names the paying wallet as fee payer; the reward
    binds the blockhash of the confirmed commitment where the refund binds
    that of the finalized one; the refund carries the reference on its one
    transfer instruction and nowhere else, and a reward built without a
    reference carries no key on any instruction. *)
Theorem reward_is_refund_after_compute_budget :
  forall env lib conn wallet user amount reference memo tokenMint refund latest,
    buildRefundTransaction env lib
      {| refundConnection := conn; platformWallet := wallet; refundUser := user;
         refundAmount := amount; refundReference := reference; refundMemo := memo;
         refundTokenMint := tokenMint |} = Return refund ->
    getLatestBlockhash conn Confirmed = Return latest ->
    buildRewardTransaction env lib
      {| rewardConnection := conn; creator := wallet; rewardUser := user;
         rewardAmount := amount; rewardReference := Some reference; rewardMemo := memo;
         rewardTokenMint := tokenMint |}
    = Return {| instructions :=
                  SetComputeUnitLimit 80000 :: SetComputeUnitPrice 500000 :: instructions refund;
                recentBlockhash := blockhash latest;
                feePayer := wallet;
                txLastValidBlockHeight := lastValidBlockHeight latest |} /\
    feePayer refund = wallet /\
    Forall (fun i => computeBudget i = false) (instructions refund) /\
    (exists final,
        getLatestBlockhash conn Finalized = Return final /\
        recentBlockhash refund = blockhash final /\
        txLastValidBlockHeight refund = lastValidBlockHeight final) /\
    (exists before transfer after,
        instructions refund = before ++ transfer :: after /\
        pushedKeys transfer = Some [referenceKey reference] /\
        Forall (fun i => pushedKeys i = None) (before ++ after)) /\
    (forall reward,
        buildRewardTransaction env lib
          {| rewardConnection := conn; creator := wallet; rewardUser := user;
             rewardAmount := amount; rewardReference := None; rewardMemo := memo;
             rewardTokenMint := tokenMint |} = Return reward ->
        Forall (fun i => pushedKeys i = None \/ pushedKeys i = Some []) (instructions reward)).
Proof.
  intros env lib conn wallet user amount reference memo tokenMint refund latest R L.
  unfold buildRefundTransaction, bind in R. cbn [refundConnection platformWallet refundUser
    refundAmount refundReference refundMemo refundTokenMint] in R.
  unfold buildRewardTransaction, bind.
  cbn [rewardConnection creator rewardUser rewardAmount rewardReference rewardMemo
       rewardTokenMint optionToList map].
  pose proof (memo_plain memo) as M.
  destruct tokenMint as [tokenMint|].
  - destruct (getAssociatedTokenAddress lib tokenMint wallet) as [source|e];
      [| discriminate R].
    destruct (getOrCreateTokenAccount env lib conn wallet user (Some tokenMint))
      as [info|e] eqn:G; [| discriminate R].
    pose proof (created_plain _ (getOrCreateTokenAccount_creates _ _ _ _ _ _ _ G)) as C.
    destruct (getLatestBlockhash conn Finalized) as [final|e]; [| discriminate R].
    rewrite L. inversion R; subst refund; cbn [instructions recentBlockhash feePayer
      txLastValidBlockHeight].
    split; [reflexivity|]. split; [reflexivity|]. split; [|split; [|split]].
    + rewrite !Forall_app. split; [split|].
      * eapply Forall_impl; [|exact C]. intros i [A _]. exact A.
      * repeat constructor.
      * eapply Forall_impl; [|exact M]. intros i [A _]. exact A.
    + exists final. repeat split.
    + exists (optionToList (snd info)). eexists. exists (memoInstructions memo).
      split; [rewrite <- app_assoc; reflexivity|]. split; [reflexivity|].
      rewrite Forall_app. split; (eapply Forall_impl; [|eassumption]); intros i [_ A]; exact A.
    + intros reward H. inversion H; subst reward; cbn [instructions].
      constructor; [left; reflexivity|]. constructor; [left; reflexivity|].
      rewrite !Forall_app. split; [split|].
      * eapply Forall_impl; [|exact C]. intros i [_ A]. left. exact A.
      * constructor; [right; reflexivity|constructor].
      * eapply Forall_impl; [|exact M]. intros i [_ A]. left. exact A.
  - destruct (getLatestBlockhash conn Finalized) as [final|e]; [| discriminate R].
    rewrite L. inversion R; subst refund; cbn [instructions recentBlockhash feePayer
      txLastValidBlockHeight].
    split; [reflexivity|]. split; [reflexivity|]. split; [|split; [|split]].
    + constructor; [reflexivity|]. eapply Forall_impl; [|exact M]. intros i [A _]. exact A.
    + exists final. repeat split.
    + exists []. eexists. exists (memoInstructions memo).
      split; [reflexivity|]. split; [reflexivity|].
      eapply Forall_impl; [|exact M]. intros i [_ A]. exact A.
    + intros reward H. inversion H; subst reward; cbn [instructions].
      constructor; [left; reflexivity|]. constructor; [left; reflexivity|].
      constructor; [right; reflexivity|].
      eapply Forall_impl; [|exact M]. intros i [_ A]. left. exact A.
Qed.

Lemma reward_is_refund_after_compute_budget_witness :
  buildRefundTransaction (development None) sampleLib refundToU =
  Return {| instructions := refundInstructions;
            recentBlockhash := "blockhash-finalized";
            feePayer := "P";
            txLastValidBlockHeight := 1000 |} /\
  buildRewardTransaction (development None) sampleLib rewardToU =
  Return {| instructions :=
              SetComputeUnitLimit 80000 :: SetComputeUnitPrice 500000 :: refundInstructions;
            recentBlockhash := "blockhash-confirmed";
            feePayer := "P";
            txLastValidBlockHeight := 1000 |}.
Proof.
  assert (R : buildRefundTransaction (development None) sampleLib refundToU =
              Return {| instructions := refundInstructions;
                        recentBlockhash := "blockhash-finalized";
                        feePayer := "P";
                        txLastValidBlockHeight := 1000 |}) by reflexivity.
  split; [exact R |].
  exact (proj1 (reward_is_refund_after_compute_budget (development None) sampleLib emptyNode
                  "P" "U" 50000%Z "R" (Some "Refund for failed API execution") (Some USDC)
                  _ {| blockhash := "blockhash-confirmed"; lastValidBlockHeight := 1000 |}
                  R eq_refl)).
Defined.

(** For the same asset, recipient, amount, memo and reference the two
    templates differ in their instruction sequences: the refund has three
    instructions, the reward five. *)
Lemma refund_and_reward_shapes_differ :
  (exists refund reward,
      buildRefundTransaction (development None) sampleLib refundToU = Return refund /\
      buildRewardTransaction (development None) sampleLib rewardToU = Return reward /\
      shape refund = [CreateAccount; TokenTransfer; Memo] /\
      shape reward = [ComputeLimit; ComputePrice; CreateAccount; TokenTransfer; Memo] /\
      shape refund <> shape reward).
Proof.
  do 2 eexists. repeat split; try reflexivity. simpl. discriminate.
Qed.

(** ** Backoff delays *)

(** [Math.min] is below both arguments and grows with them. *)

Lemma mathMin_below (x y : float) :
  PrimFloat.is_nan x = false -> PrimFloat.is_nan y = false ->
  (Retry.mathMin x y = x \/ Retry.mathMin x y = y) /\
  (Retry.mathMin x y <=? x)%float = true /\ (Retry.mathMin x y <=? y)%float = true.
Proof.
  intros Nx Ny. unfold Retry.mathMin. rewrite Nx, Ny. cbn [orb].
  destruct (x <? y)%float eqn:A.
  { split; [left; reflexivity|]. split; [apply leb_refl; exact Nx|apply ltb_leb; exact A]. }
  destruct (y <? x)%float eqn:B.
  { split; [right; reflexivity|]. split; [apply ltb_leb; exact B|apply leb_refl; exact Ny]. }
  pose proof (not_ltb_leb x y Nx Ny A) as YX. pose proof (not_ltb_leb y x Ny Nx B) as XY.
  destruct (Retry.signBit x).
  - split; [left; reflexivity|]. split; [apply leb_refl; exact Nx|exact XY].
  - split; [right; reflexivity|]. split; [exact YX|apply leb_refl; exact Ny].
Qed.

Lemma mathMin_mono (t t' m : float) :
  (t <=? t')%float = true -> PrimFloat.is_nan m = false ->
  (Retry.mathMin t m <=? Retry.mathMin t' m)%float = true.
Proof.
  intros L M. destruct (leb_not_nan _ _ L) as [Nt Nt'].
  destruct (mathMin_below t m Nt M) as [_ [A B]].
  destruct (mathMin_below t' m Nt' M) as [[E|E] _]; rewrite E.
  - exact (leb_trans _ _ _ A L).
  - exact B.
Qed.

Lemma ones_values : value 0.5 = (one / 2)%Z /\ value 1 = one /\ value 2 = (2 * one)%Z.
Proof. vm_compute. repeat split. Qed.

Lemma jitter_range (r : float) :
  (0 <=? r)%float = true -> (r <? 1)%float = true ->
  (0.5 <=? 0.5 + r * 0.5)%float = true /\ (0.5 + r * 0.5 <=? 1)%float = true.
Proof.
  intros R0 R1. apply ltb_leb in R1.
  assert (A : (0 * 0.5 <=? r * 0.5)%float = true).
  { apply mul_mono; try reflexivity; try exact R0.
    - right. vm_compute. reflexivity.
    - left. vm_compute. reflexivity. }
  assert (B : (r * 0.5 <=? 1 * 0.5)%float = true).
  { apply mul_mono; try reflexivity; try assumption.
    - left. vm_compute. reflexivity.
    - left. vm_compute. reflexivity. }
  change (0 * 0.5)%float with 0%float in A. change (1 * 0.5)%float with 0.5%float in B.
  split.
  - change 0.5%float with (0.5 + 0)%float at 1. apply add_mono; try reflexivity. exact A.
  - change 1%float with (0.5 + 0.5)%float. apply add_mono; try reflexivity; assumption.
Qed.

Lemma rne_double (x : Z) : (0 <= x -> rne x = x -> rne (2 * x) = 2 * x)%Z.
Proof.
  intros X R. apply rne_exact.
  destruct (Z.eq_dec x 0) as [->|NZ]; [reflexivity|].
  assert (M : (x mod 2 ^ ulpExp x = 0)%Z).
  { unfold rne in R. rewrite <- R at 1. apply Z.mod_mul.
    pose proof (pow2_pos (ulpExp x)). pose proof (ulpExp_ge x). lia. }
  destruct (digits_bounds x ltac:(lia)) as [[L U] D].
  assert (D2 : Zdigits2 (2 * x) = (Zdigits2 x + 1)%Z).
  { apply digits_unique; [|lia]. replace (Zdigits2 x + 1 - 1)%Z with (Z.succ (Zdigits2 x - 1)) by lia.
    replace (Zdigits2 x + 1)%Z with (Z.succ (Zdigits2 x)) by lia.
    rewrite !Z.pow_succ_r by lia. lia. }
  pose proof (ulpExp_ge x) as G.
  assert (E : (ulpExp (2 * x) <= ulpExp x + 1)%Z) by (unfold ulpExp in *; lia).
  pose proof (ulpExp_ge (2 * x)) as G2.
  set (u2 := ulpExp (2 * x)) in *. clearbody u2.
  set (u := ulpExp x) in *. clearbody u.
  pose proof (pow2_pos u ltac:(lia)) as P. pose proof (pow2_pos u2 ltac:(lia)) as P2.
  pose proof (Z.div_mod x (2 ^ u) ltac:(lia)) as DM. rewrite M, Z.add_0_r in DM.
  rewrite DM.
  replace (2 * (2 ^ u * (x / 2 ^ u)))%Z with ((x / 2 ^ u) * (2 * 2 ^ u))%Z by ring.
  rewrite <- Z.pow_succ_r by lia.
  rewrite (pow2_split u2 (Z.succ u)) by lia.
  rewrite Z.mul_assoc. apply Z.mod_mul. lia.
Qed.

Lemma one_halves : (one = 2 * (one / 2) /\ 0 < one / 2)%Z.
Proof.
  assert (E : (one = 2 * 2 ^ 2199)%Z).
  { unfold one. replace 2200%Z with (Z.succ 2199) by lia. apply Z.pow_succ_r. lia. }
  pose proof (pow2_pos 2199 ltac:(lia)) as P.
  assert (H : (one / 2 = 2 ^ 2199)%Z).
  { rewrite E, Z.mul_comm. apply Z.div_mul. lia. }
  rewrite H. split; [exact E|exact P].
Qed.

(** The double of a delay is below the next one: the delay is below half
    of the next one. *)
Lemma half_of_double (b b' : float) :
  (0 <=? b)%float = true -> (2 * b <=? b')%float = true ->
  (0 <=? b')%float = true /\ (b <=? b' * 0.5)%float = true.
Proof.
  intros N L. destruct ones_values as [Vh [V1 V2]].
  pose proof one_pos as O. pose proof huge_pos as HP. pose proof huge_unbounded as HU.
  assert (OH : (one < huge)%Z) by (apply Z.pow_lt_mono_r; lia).
  assert (O2 : (2 * one < huge)%Z).
  { unfold one, huge. rewrite <- (Z.pow_succ_r 2 2200) by lia. apply Z.pow_lt_mono_r; lia. }
  pose proof (value_nonneg b N) as B.
  destruct (mul_value 2 b eq_refl N ltac:(rewrite V2; lia) ltac:(rewrite V2; lia))
    as [N2 M2].
  pose proof (leb_trans _ _ _ N2 L) as N'. split; [exact N'|].
  pose proof (value_nonneg b' N') as B'.
  apply (leb_value _ _ N2 N') in L. rewrite M2, V2 in L.
  assert (Q2 : (2 * one * value b / one = 2 * value b)%Z).
  { replace (2 * one * value b)%Z with (2 * value b * one)%Z by ring.
    apply Z.div_mul. lia. }
  rewrite Q2 in L.
  destruct one_halves as [OE OP].
  destruct (mul_value b' 0.5 N' eq_refl ltac:(rewrite Vh; lia) ltac:(rewrite Vh; lia))
    as [Nh Mh].
  apply (leb_value _ _ N Nh). rewrite Mh, Vh.
  assert (Half : (value b' * (one / 2) / one = value b' / 2)%Z).
  { rewrite OE at 2. rewrite Z.div_mul_cancel_r by lia. reflexivity. }
  rewrite Half.
  destruct (Z_lt_le_dec (rne (2 * value b)) huge) as [Small|Large].
  - rewrite overflow_small in L by exact Small.
    assert (Fb : (value b < huge)%Z).
    { destruct (Z_lt_le_dec (value b) huge) as [|I]; [assumption|exfalso].
      pose proof (rne_large (2 * value b) ltac:(lia)). lia. }
    destruct (value_representable b N Fb) as [Rb _].
    rewrite (rne_double (value b) ltac:(lia) Rb) in L.
    assert (value b <= value b' / 2)%Z by (apply Z.div_le_lower_bound; lia).
    rewrite <- Rb at 1. rewrite <- (overflow_small (rne (value b))) by (rewrite Rb; exact Fb).
    apply overflow_mono, rne_mono. lia.
  - rewrite overflow_large in L by exact Large.
    assert (E : value b' = unbounded) by lia.
    rewrite E. rewrite overflow_large; [lia|].
    apply rne_large. apply Z.div_le_lower_bound; [lia|].
    unfold huge, unbounded. rewrite <- (Z.pow_succ_r 2 3224) by lia. apply pow2_le. lia.
Qed.

Section Backoff.

Import Retry.
Local Open Scope float_scope.

(** The jittered delay lies between half the base delay and the base
    delay. *)
Lemma jittered_bounds (b r : float) :
  (0 <=? b) = true -> (0 <=? r) = true -> (r <? 1) = true ->
  (0 <=? b * (0.5 + r * 0.5)) = true /\
  (b * 0.5 <=? b * (0.5 + r * 0.5)) = true /\
  (b * (0.5 + r * 0.5) <=? b) = true.
Proof.
  intros B R0 R1. destruct (jitter_range r R0 R1) as [J0 J1].
  set (j := 0.5 + r * 0.5) in *.
  assert (Nj : (0 <=? j) = true) by (apply (leb_trans 0 0.5 j); [reflexivity|exact J0]).
  destruct ones_values as [Vh [V1 _]]. destruct one_halves as [OE OP].
  pose proof one_pos as O.
  assert (OH : (one < huge)%Z) by (apply Z.pow_lt_mono_r; lia).
  assert (Vj : (one / 2 <= value j <= one)%Z).
  { apply (leb_value 0.5 j eq_refl Nj) in J0. apply (leb_value j 1 Nj eq_refl) in J1.
    rewrite Vh in J0. rewrite V1 in J1. lia. }
  destruct (leb_not_nan _ _ B) as [_ NaN]. pose proof (leb_refl b NaN) as Bb.
  destruct (mul_value b j B Nj ltac:(lia) ltac:(lia)) as [Nt Vt].
  split; [exact Nt|]. split.
  - apply mul_mono; try assumption; try reflexivity.
    + right. rewrite Vh. lia.
    + left. lia.
  - assert (L : (b * j <=? b * 1) = true).
    { apply mul_mono; try assumption.
      - right. lia.
      - left. rewrite V1. lia. }
    destruct (mul_one b B) as [N1 E1].
    apply (leb_value _ _ Nt B). apply (leb_value _ _ Nt N1) in L. lia.
Qed.

Lemma nextDelay_grows (b b' r r' m : float) :
  (0 <=? b) = true -> (2 * b <=? b') = true ->
  (0 <=? r) = true -> (r <? 1) = true -> (0 <=? r') = true -> (r' <? 1) = true ->
  PrimFloat.is_nan m = false ->
  (mathMin (b * (0.5 + r * 0.5)) m <=? mathMin (b' * (0.5 + r' * 0.5)) m) = true.
Proof.
  intros B D R0 R1 R0' R1' M.
  destruct (half_of_double b b' B D) as [B' H].
  destruct (jittered_bounds b r B R0 R1) as [_ [_ U]].
  destruct (jittered_bounds b' r' B' R0' R1') as [_ [L _]].
  apply mathMin_mono; [|exact M].
  apply (leb_trans _ _ _ U). apply (leb_trans _ _ _ H). exact L.
Qed.

Lemma nextDelay_capped (b r m : float) :
  (0 <=? b) = true -> (0 <=? r) = true -> (r <? 1) = true ->
  PrimFloat.is_nan m = false ->
  (mathMin (b * (0.5 + r * 0.5)) m <=? m) = true.
Proof.
  intros B R0 R1 M. destruct (jittered_bounds b r B R0 R1) as [N _].
  destruct (leb_not_nan _ _ N) as [_ NaN].
  apply (mathMin_below _ _ NaN M).
Qed.

Variable T : Type.
Variable fn : nat -> T + Raised.
Variable approx : float -> nat -> float.
Variable random : nat -> float.
Variables initialDelay maxDelay multiplier : float.
Variable retryable : Raised -> nat -> bool.

Hypothesis random_range : forall k, (0 <=? random k) = true /\ (random k <? 1) = true.
Hypothesis cap_is_number : PrimFloat.is_nan maxDelay = false.

Let base (k : nat) : float := initialDelay * mathPow approx multiplier k.

Lemma attempts_delays :
  forall remaining attempt,
    (0 <=? base attempt) = true ->
    (forall k, (attempt <= k)%nat -> (S k < attempt + remaining)%nat ->
               (2 * base k <=? base (S k)) = true) ->
    let delays := snd (attempts fn approx random initialDelay maxDelay multiplier retryable
                         remaining attempt) in
    nonDecreasing delays /\
    Forall (fun d => (d <=? maxDelay) = true) delays /\
    match delays with
    | [] => True
    | d :: _ => d = nextDelay approx initialDelay maxDelay multiplier attempt (random attempt)
    end.
Proof.
  induction remaining as [|remaining IH]; intros attempt B0 D; cbn [attempts].
  - destruct (fn attempt); cbn [snd]; repeat split; constructor.
  - destruct (fn attempt) as [v|error]; [cbn [snd]; repeat split; constructor|].
    destruct (retryable error attempt); cbn [negb]; [|cbn [snd]; repeat split; constructor].
    destruct (random_range attempt) as [R0 R1].
    destruct remaining as [|remaining].
    + cbn [attempts]. destruct (fn (S attempt)); cbn [snd nonDecreasing];
        (split; [exact I|split; [|reflexivity]]);
        (constructor; [|constructor]); unfold nextDelay; apply nextDelay_capped; assumption.
    + assert (D0 : (2 * base attempt <=? base (S attempt)) = true) by (apply D; lia).
      destruct (half_of_double _ _ B0 D0) as [B1 _].
      specialize (IH (S attempt) B1 ltac:(intros k A L; apply D; lia)).
      destruct (attempts fn approx random initialDelay maxDelay multiplier retryable
                  (S remaining) (S attempt)) as [r ds].
      cbn [snd] in *. destruct IH as [ND [Cap Head]].
      split; [|split; [|reflexivity]].
      * destruct ds as [|d' ds]; [exact I|]. cbn [nonDecreasing]. split; [|exact ND].
        rewrite Head. unfold nextDelay. fold (base attempt). fold (base (S attempt)).
        destruct (random_range (S attempt)) as [R0' R1'].
        apply nextDelay_grows; assumption.
      * constructor; [|exact Cap]. unfold nextDelay. apply nextDelay_capped; assumption.
Qed.

End Backoff.

(** C8: the delays of a run are non-decreasing and none exceeds the
    configured maximum, whenever the base delays
    [initialDelayMs * Math.pow(backoffMultiplier, attempt)] of the run, as
    computed in double arithmetic, start at zero or above and at least
    double from each attempt to the next, the maximum is a number, and
    [Math.random] keeps to [0, 1). *)
Theorem backoff_delays_non_decreasing :
  forall T (fn : nat -> T + Retry.Raised) (approx : float -> nat -> float)
         (random : nat -> float) (options : Retry.RetryOptions),
    let base k :=
      (Retry.orDefault (Retry.initialDelayMs options) 1000
       * Retry.mathPow approx (Retry.orDefault (Retry.backoffMultiplier options) 2) k)%float in
    (forall k, (0 <=? random k)%float = true /\ (random k <? 1)%float = true) ->
    PrimFloat.is_nan (Retry.orDefault (Retry.maxDelayMs options) 30000%float) = false ->
    (0 <=? base 0%nat)%float = true ->
    (forall k, (S k < Retry.orDefault (Retry.maxRetries options) 3)%nat ->
               (2 * base k <=? base (S k))%float = true) ->
    Retry.nonDecreasing (snd (Retry.withExponentialBackoff fn approx random options)) /\
    Forall (fun d => (d <=? Retry.orDefault (Retry.maxDelayMs options) 30000%float)%float = true)
           (snd (Retry.withExponentialBackoff fn approx random options)).
Proof.
  intros T fn approx random options base R M B D. unfold Retry.withExponentialBackoff.
  destruct (attempts_delays T fn approx random _ (Retry.orDefault (Retry.maxDelayMs options) 30000%float) _
              (Retry.orDefault (Retry.shouldRetry options) Retry.defaultShouldRetry)
              R M (Retry.orDefault (Retry.maxRetries options) 3%nat) 0%nat B
              ltac:(intros k _ L; apply D; exact L))
    as [N [C _]].
  split; assumption.
Qed.

Lemma backoff_delays_witness :
  Retry.nonDecreasing
    (snd (Retry.withExponentialBackoff badGateway repeatedProduct (fun _ => 0.5%float)
            Retry.noOptions)) /\
  snd (Retry.withExponentialBackoff badGateway repeatedProduct (fun _ => 0.5%float)
         Retry.noOptions)
  = [750; 1500; 3000]%float.
Proof.
  split; [|reflexivity].
  refine (proj1 (backoff_delays_non_decreasing unit badGateway repeatedProduct
                   (fun _ => 0.5%float) Retry.noOptions _ _ _ _)).
  - intros k. split; reflexivity.
  - reflexivity.
  - reflexivity.
  - intros [|[|k]] L; [reflexivity|reflexivity|].
    exfalso. cbn [Retry.orDefault Retry.maxRetries Retry.noOptions] in L. lia.
Defined.

(** With a multiplier of one and a half the jitter can shorten the next
    delay: 875 ms are followed by 750 ms. *)
Lemma backoff_delay_can_decrease :
  snd (Retry.withExponentialBackoff badGateway repeatedProduct highThenLow gentleBackoff)
  = [875; 750; 1125]%float /\
  ~ Retry.nonDecreasing
      (snd (Retry.withExponentialBackoff badGateway repeatedProduct highThenLow gentleBackoff)).
Proof.
  split; [reflexivity |].
  intros [H _]. discriminate H.
Qed.

(** ** Discount quotes *)

Lemma holder_benefits_of_tier env lib walletAddress connection holder :
  getB402HolderTier env lib walletAddress connection = Return holder ->
  benefits holder = TIER_BENEFITS (tier holder).
Proof.
  unfold getB402HolderTier, noHolding. intros H.
  destruct (match connection with Some c => Return c | None => _ end) as [conn|e];
    simpl in H; [| inversion H; reflexivity].
  destruct (newPublicKey lib walletAddress) as [wallet|e];
    simpl in H; [| inversion H; reflexivity].
  destruct (getAssociatedTokenAddress lib (B402_MINT_ADDRESS env) wallet) as [account|e];
    simpl in H; [| inversion H; reflexivity].
  destruct (getAccount conn account) as [found|e]; simpl in H.
  - inversion H. reflexivity.
  - destruct (accountMissing e); inversion H; reflexivity.
Qed.

Lemma percent_in_table (t : TokenHolderTier) (g : GameType) :
  In (discountPercentOf (TIER_BENEFITS t) g) tablePercents.
Proof. destruct t, g; simpl; auto 10. Qed.

Lemma max0_not_negative (x : float) :
  (0 <=? max0 x)%float = true \/ PrimFloat.is_nan (max0 x) = true.
Proof.
  unfold max0. destruct (PrimFloat.is_nan x) eqn:N; [right; exact N |].
  destruct (0 <? x)%float eqn:P; left; [apply zero_leb_of_ltb; exact P | reflexivity].
Qed.

Section QuoteValues.

Local Open Scope Z_scope.

Lemma NumberOfBigInt_value (n : Z) :
  0 <= n <= 2 ^ 53 ->
  (0 <=? NumberOfBigInt n)%float = true /\ value (NumberOfBigInt n) = n * one.
Proof.
  intros [L U]. destruct (Z.eq_dec n (2 ^ 53)) as [->|Top].
  { split; [reflexivity|]. vm_compute. reflexivity. }
  assert (U' : n < 2 ^ 53) by lia. clear U Top.
  unfold NumberOfBigInt, value. rewrite nonnegative_leb.
  destruct n as [|p|p]; [| |lia].
  - cbn [binary_normalize]. rewrite Prim2SF_SF2Prim by reflexivity. split; reflexivity.
  - cbn [binary_normalize].
    destruct (binary_round_value false p 0 ltac:(lia)) as [V [S R]].
    rewrite Prim2SF_SF2Prim by exact V.
    split; [apply signed_nonnegative; exact S|].
    rewrite R. cbn [cond_Zopp]. change (2 ^ (0 + 2200)) with one.
    assert (D : Zpos (digits2_pos p) <= 53) by (apply digits_le_53; exact U').
    pose proof one_pos as O.
    rewrite rne_exact.
    + apply overflow_small. change huge with (2 ^ (53 + 3171)). unfold one.
      apply pow_product_lt; lia.
    + unfold ulpExp, one. rewrite digits_shift by lia. cbn [Zdigits2].
      rewrite Z.max_l by lia.
      rewrite (pow2_split (Zpos (digits2_pos p) + 2200 - 53) 2200) by lia.
      rewrite Z.mul_assoc. apply Z.mod_mul.
      pose proof (pow2_pos (Zpos (digits2_pos p) + 2200 - 53)). lia.
Qed.

Lemma max0_value (f : float) :
  (0 <=? f)%float = true -> (0 <=? max0 f)%float = true /\ value (max0 f) = value f.
Proof.
  intros N. unfold max0.
  assert (NaN : PrimFloat.is_nan f = false).
  { unfold PrimFloat.is_nan. destruct (eqb_value f f N N) as [_ E]. rewrite E; reflexivity. }
  rewrite NaN. destruct (0 <? f)%float eqn:P; [split; [exact N|reflexivity]|].
  split; [reflexivity|].
  pose proof (value_nonneg f N) as B.
  destruct (ltb_value 0 f eq_refl N) as [_ Lt].
  change (value 0) with 0 in *.
  destruct (Z.eq_dec (value f) 0) as [->|NZ]; [reflexivity|].
  rewrite Lt in P by lia. discriminate.
Qed.

Lemma table_factors : forallb factorChecked tablePercents = true.
Proof. vm_compute. reflexivity. Qed.

Lemma exact_quotient (B P : Z) :
  B mod least = 0 -> P mod least = 0 -> one * (B * P / one) = B * P.
Proof.
  intros MB MP. pose proof least_pos as L. pose proof one_pos as O.
  pose proof (Z.div_mod B least ltac:(lia)) as DB. rewrite MB in DB.
  pose proof (Z.div_mod P least ltac:(lia)) as DP. rewrite MP in DP.
  assert (LL : least * least = 2 ^ 52 * one).
  { unfold least, one. rewrite <- !Z.pow_add_r by lia. reflexivity. }
  assert (E : B * P = (B / least * (P / least) * 2 ^ 52) * one).
  { rewrite DB at 1. rewrite DP at 1. rewrite !Z.add_0_r.
    transitivity (B / least * (P / least) * (least * least)); [ring|]. rewrite LL. ring. }
  rewrite E at 1. rewrite Z.div_mul by lia. rewrite E. ring.
Qed.

Section Quote.

Variables basePrice percent : float.
Hypothesis base_nonneg : (0 <=? basePrice)%float = true.
Hypothesis base_finite : value basePrice < huge.
Hypothesis checked : factorChecked percent = true.

Let saved := (basePrice * (percent / 100))%float.
Let final := max0 (basePrice - saved)%float.
Let N := value basePrice.
Let P := value (percent / 100)%float.
Let c := value percent / one.
Let W := N * P / one.

Lemma quote_values :
  (0 <=? saved)%float = true /\ (0 <=? final)%float = true /\
  value saved = rne W /\ value final = rne (N - rne W) /\
  one * W = N * P /\ 0 <= rne W <= N /\ rne W mod least = 0 /\
  0 <= c /\ value percent = c * one /\ 0 <= P /\ 2 * P <= one /\
  2 ^ 53 * Z.abs (100 * P - c * one) <= 100 * P.
Proof.
  unfold factorChecked in checked. cbv zeta in checked. fold P c in checked.
  apply andb_prop in checked. destruct checked as [C4 C5].
  apply andb_prop in C4. destruct C4 as [C1 C4].
  apply andb_prop in C1. destruct C1 as [C2 C1].
  apply andb_prop in C2. destruct C2 as [C3 C2].
  apply andb_prop in C3. destruct C3 as [C6 _].
  apply Z.eqb_eq in C2. apply Z.leb_le in C4, C5.
  pose proof (value_nonneg _ C6) as C3.
  pose proof (value_nonneg _ C1) as P0. fold P in P0.
  pose proof (value_nonneg _ base_nonneg) as N0. fold N in N0.
  pose proof one_pos as O. pose proof huge_pos as HP. pose proof least_pos as LP.
  assert (OH : one < huge) by (apply Z.pow_lt_mono_r; lia).
  destruct (value_representable basePrice base_nonneg base_finite) as [RN MN]. fold N in RN, MN.
  destruct (value_representable (percent / 100)%float C1 ltac:(fold P; lia)) as [RP MP].
  fold P in RP, MP.
  pose proof (exact_quotient N P MN MP) as WE. fold W in WE.
  assert (W0 : 0 <= W) by nia.
  assert (WN : W <= N) by nia.
  destruct (mul_value basePrice (percent / 100)%float base_nonneg C1
              ltac:(fold N; lia) ltac:(fold P; lia)) as [S0 SV].
  fold saved N P W in S0, SV.
  assert (RW : 0 <= rne W <= N).
  { split; [apply rne_nonneg; exact W0|]. rewrite <- RN. apply rne_mono. lia. }
  rewrite overflow_small in SV by lia.
  assert (SF : value saved < huge) by lia.
  destruct (value_representable saved S0 SF) as [_ SM].
  destruct (sub_value basePrice saved base_nonneg S0 ltac:(fold N; lia) base_finite)
    as [D0 [DV _]].
  destruct (max0_value _ D0) as [F0 FV]. fold final in F0, FV.
  rewrite DV in FV. fold N in FV. rewrite SV in FV, SM.
  assert (C0 : 0 <= c) by nia.
  repeat (split; [assumption || lia|]). assumption.
Qed.

Lemma quote_error :
  2 ^ 52 * Z.abs (100 * value final - N * (100 - c)) <= 100 * N + 50 * (2 ^ 52 * least).
Proof.
  destruct quote_values as [S0 [F0 [SV [FV [WE [RW [SM [C0 [CV [P0 [PH PE]]]]]]]]]]].
  pose proof (value_nonneg _ base_nonneg) as N0. fold N in N0.
  pose proof one_pos as O.
  assert (W0 : 0 <= W) by nia.
  rewrite FV.
  apply (discount_error N P c W (rne W) (rne (N - rne W))); try assumption; try lia.
  - apply rne_relative. exact W0.
  - apply rne_relative_exact; [lia|].
    destruct (value_representable basePrice base_nonneg base_finite) as [_ MN]. fold N in MN.
    pose proof least_pos.
    rewrite Zminus_mod, MN, SM. reflexivity.
Qed.

Lemma quote_sums_back :
  (N mod 2 ^ ulpExp N = 0 /\ Z.even (N / 2 ^ ulpExp N) = true) \/
  P = 0 \/
  (N mod 2 ^ ulpExp N = 0 /\ 2 ^ (Zdigits2 N - 1) < N /\
   value final < 2 ^ (Zdigits2 N - 1)) ->
  (final + saved =? basePrice)%float = true.
Proof.
  intros Cases.
  destruct quote_values as [S0 [F0 [SV [FV [WE [RW [SM _]]]]]]].
  destruct (add_value final saved F0 S0) as [A0 AV].
  apply (eqb_value _ _ A0 base_nonneg). rewrite AV. fold N.
  transitivity (overflow N); [|apply overflow_small; exact base_finite]. f_equal.
  destruct Cases as [[NM NE]|[Zero|[NM [Above Small]]]].
  - rewrite FV, SV. apply (rne_sum_back N (rne W) RW SM NM NE).
  - assert (W0 : W = 0) by (unfold W; rewrite Zero, Z.mul_0_r; reflexivity).
    rewrite FV, SV, W0, rne_zero, Z.sub_0_r, Z.add_0_r.
    destruct (value_representable basePrice base_nonneg base_finite) as [RN _]. fold N in RN.
    rewrite RN. exact RN.
  - rewrite FV in Small. rewrite FV, SV.
    apply (rne_sum_back_small N (rne W) RW SM NM Above Small).
Qed.

End Quote.

Lemma whole_price_grid (n : Z) :
  0 <= n <= 2 ^ 53 -> (n * one) mod 2 ^ ulpExp (n * one) = 0.
Proof.
  intros [L U]. destruct (Z.eq_dec n 0) as [->|NZ]; [reflexivity|].
  destruct (Z.eq_dec n (2 ^ 53)) as [->|Top].
  { assert (E : ulpExp (2 ^ 53 * one) = 2201).
    { unfold ulpExp, one. rewrite digits_shift by lia. reflexivity. }
    rewrite E. unfold one. rewrite <- Z.pow_add_r by lia.
    rewrite (pow2_split 2201 (53 + 2200)) by lia. apply Z.mod_mul.
    pose proof (pow2_pos 2201). lia. }
  destruct (digits_bounds n ltac:(lia)) as [[Ln Un] D].
  assert (D53 : Zdigits2 n <= 53).
  { destruct (Z_le_gt_dec (Zdigits2 n) 53) as [|G]; [assumption|exfalso].
    pose proof (pow2_le 53 (Zdigits2 n - 1) ltac:(lia)). lia. }
  assert (E : ulpExp (n * one) = Zdigits2 n + 2147).
  { unfold ulpExp, one. rewrite digits_shift by lia. lia. }
  rewrite E. unfold one.
  rewrite (pow2_split (Zdigits2 n + 2147) 2200) by lia.
  pose proof (pow2_pos (Zdigits2 n + 2147) ltac:(lia)) as P.
  rewrite Z.mul_assoc. apply Z.mod_mul. lia.
Qed.

Lemma whole_price_even (n : Z) :
  0 <= n <= 2 ^ 53 -> n <= 2 ^ 52 \/ Z.even n = true ->
  Z.even (n * one / 2 ^ ulpExp (n * one)) = true.
Proof.
  intros [L U] C. destruct (Z.eq_dec n 0) as [->|NZ]; [reflexivity|].
  destruct (Z.eq_dec n (2 ^ 53)) as [->|Top].
  { assert (E : ulpExp (2 ^ 53 * one) = 2201).
    { unfold ulpExp, one. rewrite digits_shift by lia. reflexivity. }
    rewrite E. unfold one. rewrite <- Z.pow_add_r by lia.
    rewrite (pow2_split 2201 (53 + 2200)) by lia.
    rewrite Z.div_mul by (pose proof (pow2_pos 2201); lia). reflexivity. }
  destruct (digits_bounds n ltac:(lia)) as [[Ln Un] D].
  assert (D53 : Zdigits2 n <= 53).
  { destruct (Z_le_gt_dec (Zdigits2 n) 53) as [|G]; [assumption|exfalso].
    pose proof (pow2_le 53 (Zdigits2 n - 1) ltac:(lia)). lia. }
  assert (E : ulpExp (n * one) = Zdigits2 n + 2147).
  { unfold ulpExp, one. rewrite digits_shift by lia. lia. }
  rewrite E. unfold one.
  rewrite (pow2_split (Zdigits2 n + 2147) 2200) by lia.
  replace (2200 - (Zdigits2 n + 2147)) with (53 - Zdigits2 n) by lia.
  pose proof (pow2_pos (Zdigits2 n + 2147) ltac:(lia)) as P.
  rewrite Z.mul_assoc, Z.div_mul by lia.
  destruct (Z.eq_dec (Zdigits2 n) 53) as [Full|Below].
  - rewrite Full. change (2 ^ (53 - 53)) with 1. rewrite Z.mul_1_r.
    destruct C as [C|C]; [|exact C].
    assert (n = 2 ^ 52) by (rewrite Full in Ln; simpl in Ln; lia). subst n. reflexivity.
  - rewrite Z.even_mul. replace (53 - Zdigits2 n) with (Z.succ (52 - Zdigits2 n)) by lia.
    rewrite Z.pow_succ_r by lia. rewrite Z.even_mul. simpl. apply orb_true_r.
Qed.

Lemma whole_price_digits (n : Z) :
  2 ^ 52 < n < 2 ^ 53 -> Zdigits2 (n * one) = 2253.
Proof.
  intros [L U]. unfold one. rewrite digits_shift by lia.
  rewrite (digits_unique n 53); [reflexivity| |lia]. simpl. lia.
Qed.

Lemma least_as_power : (inject_Z least == 2 ^ (-1074) * inject_Z one)%Q.
Proof.
  rewrite one_as_power. unfold least. rewrite (Zpower_Qpower 2 1126) by lia.
  change (inject_Z 2) with 2%Q. rewrite <- Qpower_plus by discriminate. reflexivity.
Qed.

Lemma error_as_rational (F N c : Z) :
  2 ^ 52 * Z.abs (100 * F - N * (100 - c)) <= 100 * N + 50 * (2 ^ 52 * least) ->
  (Qabs (inject_Z F / inject_Z one
         - inject_Z N / inject_Z one * (1 - inject_Z c / 100))
   <= inject_Z N / inject_Z one / 2 ^ 52 + 2 ^ (-1074))%Q.
Proof.
  intros H.
  assert (H1 : 2 ^ 52 * (100 * F + N * c) <= 100 * N + 50 * (2 ^ 52 * least) + 2 ^ 52 * (100 * N))
    by lia.
  assert (H2 : 2 ^ 52 * (100 * N) <= 100 * N + 50 * (2 ^ 52 * least) + 2 ^ 52 * (100 * F + N * c))
    by lia.
  clear H. rewrite Zle_Qle in H1, H2.
  repeat first [rewrite inject_Z_plus in H1 | rewrite inject_Z_mult in H1].
  repeat first [rewrite inject_Z_plus in H2 | rewrite inject_Z_mult in H2].
  rewrite least_as_power in H1, H2.
  assert (O : (0 < inject_Z one)%Q).
  { change 0%Q with (inject_Z 0). rewrite <- Zlt_Qlt. apply one_pos. }
  assert (P52 : (inject_Z (2 ^ 52) == 2 ^ 52)%Q) by (apply (Zpower_Qpower 2 52); lia).
  rewrite P52 in H1, H2.
  pose proof (power_positive 52) as T52. pose proof (power_positive (-1074)) as Tl.
  set (o := inject_Z one) in *. set (t := (2 ^ 52)%Q) in *. set (lam := (2 ^ (-1074))%Q) in *.
  set (vf := (inject_Z F / o)%Q). set (vb := (inject_Z N / o)%Q). set (cq := inject_Z c).
  assert (Ef : (inject_Z F == vf * o)%Q) by (unfold vf; field; lra).
  assert (En : (inject_Z N == vb * o)%Q) by (unfold vb; field; lra).
  fold cq in H1, H2. rewrite Ef, En in H1, H2.
  change (inject_Z 100) with 100%Q in *. change (inject_Z 50) with 50%Q in *.
  clearbody o t lam vf vb cq.
  assert (G1 : (t * (100 * vf + vb * cq) <= 100 * vb + 50 * (t * lam) + t * (100 * vb))%Q).
  { apply (Qmult_le_l _ _ o O).
    setoid_replace (o * (t * (100 * vf + vb * cq)))%Q
      with (t * (100 * (vf * o) + vb * o * cq))%Q by ring.
    setoid_replace (o * (100 * vb + 50 * (t * lam) + t * (100 * vb)))%Q
      with (100 * (vb * o) + 50 * (t * (lam * o)) + t * (100 * (vb * o)))%Q by ring.
    exact H1. }
  assert (G2 : (t * (100 * vb) <= 100 * vb + 50 * (t * lam) + t * (100 * vf + vb * cq))%Q).
  { apply (Qmult_le_l _ _ o O).
    setoid_replace (o * (t * (100 * vb)))%Q with (t * (100 * (vb * o)))%Q by ring.
    setoid_replace (o * (100 * vb + 50 * (t * lam) + t * (100 * vf + vb * cq)))%Q
      with (100 * (vb * o) + 50 * (t * (lam * o)) + t * (100 * (vf * o) + vb * o * cq))%Q
      by ring.
    exact H2. }
  clear H1 H2 Ef En.
  set (z := (vf - vb * (1 - cq / 100))%Q).
  assert (Ez : (100 * vf + vb * cq == 100 * z + 100 * vb)%Q) by (unfold z; field).
  rewrite Ez in G1, G2. clearbody z.
  assert (L0 : (0 <= t * lam)%Q) by (apply Qmult_le_0_compat; lra).
  assert (G1' : (t * (100 * z) <= 100 * vb + 50 * (t * lam))%Q).
  { setoid_replace (t * (100 * z + 100 * vb))%Q with (t * (100 * z) + t * (100 * vb))%Q
      in G1 by ring. lra. }
  assert (G2' : (- (100 * vb + 50 * (t * lam)) <= t * (100 * z))%Q).
  { setoid_replace (t * (100 * z + 100 * vb))%Q with (t * (100 * z) + t * (100 * vb))%Q
      in G2 by ring. lra. }
  assert (Ed : (vb / t + lam == (100 * vb + 100 * (t * lam)) / (100 * t))%Q) by (field; lra).
  apply Qabs_Qle_condition. rewrite Ed. split.
  - setoid_replace (- ((100 * vb + 100 * (t * lam)) / (100 * t)))%Q
      with ((- (100 * vb + 100 * (t * lam))) / (100 * t))%Q by (field; lra).
    apply Qle_shift_div_r; [lra|].
    setoid_replace (z * (100 * t))%Q with (t * (100 * z))%Q by ring. lra.
  - apply Qle_shift_div_l; [lra|].
    setoid_replace (z * (100 * t))%Q with (t * (100 * z))%Q by ring. lra.
Qed.

End QuoteValues.

Lemma checked_percent (percent : float) :
  factorChecked percent = true ->
  (valueOf percent == inject_Z (value percent / one))%Q.
Proof.
  intros C. unfold factorChecked in C. cbv zeta in C.
  apply andb_prop in C. destruct C as [C _].
  apply andb_prop in C. destruct C as [C _].
  apply andb_prop in C. destruct C as [C _].
  apply andb_prop in C. destruct C as [C E].
  apply andb_prop in C. destruct C as [N F].
  apply Z.eqb_eq in E. apply Z.ltb_lt in F.
  rewrite valueOf_value by (apply finite_value; assumption).
  rewrite E at 1. rewrite inject_Z_mult.
  pose proof one_pos as O. rewrite Zlt_Qlt in O. change (inject_Z 0) with 0%Q in O.
  field. intros Z0. rewrite Z0 in O. discriminate.
Qed.

Lemma finite_below_infinity (x : float) :
  (0 <=? x)%float = true -> (x <? infinity)%float = true -> (value x < huge)%Z.
Proof.
  intros N L. apply finite_value; [exact N|].
  apply nonnegative_leb in N. rewrite ltb_spec in L.
  change (Prim2SF infinity) with (S754_infinity false) in L.
  destruct (Prim2SF x) as [s|s| |s m e]; try reflexivity; try discriminate N.
  destruct s; discriminate.
Qed.

Lemma table_percent_checked (t : TokenHolderTier) (g : GameType) :
  factorChecked (discountPercentOf (TIER_BENEFITS t) g) = true.
Proof.
  pose proof table_factors as T. rewrite forallb_forall in T.
  apply T. apply percent_in_table.
Qed.

(** C7, as the code has it: the quote is computed in double arithmetic, the
    savings as [basePrice * (percent / 100)] and the final price as the
    larger of zero and [basePrice - savings]; the final price is never
    negative; for every finite base price that is not negative, the final
    price differs from [basePrice * (1 - percent / 100)] by no more than
    [basePrice / 2^52 + 2^-1074]; and the final price and the savings add
    up to the base price exactly for every integer base price from 0 to
    [2^53] that is at most [2^52], or even, or discounted by 0 percent, or
    whose final price is below [2^52]. *)
Theorem discount_quote_arithmetic :
  forall env lib basePrice walletAddress gameType,
  exists holder quote,
    getB402HolderTier env lib walletAddress None = Return holder /\
    applyB402Discount env lib basePrice walletAddress gameType = Return quote /\
    originalPrice quote = basePrice /\
    quoteTier quote = tier holder /\
    discountPercent quote = discountPercentOf (TIER_BENEFITS (tier holder)) gameType /\
    savings quote = (basePrice * (discountPercent quote / 100))%float /\
    discountedPrice quote = max0 (basePrice - savings quote)%float /\
    ((0 <=? discountedPrice quote)%float = true \/
     PrimFloat.is_nan (discountedPrice quote) = true) /\
    ((0 <=? basePrice)%float = true -> (basePrice <? infinity)%float = true ->
        (0 <=? discountedPrice quote)%float = true /\
        (Qabs (valueOf (discountedPrice quote)
               - valueOf basePrice * (1 - valueOf (discountPercent quote) / 100))
         <= valueOf basePrice / 2 ^ 52 + 2 ^ (-1074))%Q) /\
    (forall n : Z,
        (0 <= n <= 2 ^ 53)%Z ->
        basePrice = NumberOfBigInt n ->
        ((n <= 2 ^ 52)%Z \/ Z.even n = true \/ discountPercent quote = 0%float \/
         (discountedPrice quote <? 4503599627370496)%float = true) ->
        (discountedPrice quote + savings quote =? basePrice)%float = true /\
        (0 <=? discountedPrice quote)%float = true).
Proof.
  intros env lib basePrice walletAddress gameType.
  destruct (getB402HolderTier_returns env lib walletAddress None) as [holder H].
  exists holder. unfold applyB402Discount. rewrite H. cbn [bind].
  rewrite (holder_benefits_of_tier _ _ _ _ _ H).
  eexists. split; [reflexivity |]. split; [reflexivity |].
  cbn [discountedPrice originalPrice quoteTier savings discountPercent].
  repeat (split; [reflexivity |]).
  split; [apply max0_not_negative |].
  pose proof (table_percent_checked (tier holder) gameType) as C.
  set (percent := discountPercentOf (TIER_BENEFITS (tier holder)) gameType) in *.
  split.
  - intros N L. pose proof (finite_below_infinity _ N L) as F.
    destruct (quote_values basePrice percent N F C) as [_ [F0 _]].
    split; [exact F0|].
    pose proof (quote_error basePrice percent N F C) as E.
    apply error_as_rational in E.
    rewrite (checked_percent percent C).
    rewrite (valueOf_value basePrice) by (apply finite_value; assumption).
    rewrite valueOf_value; [exact E|].
    apply finite_value; [exact F0|].
    destruct (quote_values basePrice percent N F C) as [_ [_ [_ [FV [_ [RW _]]]]]].
    rewrite FV.
    destruct (value_representable basePrice N F) as [RN _].
    pose proof (value_nonneg basePrice N).
    assert (rne (value basePrice - rne (value basePrice * value (percent / 100)%float / one))
            <= rne (value basePrice))%Z by (apply rne_mono; lia).
    lia.
  - intros n R -> Cases.
    destruct (NumberOfBigInt_value n R) as [N V].
    assert (F : (value (NumberOfBigInt n) < huge)%Z).
    { rewrite V. change huge with (2 ^ (54 + 3170))%Z. unfold one.
      apply pow_product_lt; [|lia|lia].
      assert (2 ^ 53 < 2 ^ 54)%Z by (apply Z.pow_lt_mono_r; lia). lia. }
    destruct (quote_values _ percent N F C) as [_ [F0 _]].
    split; [|exact F0].
    pose proof (whole_price_grid n R) as M.
    apply (quote_sums_back _ percent N F C). rewrite V.
    destruct Cases as [Low|[Even|[Free|Small]]].
    + left. split; [exact M|]. apply whole_price_even; [exact R|left; exact Low].
    + left. split; [exact M|]. apply whole_price_even; [exact R|right; exact Even].
    + right. left. rewrite Free. reflexivity.
    + destruct (Z_le_gt_dec n (2 ^ 52)) as [Low|High].
      { left. split; [exact M|]. apply whole_price_even; [exact R|left; exact Low]. }
      destruct (Z.eq_dec n (2 ^ 53)) as [Top|Below].
      { left. split; [exact M|]. apply whole_price_even; [exact R|right].
        rewrite Top. reflexivity. }
      right. right. split; [exact M|].
      rewrite (whole_price_digits n ltac:(lia)).
      assert (P52 : (2 ^ (2253 - 1) = 2 ^ 52 * one)%Z).
      { unfold one. rewrite <- Z.pow_add_r by lia. reflexivity. }
      rewrite P52. split.
      * pose proof one_pos. nia.
      * apply (ltb_value _ 4503599627370496%float F0 eq_refl) in Small.
        destruct (NumberOfBigInt_value (2 ^ 52) ltac:(simpl; lia)) as [_ V52].
        change (NumberOfBigInt (2 ^ 52)) with 4503599627370496%float in V52.
        rewrite V52 in Small. exact Small.
Qed.

Lemma discount_quote_witness :
  (0 <= 9007199254740990 <= 2 ^ 53)%Z /\
  exists quote,
    applyB402Discount (development None) (holderLib (development None) bronzeHolding)
      (NumberOfBigInt 9007199254740990) "W" Blinks = Return quote /\
    (discountedPrice quote + savings quote =? NumberOfBigInt 9007199254740990)%float = true.
Proof.
  split; [split; discriminate |].
  destruct (discount_quote_arithmetic (development None)
              (holderLib (development None) bronzeHolding)
              (NumberOfBigInt 9007199254740990) "W" Blinks)
    as [holder [quote [_ [Q [_ [_ [_ [_ [_ [_ [_ Exact]]]]]]]]]]].
  exists quote. split; [exact Q |].
  apply (Exact 9007199254740990%Z); [split; discriminate | reflexivity |].
  right. left. reflexivity.
Defined.

(** In double arithmetic the identities fail: at the base price 7 with the
    BRONZE slot-machine discount of 5 percent the final price is not
    [7 * (1 - 5 / 100)], and at the integer base price 9007199254740989 the
    final price and the savings do not add up to the base price. *)
Lemma discount_quote_rounding :
  applyB402Discount (development None) (holderLib (development None) bronzeHolding)
    7 "W" SlotMachine
  = Return {| discountedPrice := 6.6500000000000004; originalPrice := 7;
              quoteTier := BRONZE; savings := 0.35000000000000003;
              discountPercent := 5 |} /\
  (7 * (1 - 5 / 100) =? 6.6500000000000004)%float = false /\
  applyB402Discount (development None) (holderLib (development None) bronzeHolding)
    9007199254740989 "W" SlotMachine
  = Return {| discountedPrice := 8556839292003940; originalPrice := 9007199254740989;
              quoteTier := BRONZE; savings := 450359962737049.5;
              discountPercent := 5 |} /\
  (8556839292003940 + 450359962737049.5 =? 9007199254740989)%float = false.
Proof. repeat split. Qed.

(** ** Further properties *)

(** Outside production the flag does take effect: the mock branch answers
    without consulting the ledger. *)
Lemma mock_flag_effective_in_development :
  Solana.isMockPaymentsEnabled (development (Some "true")) = true /\
  verifyPayment (development (Some "true")) sampleLib everySecond 20
    (expectation (node [] found failsOnSecondPoll None))
  = (Some (Return {| resultSignature := "MOCK_R_VERIFIED"; resultAmount := 50000;
                     timestamp := 1700000000 |}), []).
Proof. split; reflexivity. Qed.

(** A result returned outside the mock branch belongs to the located
    signature, whose fetched transaction carries no error and passed the
    transfer validation for the expected recipient, amount, asset and
    reference. *)
Theorem verifyPayment_result_is_validated :
  forall env lib clock fuel params result,
    mockBranch env = false ->
    fst (verifyPayment env lib clock fuel params) = Some (Return result) ->
    exists info tx,
      findReferenceWithoutValidation (Solana.connection params) (reference params)
        = Return info /\
      getTransactionRaw (Solana.connection params) (fst info) = Return (Some tx) /\
      match meta tx with Some m => metaErr m | None => None end = None /\
      validateTransferManually lib tx (recipient params) (Solana.amount params)
        (splToken params) (reference params) = Return tt /\
      resultSignature result = fst info /\
      resultAmount result = Solana.amount params.
Proof.
  intros env lib clock fuel params result Mock. unfold verifyPayment. rewrite Mock.
  destruct (findReferenceWithoutValidation (Solana.connection params) (reference params))
    as [info|e]; [| discriminate].
  destruct (awaitConfirmation fuel (Solana.connection params) clock (clock 0%nat)
              (match timeout params with Some t => t | None => 30000%Z end)
              (fst info) 1 0) as [[[tick|e]|] seen]; simpl; try discriminate.
  destruct (getTransactionRaw (Solana.connection params) (fst info)) as [[tx|]|e] eqn:F;
    simpl; try discriminate.
  destruct (match meta tx with Some m => metaErr m | None => None end) eqn:M;
    simpl; try discriminate.
  destruct (validateTransferManually lib tx (recipient params) (Solana.amount params)
              (splToken params) (reference params)) as [[]|e] eqn:V;
    simpl; try discriminate.
  intros H. inversion H; subst result; simpl.
  exists info, tx. repeat split; auto.
Qed.

(** Scenario B: the transaction [T] references [R] and moves exactly 50000
    units to the merchant's USDC account. *)
Lemma verifyPayment_scenario_B :
  mockBranch (production None) = false /\
  fst (verifyPayment (production None) sampleLib everySecond 20
         (expectation (node [] found confirmedAtOnce (Some (payment keysWithReference 50000 None)))))
  = Some (Return {| resultSignature := "T"; resultAmount := 50000; timestamp := 1700000000 |}) /\
  validateTransferManually sampleLib (payment keysWithReference 50000 None) "M" 50000
    (Some USDC) "R" = Return tt.
Proof.
  assert (R : fst (verifyPayment (production None) sampleLib everySecond 20
                     (expectation (node [] found confirmedAtOnce
                                     (Some (payment keysWithReference 50000 None)))))
              = Some (Return {| resultSignature := "T"; resultAmount := 50000;
                                timestamp := 1700000000 |})) by reflexivity.
  split; [reflexivity | split; [exact R |]].
  destruct (verifyPayment_result_is_validated (production None) sampleLib everySecond 20
              (expectation (node [] found confirmedAtOnce
                              (Some (payment keysWithReference 50000 None))))
              _ eq_refl R) as [info [tx [_ [F [_ [V _]]]]]].
  inversion F; subst tx. exact V.
Defined.

(** The default retry decision: a message with a rate-limit or 5xx
    indicator is retried; a message with an insufficient-funds indicator is
    not retried, provided it carries none of the retryable indicators, which
    are looked for first. *)
Theorem defaultShouldRetry_classification :
  forall message attempt,
    (forall code,
        In code ["429"; "500"; "502"; "503"; "504"] ->
        includes (toLowerCase message) code = true ->
        Retry.defaultShouldRetry (Retry.ErrorObject message) attempt = true) /\
    (existsb (includes (toLowerCase message))
       ["429"; "500"; "502"; "503"; "504"; "timeout"; "network"; "econnreset";
        "enotfound"; "blockhash not found"; "node is behind"; "rpc"] = false ->
     includes (toLowerCase message) "insufficient" = true ->
     Retry.defaultShouldRetry (Retry.ErrorObject message) attempt = false).
Proof.
  intros message attempt. unfold Retry.defaultShouldRetry. split.
  - intros code I H.
    assert (E : existsb (includes (toLowerCase message))
                  ["429"; "500"; "502"; "503"; "504"; "timeout"; "network"; "econnreset";
                   "enotfound"; "blockhash not found"; "node is behind"; "rpc"] = true).
    { apply existsb_exists. exists code. split; [| exact H].
      simpl in I. simpl. intuition. }
    rewrite E. reflexivity.
  - intros N H. rewrite N. simpl. rewrite H. reflexivity.
Qed.

Lemma defaultShouldRetry_witness :
  Retry.defaultShouldRetry (Retry.ErrorObject "HTTP 502 Bad Gateway") 0 = true /\
  Retry.defaultShouldRetry (Retry.ErrorObject "Insufficient funds for fee") 0 = false /\
  Retry.defaultShouldRetry (Retry.ErrorObject "RPC error: insufficient funds") 0 = true.
Proof.
  split; [| split; [| reflexivity]].
  - apply (proj1 (defaultShouldRetry_classification "HTTP 502 Bad Gateway" 0%nat) "502");
      [simpl; auto | reflexivity].
  - apply (proj2 (defaultShouldRetry_classification "Insufficient funds for fee" 0%nat));
      reflexivity.
Defined.

(* ------------------------------------------------------------------ *)
(** * Properties of the further modules *)

Import ExtractPayer SolanaTransfers Ledgers Notions.

(** ** Validation of a SOL transfer *)

Lemma findIndex_first (p : AccountKey -> bool) (keys : list AccountKey) (i : nat) :
  findIndex p keys = Some i <->
  (exists key, nth_error keys i = Some key /\ p key = true) /\
  (forall j key, (j < i)%nat -> nth_error keys j = Some key -> p key = false).
Proof.
  revert i. induction keys as [|k rest IH]; intros i; simpl.
  - split; [discriminate|]. intros [[key [E _]] _]. destruct i; discriminate.
  - destruct (p k) eqn:P.
    + split.
      * intros E. inversion E; subst. split.
        -- exists k. split; [reflexivity | exact P].
        -- intros j key L. lia.
      * intros [[key [E Q]] F]. destruct i as [|i]; [reflexivity|].
        specialize (F O k). simpl in F. rewrite F in P; [discriminate | lia | reflexivity].
    + destruct (findIndex p rest) as [i'|] eqn:R.
      * split.
        -- intros E. inversion E; subst. destruct (proj1 (IH i') eq_refl) as [W F].
           split; [exact W|].
           intros [|j] key L E'; simpl in E'.
           ++ inversion E'; subst. exact P.
           ++ apply (F j); [lia | exact E'].
        -- intros [[key [E Q]] F]. destruct i as [|i].
           ++ simpl in E. inversion E; subst. congruence.
           ++ f_equal. assert (G : Some i' = Some i).
              { apply IH. split.
                - exists key. split; [exact E | exact Q].
                - intros j key' L E'. apply (F (S j)); [lia | exact E']. }
              inversion G. reflexivity.
      * split; [discriminate|].
        intros [[key [E Q]] F]. destruct i as [|i].
        -- simpl in E. inversion E; subst. congruence.
        -- exfalso. assert (G : None = Some i).
           { apply IH. split.
             - exists key. split; [exact E | exact Q].
             - intros j key' L E'. apply (F (S j)); [lia | exact E']. }
           discriminate.
Qed.

Lemma firstPosition_findIndex (keys : list AccountKey) (recipient : PublicKey) (i : nat) :
  findIndex (fun key => String.eqb (keyText key) recipient) keys = Some i <->
  firstPosition keys recipient i.
Proof.
  rewrite findIndex_first. unfold firstPosition. split.
  - intros [[key [E Q]] F]. split.
    + exists key. split; [exact E | apply String.eqb_eq; exact Q].
    + intros j key' L E'. apply String.eqb_neq. apply (F j); assumption.
  - intros [[key [E Q]] F]. split.
    + exists key. split; [exact E | apply String.eqb_eq; exact Q].
    + intros j key' L E'. apply String.eqb_neq. apply (F j); assumption.
Qed.

Lemma absDifference_le (a b bound : Z) :
  (absDifference a b >? bound)%Z = false <-> (Z.abs (a - b) <= bound)%Z.
Proof.
  unfold absDifference. destruct (a >? b)%Z eqn:G.
  - rewrite Z.gtb_ltb in G. apply Z.ltb_lt in G. rewrite Z.gtb_ltb, Z.ltb_ge. lia.
  - rewrite Z.gtb_ltb in G. apply Z.ltb_ge in G. rewrite Z.gtb_ltb, Z.ltb_ge. lia.
Qed.

(** A SOL transfer validates exactly when the recipient is among the
    account keys, the lamport balance at the first position where it stands
    grew, and the growth is within 1000000 lamports of the expected
    amount. *)
Theorem sol_transfer_accepted_within_tolerance
    (tx : RawTransaction) (m : Meta) (body : TransactionBody)
    (recipient : PublicKey) (expected : Z) :
  meta tx = Some m ->
  Web3.transaction tx = Some body ->
  (validateSolTransfer tx recipient expected = Return tt <->
   exists i, firstPosition (orEmpty (accountKeys (message body))) recipient i /\
             (0 < lamportsChange m i)%Z /\
             (Z.abs (lamportsChange m i - expected) <= 1000000)%Z).
Proof.
  intros M B. unfold validateSolTransfer, accountKeysOf. rewrite M, B. simpl.
  destruct (findIndex _ _) as [i|] eqn:F.
  - apply firstPosition_findIndex in F.
    fold (lamportsChange m i).
    destruct (lamportsChange m i <=? 0)%Z eqn:C.
    + apply Z.leb_le in C. split; [discriminate|].
      intros [j [P [G _]]]. apply firstPosition_findIndex in P, F.
      assert (j = i) by congruence. subst. lia.
    + apply Z.leb_gt in C.
      destruct (absDifference _ _ >? 1000000)%Z eqn:D.
      * split; [discriminate|].
        intros [j [P [_ A]]]. apply firstPosition_findIndex in P, F.
        assert (j = i) by congruence. subst.
        apply absDifference_le in A. congruence.
      * split; [|reflexivity]. intros _. exists i.
        split; [exact F|]. split; [exact C|]. apply absDifference_le. exact D.
  - split; [discriminate|].
    intros [j [P _]]. apply firstPosition_findIndex in P. congruence.
Qed.

Lemma sol_transfer_witness :
  validateSolTransfer (solPayment 1) "M" 1000000 = Return tt.
Proof.
  apply (proj2 (sol_transfer_accepted_within_tolerance (solPayment 1)
                  {| metaErr := None;
                     preBalances := Some [10000000; 250000; 1; 0]%Z;
                     postBalances := Some [9994999; 250001; 1; 0]%Z;
                     preTokenBalances := None;
                     postTokenBalances := None |}
                  {| message :=
                       {| accountKeys := Some (map KeyText ["payer"; "M"; "system"; "R"]) |} |}
                  "M" 1000000 eq_refl eq_refl)).
  exists 1%nat. split.
  - split.
    + exists (KeyText "M"). split; reflexivity.
    + intros j key L E. assert (j = O) by lia. subst j. inversion E. discriminate.
  - split; vm_compute; [reflexivity | discriminate].
Defined.

(** ** The signature that a verification judges *)

Lemma find_skips (A : Type) (p : A -> bool) (before : list A) (s : A) (after : list A) :
  forallb (fun a => negb (p a)) before = true ->
  p s = true ->
  find p (before ++ s :: after) = Some s.
Proof.
  intros N P. induction before as [|b before IH]; simpl.
  - rewrite P. reflexivity.
  - simpl in N. apply andb_prop in N. destruct N as [Nb N].
    apply negb_true_iff in Nb. rewrite Nb. apply IH. exact N.
Qed.

Lemma findReference_first_settled (conn : Connection) (reference : PublicKey)
    (before : list ConfirmedSignatureInfo) (s : ConfirmedSignatureInfo)
    (after : list ConfirmedSignatureInfo) :
  getSignaturesForAddress conn reference = Return (before ++ s :: after) ->
  forallb unsettled before = true ->
  settled (confirmationStatus s) = true ->
  findReferenceWithoutValidation conn reference =
  Return (Web3.signature s,
          match confirmationStatus s with Some c => c | None => Confirmed end).
Proof.
  intros G N P. unfold findReferenceWithoutValidation. rewrite G. simpl.
  rewrite (find_skips _ (fun sig => settled (confirmationStatus sig)) before s after N P).
  destruct (before ++ s :: after) eqn:E; [|reflexivity].
  destruct before; discriminate.
Qed.

Lemma awaitConfirmation_answering (fuel : nat) (conn : Connection)
    (signatures : list ConfirmedSignatureInfo) (clock : nat -> Z) (startTime limit : Z)
    (signature : string) (tick poll : nat) :
  awaitConfirmation fuel (answering conn signatures) clock startTime limit signature tick poll =
  awaitConfirmation fuel conn clock startTime limit signature tick poll.
Proof.
  revert tick poll. induction fuel as [|fuel IH]; intros tick poll; simpl; [reflexivity|].
  rewrite IH. reflexivity.
Qed.

(** Outside the mock branch [verifyPayment] judges the first signature
    of the reference that is confirmed or finalized, in the order in which
    the node lists them, and nothing else of the list: the outcome is the
    one for a node that lists this signature alone. *)
Theorem verifyPayment_judges_first_settled_signature
    (env : Env) (lib : Library) (clock : nat -> Z) (fuel : nat) (params : VerifyParams)
    (before : list ConfirmedSignatureInfo) (s : ConfirmedSignatureInfo)
    (after : list ConfirmedSignatureInfo) :
  mockBranch env = false ->
  getSignaturesForAddress (Solana.connection params) (reference params)
    = Return (before ++ s :: after) ->
  forallb unsettled before = true ->
  settled (confirmationStatus s) = true ->
  verifyPayment env lib clock fuel params =
  verifyPayment env lib clock fuel (through params (answering (Solana.connection params) [s])).
Proof.
  intros M G N P. unfold verifyPayment. rewrite M.
  rewrite (findReference_first_settled _ _ before s after G N P).
  rewrite (findReference_first_settled
             (Solana.connection (through params (answering (Solana.connection params) [s])))
             (reference (through params (answering (Solana.connection params) [s])))
             [] s [] eq_refl eq_refl P).
  simpl. rewrite awaitConfirmation_answering. reflexivity.
Qed.

Lemma verifyPayment_crowded_reference :
  verifyPayment (production None) sampleLib everySecond 5 (expectation crowdedArchive) =
  verifyPayment (production None) sampleLib everySecond 5
    (through (expectation crowdedArchive)
       (answering crowdedArchive [ {| signature := "C"; confirmationStatus := Some Confirmed |} ]))
  /\ fst (verifyPayment (production None) sampleLib everySecond 5 (expectation crowdedArchive))
     = Some (Throw (WrongAmount 50000 1 49999)).
Proof.
  split.
  - apply (verifyPayment_judges_first_settled_signature (production None) sampleLib everySecond 5
             (expectation crowdedArchive)
             [ {| signature := "D"; confirmationStatus := Some Processed |} ]
             {| signature := "C"; confirmationStatus := Some Confirmed |}
             [ {| signature := "T"; confirmationStatus := Some Finalized |} ]);
      reflexivity.
  - vm_compute. reflexivity.
Defined.

(** ** The confirmation loop ends *)

Lemma pollsWithin_covers (limit : Z) : (limit <= 2000 * Z.of_nat (pollsWithin limit))%Z.
Proof.
  unfold pollsWithin. destruct (Z_le_gt_dec limit 0) as [L|L].
  - lia.
  - rewrite Z2Nat.id by (apply Z.div_pos; lia).
    pose proof (Z.mul_succ_div_gt (limit + 1999) 2000 ltac:(lia)). lia.
Qed.

Lemma awaitConfirmation_ends (conn : Connection) (clock : nat -> Z) (limit : Z)
    (signature : string) (fuel : nat) :
  (forall k, (clock O + 2000 * Z.of_nat k <= clock (S k))%Z) ->
  forall tick poll,
    (1 <= tick)%nat -> (1 <= fuel)%nat -> (pollsWithin limit + 2 <= fuel + tick)%nat ->
    (exists r, fst (awaitConfirmation fuel conn clock (clock O) limit signature tick poll)
               = Some r) /\
    (List.length (snd (awaitConfirmation fuel conn clock (clock O) limit signature tick poll))
       + tick <= pollsWithin limit + 1)%nat \/
    (exists r, fst (awaitConfirmation fuel conn clock (clock O) limit signature tick poll)
               = Some r) /\
    snd (awaitConfirmation fuel conn clock (clock O) limit signature tick poll) = [].
Proof.
  intros Adv. induction fuel as [|fuel IH]; intros tick poll T F B; [lia|].
  simpl. destruct (clock tick - clock O <? limit)%Z eqn:C.
  - apply Z.ltb_lt in C.
    assert (Tb : (tick <= pollsWithin limit)%nat).
    { destruct tick as [|t]; [lia|]. pose proof (Adv t). pose proof (pollsWithin_covers limit).
      lia. }
    assert (Next :
      (exists r, fst (awaitConfirmation fuel conn clock (clock O) limit signature
                        (S tick) (S poll)) = Some r) /\
      (List.length (snd (awaitConfirmation fuel conn clock (clock O) limit signature
                           (S tick) (S poll))) + S tick <= pollsWithin limit + 1)%nat).
    { destruct (IH (S tick) (S poll)) as [[R L]|[R E]]; try lia.
      - split; assumption.
      - split; [exact R|]. rewrite E. simpl. lia. }
    destruct Next as [[r R] L].
    destruct (getSignatureStatus conn poll signature) as [status|e].
    + assert (Again :
        (exists r0,
           fst (let '(r1, obs) :=
                  awaitConfirmation fuel conn clock (clock O) limit signature (S tick) (S poll) in
                (r1, SawStatus poll status :: obs)) = Some r0) /\
        (List.length
           (snd (let '(r1, obs) :=
                   awaitConfirmation fuel conn clock (clock O) limit signature (S tick) (S poll) in
                 (r1, SawStatus poll status :: obs))) + tick <= pollsWithin limit + 1)%nat).
      { destruct (awaitConfirmation fuel conn clock (clock O) limit signature (S tick) (S poll))
          as [r1 obs]. simpl in *. split; [exists r; exact R | lia]. }
      destruct status as [value|]; [|left; exact Again].
      destruct (statusErr value).
      * left. split; [eexists; reflexivity | simpl; lia].
      * destruct (settled (statusConfirmation value)).
        -- left. split; [eexists; reflexivity | simpl; lia].
        -- left. exact Again.
    + right. split; [eexists; reflexivity | reflexivity].
  - right. split; [eexists; reflexivity | reflexivity].
Qed.

Lemma awaitConfirmation_times_out (conn : Connection) (clock : nat -> Z) (limit : Z)
    (signature : string) (fuel : nat) :
  (forall k, (clock O + 2000 * Z.of_nat k <= clock (S k))%Z) ->
  (forall poll, exists status,
      getSignatureStatus conn poll signature = Return status /\ keepsWaiting status) ->
  forall tick poll,
    (1 <= tick)%nat -> (1 <= fuel)%nat -> (pollsWithin limit + 2 <= fuel + tick)%nat ->
    fst (awaitConfirmation fuel conn clock (clock O) limit signature tick poll)
    = Some (Throw (ConfirmationTimeout limit signature)).
Proof.
  intros Adv Wait. induction fuel as [|fuel IH]; intros tick poll T F B; [lia|].
  simpl. destruct (clock tick - clock O <? limit)%Z eqn:C; [|reflexivity].
  apply Z.ltb_lt in C.
  assert (Tb : (tick <= pollsWithin limit)%nat).
  { destruct tick as [|t]; [lia|]. pose proof (Adv t). pose proof (pollsWithin_covers limit).
    lia. }
  destruct (Wait poll) as [status [G K]]. rewrite G.
  specialize (IH (S tick) (S poll) ltac:(lia) ltac:(lia) ltac:(lia)).
  destruct (awaitConfirmation fuel conn clock (clock O) limit signature (S tick) (S poll))
    as [r1 obs]. simpl in IH.
  destruct status as [value|]; [|exact IH].
  destruct K as [E S']. rewrite E, S'. exact IH.
Qed.

(** When the clock moves on by at least 2000 milliseconds from one
    status poll to the next, as the pauses of the loop make it, a
    verification outside the mock branch comes to an end with fuel for one
    round more than fit into the timeout, after at most that many status
    polls; and when the signature stays unconfirmed without an error at
    every poll, the end is the confirmation-timeout error. *)
Theorem verifyPayment_gives_up_at_the_timeout
    (env : Env) (lib : Library) (clock : nat -> Z) (fuel : nat) (params : VerifyParams)
    (limit : Z) :
  mockBranch env = false ->
  limit = match timeout params with Some t => t | None => 30000%Z end ->
  (forall k, (clock O + 2000 * Z.of_nat k <= clock (S k))%Z) ->
  (pollsWithin limit < fuel)%nat ->
  (exists outcome, fst (verifyPayment env lib clock fuel params) = Some outcome) /\
  (List.length (snd (verifyPayment env lib clock fuel params)) <= pollsWithin limit + 1)%nat /\
  (forall signature status,
     findReferenceWithoutValidation (Solana.connection params) (reference params)
       = Return (signature, status) ->
     (forall poll, exists answer,
         getSignatureStatus (Solana.connection params) poll signature = Return answer /\
         keepsWaiting answer) ->
     fst (verifyPayment env lib clock fuel params)
     = Some (Throw (ConfirmationTimeout limit signature))).
Proof.
  intros M L Adv F. unfold verifyPayment. rewrite M, <- L.
  destruct (findReferenceWithoutValidation _ _) as [[signature status]|e] eqn:R.
  - simpl fst.
    pose proof (awaitConfirmation_ends (Solana.connection params) clock limit signature fuel
                  Adv 1 0 ltac:(lia) ltac:(lia) ltac:(lia)) as Ends.
    assert (Bound :
      (exists r, fst (awaitConfirmation fuel (Solana.connection params) clock (clock O) limit
                        signature 1 0) = Some r) /\
      (List.length (snd (awaitConfirmation fuel (Solana.connection params) clock (clock O)
                           limit signature 1 0)) <= pollsWithin limit)%nat).
    { destruct Ends as [[E B]|[E B]]; split; try exact E; [lia | rewrite B; simpl; lia]. }
    clear Ends. destruct Bound as [[r E] B].
    split; [|split].
    + destruct (awaitConfirmation _ _ _ _ _ _ _ _) as [waited seen]. simpl in E. subst waited.
      destruct r as [tick|e]; [|eexists; reflexivity].
      destruct (getTransactionRaw _ _) as [[tx|]|e]; try (eexists; reflexivity).
      destruct (match meta tx with Some m => metaErr m | None => None end);
        [eexists; reflexivity|].
      destruct (validateTransferManually _ _ _ _ _ _); eexists; reflexivity.
    + destruct (awaitConfirmation _ _ _ _ _ _ _ _) as [waited seen]. simpl in E, B.
      subst waited.
      destruct r as [tick|e]; [|simpl; lia].
      destruct (getTransactionRaw _ _) as [[tx|]|e]; simpl; try lia;
        try (rewrite length_app; simpl; lia).
      destruct (match meta tx with Some m => metaErr m | None => None end);
        [simpl; rewrite length_app; simpl; lia|].
      destruct (validateTransferManually _ _ _ _ _ _); simpl; rewrite length_app; simpl; lia.
    + intros signature' status' Eq Wait. inversion Eq; subst signature' status'.
      pose proof (awaitConfirmation_times_out (Solana.connection params) clock limit signature
                    fuel Adv Wait 1 0 ltac:(lia) ltac:(lia) ltac:(lia)) as T.
      destruct (awaitConfirmation _ _ _ _ _ _ _ _) as [waited seen]. simpl in T. subst waited.
      reflexivity.
  - split; [eexists; reflexivity|]. split; [simpl; lia|].
    intros signature status Eq. discriminate.
Qed.

Lemma verifyPayment_timeout_witness :
  fst (verifyPayment (production None) sampleLib everySecond 16
         (expectation (node [] found (fun _ => None) None)))
  = Some (Throw (ConfirmationTimeout 30000 "T")).
Proof.
  apply (proj2 (proj2 (verifyPayment_gives_up_at_the_timeout (production None) sampleLib
                         everySecond 16 (expectation (node [] found (fun _ => None) None))
                         30000 eq_refl eq_refl
                         (fun k => ltac:(unfold everySecond; lia))
                         ltac:(vm_compute; lia)))
           "T" Confirmed eq_refl).
  intros poll. exists None. split; [reflexivity | exact I].
Defined.

(** ** What a payment template presupposes *)

(** [buildUsdcPaymentTransaction] returns a template only when the
    payer's USDC account exists and holds no less than the amount asked
    for, and the merchant's USDC account exists; the template then moves
    the amount in atomic units between these two accounts. *)
Theorem payment_template_only_for_funded_payer
    (lib : Library) (params : BuildUsdcPaymentTxParams) (template : VersionedTransaction) :
  buildUsdcPaymentTransaction lib params = Return template ->
  let mint := getUsdcMintForNetwork
                (match network params with Some n => n | None => MainnetBeta end) in
  exists payerATA merchantATA account amountAtomic,
    getAssociatedTokenAddress lib mint (payer params) = Return payerATA /\
    getAssociatedTokenAddress lib mint (merchant params) = Return merchantATA /\
    getAccount (TransactionBuilder.connection params) payerATA = Return account /\
    (atomicToUsdc (Web3.amount account) <? amountUsdc params)%float = false /\
    getAccountInfo (TransactionBuilder.connection params) merchantATA = Return (Some tt) /\
    usdcToAtomic (amountUsdc params) = Return amountAtomic /\
    In (TransferChecked payerATA mint merchantATA (payer params) amountAtomic 6 [])
       (messageInstructions template).
Proof.
  intros B mint. unfold buildUsdcPaymentTransaction in B. unfold usdcToAtomic, atomicToUsdc.
  assert (Mint : mint = match network params with
                        | Some Devnet => TransactionBuilder.USDC_MINT_DEVNET
                        | _ => TransactionBuilder.USDC_MINT_MAINNET
                        end).
  { unfold mint. destruct (network params) as [[|]|]; reflexivity. }
  rewrite <- Mint in B. clearbody mint. clear Mint.
  destruct (roundToBigInt _) as [amountAtomic|e] eqn:Round; [|discriminate].
  cbn [bind] in B.
  destruct (getAssociatedTokenAddress lib mint (payer params)) as [payerATA|e] eqn:PA;
    [|discriminate].
  cbn [tryCatch bind] in B.
  destruct (getAssociatedTokenAddress lib mint (merchant params)) as [merchantATA|e] eqn:MA;
    [|discriminate].
  cbn [tryCatch bind] in B.
  destruct (getAccount (TransactionBuilder.connection params) payerATA) as [account|e] eqn:GA.
  - cbn [tryCatch bind] in B.
    destruct (_ <? _)%float eqn:Low.
    + cbn [tryCatch bind saysCouldNotFind] in B. discriminate.
    + cbn [tryCatch bind] in B.
      destruct (getAccountInfo (TransactionBuilder.connection params) merchantATA)
        as [[[]|]|e] eqn:GI; try discriminate.
      cbn [bind] in B.
      destruct (getLatestBlockhash _ _) as [latest|e]; [|discriminate].
      cbn [bind] in B. inversion B; subst template.
      exists payerATA, merchantATA, account, amountAtomic.
      split; [reflexivity|]. split; [reflexivity|]. split; [exact GA|].
      split; [exact Low|]. split; [exact GI|]. split; [reflexivity|].
      simpl. right. right. left. reflexivity.
  - cbn [tryCatch bind] in B. destruct (saysCouldNotFind e); discriminate.
Qed.

Lemma payment_template_funded_witness :
  exists payerATA merchantATA account amountAtomic,
    getAssociatedTokenAddress sampleLib TransactionBuilder.USDC_MINT_MAINNET "payer"
      = Return payerATA /\
    getAssociatedTokenAddress sampleLib TransactionBuilder.USDC_MINT_MAINNET "M"
      = Return merchantATA /\
    getAccount (TransactionBuilder.connection (paymentRequest "payer")) payerATA
      = Return account /\
    (atomicToUsdc (Web3.amount account) <? 0.05)%float = false /\
    getAccountInfo (TransactionBuilder.connection (paymentRequest "payer")) merchantATA
      = Return (Some tt) /\
    usdcToAtomic 0.05 = Return amountAtomic /\
    In (TransferChecked payerATA TransactionBuilder.USDC_MINT_MAINNET merchantATA "payer"
          amountAtomic 6 [])
       [ SetComputeUnitLimit 40000; SetComputeUnitPrice 1;
         TransferChecked (ataOf USDC "payer") USDC (ataOf USDC "M") "payer" 50000 6 [] ].
Proof.
  apply (payment_template_only_for_funded_payer sampleLib (paymentRequest "payer")
           {| payerKey := PAYAI_FEE_PAYER;
              messageBlockhash := "blockhash-confirmed";
              messageInstructions :=
                [ SetComputeUnitLimit 40000; SetComputeUnitPrice 1;
                  TransferChecked (ataOf USDC "payer") USDC (ataOf USDC "M") "payer" 50000 6 [] ]
           |}).
  vm_compute. reflexivity.
Defined.

(** ** The retry loop *)

Lemma attempts_characterised (T : Type) (fn : nat -> T + Retry.Raised)
    (approx : float -> nat -> float) (random : nat -> float)
    (initialDelay maxDelay multiplier : float) (retryable : Retry.Raised -> nat -> bool)
    (remaining attempt : nat) :
  let run := Retry.attempts fn approx random initialDelay maxDelay multiplier retryable
               remaining attempt in
  let n := List.length (snd run) in
  (n <= remaining)%nat /\
  fst run = fn (attempt + n)%nat /\
  (forall k, (k < n)%nat ->
     exists error, fn (attempt + k)%nat = inr error /\ retryable error (attempt + k)%nat = true)
  /\
  (forall error, fst run = inr error ->
     n = remaining \/ retryable error (attempt + n)%nat = false).
Proof.
  revert attempt. induction remaining as [|remaining IH]; intros attempt; simpl.
  - destruct (fn attempt) as [v|error] eqn:F; simpl; rewrite Nat.add_0_r.
    + repeat split; [lia | auto | intros k L; lia | intros e E; discriminate].
    + repeat split; [lia | auto | intros k L; lia | intros e E; left; reflexivity].
  - destruct (fn attempt) as [v|error] eqn:F; simpl.
    + rewrite Nat.add_0_r. repeat split; [lia | auto | intros k L; lia | intros e E; discriminate].
    + destruct (retryable error attempt) eqn:R; simpl.
      * specialize (IH (S attempt)).
        destruct (Retry.attempts fn approx random initialDelay maxDelay multiplier retryable
                    remaining (S attempt)) as [r ds]. simpl in *.
        destruct IH as [L [E [A Z]]].
        replace (attempt + S (List.length ds))%nat with (S attempt + List.length ds)%nat by lia.
        repeat split.
        -- lia.
        -- exact E.
        -- intros [|k] Lk.
           ++ rewrite Nat.add_0_r. exists error. split; assumption.
           ++ replace (attempt + S k)%nat with (S attempt + k)%nat by lia.
              apply A. lia.
        -- intros e Ee. destruct (Z e Ee) as [Q|Q]; [left; lia | right; exact Q].
      * rewrite Nat.add_0_r.
        repeat split; [lia | auto | intros k L; lia |].
        intros e E. inversion E; subst. right. exact R.
Qed.



(** ** Waiting for a payment *)

Lemma prefix_append (needle s rest : string) :
  String.prefix needle s = true -> String.prefix needle (String.append s rest) = true.
Proof.
  revert s. induction needle as [|c needle IH]; intros s P;
    [destruct s; [destruct rest|]; reflexivity|].
  destruct s as [|d s]; simpl in *; [discriminate|].
  destruct (ascii_dec c d); [apply IH; exact P | discriminate].
Qed.

Lemma includes_unfold (s needle : string) :
  includes s needle =
  if String.prefix needle s then true
  else match s with
       | EmptyString => false
       | String _ rest => includes rest needle
       end.
Proof. destruct s; reflexivity. Qed.

Lemma includes_append_l (s rest needle : string) :
  includes s needle = true -> includes (String.append s rest) needle = true.
Proof.
  induction s as [|c s IH]; intros I.
  - destruct needle; [destruct rest; reflexivity | discriminate].
  - rewrite includes_unfold in I.
    change (String.append (String c s) rest) with (String c (String.append s rest)).
    rewrite includes_unfold.
    destruct (String.prefix needle (String c s)) eqn:P.
    + change (String c (String.append s rest)) with (String.append (String c s) rest).
      rewrite (prefix_append _ _ _ P). reflexivity.
    + rewrite (IH I). destruct (String.prefix needle (String c (String.append s rest)));
        reflexivity.
Qed.

Lemma includes_append_r (s rest needle : string) :
  includes rest needle = true -> includes (String.append s rest) needle = true.
Proof.
  intros I. induction s as [|c s IH]; [exact I|].
  change (String.append (String c s) rest) with (String c (String.append s rest)).
  rewrite includes_unfold, IH.
  destruct (String.prefix needle _); reflexivity.
Qed.

(** After [n] rounds from round [k] on that all ended with a not-found
    error, the loop goes on with round [k + n]. *)
Lemma waitLoop_skips (env : Env) (lib : Library) (params : WaitParams) (now : nat -> Z)
    (world : nat -> Attempt) (startTime limit : Z) (n : nat) :
  forall fuel k,
    (forall j, (j < n)%nat ->
       saidNotFound env lib params startTime limit now world (k + j)%nat) ->
    waitLoop (n + fuel) env lib params now world startTime limit k =
    (fst (waitLoop fuel env lib params now world startTime limit (k + n)),
     (n + snd (waitLoop fuel env lib params now world startTime limit (k + n)))%nat).
Proof.
  induction n as [|n IH]; intros fuel k H.
  - simpl. rewrite Nat.add_0_r. destruct (waitLoop _ _ _ _ _ _ _ _ _); reflexivity.
  - destruct (H O ltac:(lia)) as [T [e [V N]]]. rewrite Nat.add_0_r in T, V.
    simpl. apply Z.ltb_lt in T. rewrite T, V, N.
    rewrite (IH fuel (S k)).
    + replace (S k + n)%nat with (k + S n)%nat by lia. reflexivity.
    + intros j L. replace (S k + j)%nat with (k + S j)%nat by lia. apply H. lia.
Qed.

(** [waitForPayment] calls [verifyPayment] again as long as the call
    fails with an error whose message contains [not found]; this holds for
    a missing signature, and as well for a transaction that lacks the
    reference or the recipient.  After [n] such rounds the wait ends with
    its own timeout error once the time is up, with the result of the next
    verification if it succeeds, and with its error if that one does not
    say [not found]: so it does when the signatures of the reference are all
    unconfirmed. *)
Theorem waitForPayment_waits_while_not_found
    (env : Env) (lib : Library) (params : WaitParams) (start : Z) (now : nat -> Z)
    (world : nat -> Attempt) (n fuel : nat) (limit : Z) :
  limit = match waitTimeout params with Some t => t | None => 90000%Z end ->
  (forall j, (j < n)%nat -> saidNotFound env lib params start limit now world j) ->
  ((limit <= now n - start)%Z ->
   waitForPayment (n + S fuel) env lib params start now world = (Some WaitTimedOut, n)) /\
  (forall result,
     (now n - start < limit)%Z ->
     verifyAttempt env lib params (world n) = Some (Return result) ->
     waitForPayment (n + S fuel) env lib params start now world
     = (Some (Verified result), S n)) /\
  (forall e,
     (now n - start < limit)%Z ->
     verifyAttempt env lib params (world n) = Some (Throw e) ->
     saysNotFound e = Some false ->
     waitForPayment (n + S fuel) env lib params start now world
     = (Some (Rethrown e), S n)) /\
  saysNotFound PaymentNotFound = Some true /\
  saysNotFound ReferenceNotFound = Some true /\
  (forall recipient, saysNotFound (RecipientNotInAccounts recipient) = Some true) /\
  (forall signature, saysNotFound (ConfirmedTransactionNotFound signature) = Some true) /\
  saysNotFound NoConfirmedTransaction = Some false.
Proof.
  intros L H. unfold waitForPayment. rewrite <- L.
  rewrite (waitLoop_skips env lib params now world start limit n (S fuel) 0 H).
  simpl (0 + n)%nat.
  split; [|split; [|split]].
  - intros T. simpl. apply Z.ltb_ge in T. rewrite T. simpl. f_equal. lia.
  - intros result T V. simpl. apply Z.ltb_lt in T. rewrite T, V. simpl. f_equal. lia.
  - intros e T V N. simpl. apply Z.ltb_lt in T. rewrite T, V, N. simpl. f_equal. lia.
  - split; [reflexivity|]. split; [reflexivity|]. split; [|split; [|reflexivity]].
    + intros recipient. unfold saysNotFound, errorMessage, concat. apply f_equal.
      apply includes_append_r. apply includes_append_r. reflexivity.
    + intros signature. unfold saysNotFound, errorMessage, concat. apply f_equal.
      apply includes_append_l. reflexivity.
Qed.

Lemma waitForPayment_misdirected_witness :
  waitForPayment 4 (production None) sampleLib (waitRequest 6000) (everySecond 0) everySecond
    (fun _ => misdirected)
  = (Some WaitTimedOut, 3%nat).
Proof.
  assert (H : forall j, (j < 3)%nat ->
            saidNotFound (production None) sampleLib (waitRequest 6000) (everySecond 0) 6000
              everySecond (fun _ => misdirected) j).
  { intros j L. split.
    - unfold everySecond. lia.
    - exists ReferenceNotFound. split; reflexivity. }
  apply (proj1 (waitForPayment_waits_while_not_found (production None) sampleLib
                  (waitRequest 6000) (everySecond 0) everySecond (fun _ => misdirected)
                  3 0 6000 eq_refl H)).
  unfold everySecond. lia.
Defined.

Lemma waitLoop_answer (env : Env) (lib : Library) (params : WaitParams) (now : nat -> Z)
    (world : nat -> Attempt) (startTime limit : Z) :
  forall fuel k answer count,
    waitLoop fuel env lib params now world startTime limit k = (Some answer, count) ->
    (forall j, (j < count - 1)%nat ->
       saidNotFound env lib params startTime limit now world (k + j)%nat) /\
    match answer with
    | Verified result =>
        (1 <= count)%nat /\
        (now (k + (count - 1))%nat - startTime < limit)%Z /\
        verifyAttempt env lib params (world (k + (count - 1))%nat) = Some (Return result)
    | Rethrown e =>
        (1 <= count)%nat /\
        (now (k + (count - 1))%nat - startTime < limit)%Z /\
        verifyAttempt env lib params (world (k + (count - 1))%nat) = Some (Throw e) /\
        saysNotFound e = Some false
    | WaitTimedOut =>
        (limit <= now (k + count)%nat - startTime)%Z /\
        (1 <= count -> saidNotFound env lib params startTime limit now world
                         (k + (count - 1))%nat)%nat
    end.
Proof.
  induction fuel as [|fuel IH]; intros k answer count W; [discriminate|].
  simpl in W. destruct (now k - startTime <? limit)%Z eqn:T.
  - apply Z.ltb_lt in T.
    destruct (verifyAttempt env lib params (world k)) as [[result|e]|] eqn:V.
    + inversion W; subst. simpl. rewrite Nat.add_0_r.
      split; [intros j L; lia|]. split; [lia|]. split; assumption.
    + destruct (saysNotFound e) as [[|]|] eqn:N.
      * destruct (waitLoop fuel env lib params now world startTime limit (S k))
          as [r c] eqn:R.
        inversion W; subst. destruct (IH (S k) answer c R) as [Before Last].
        assert (Here : saidNotFound env lib params startTime limit now world k).
        { split; [exact T|]. exists e. split; assumption. }
        split.
        -- intros [|j] L.
           ++ rewrite Nat.add_0_r. exact Here.
           ++ replace (k + S j)%nat with (S k + j)%nat by lia. apply Before. lia.
        -- destruct answer as [result|e'|].
           ++ destruct Last as [C [T' V']]. split; [lia|].
              replace (k + (S c - 1))%nat with (S k + (c - 1))%nat by lia.
              split; assumption.
           ++ destruct Last as [C [T' [V' N']]]. split; [lia|].
              replace (k + (S c - 1))%nat with (S k + (c - 1))%nat by lia.
              split; [|split]; assumption.
           ++ destruct Last as [T' P]. split.
              ** replace (k + S c)%nat with (S k + c)%nat by lia. exact T'.
              ** intros _. destruct c as [|c].
                 --- simpl. rewrite Nat.add_0_r. exact Here.
                 --- replace (k + (S (S c) - 1))%nat with (S k + (S c - 1))%nat by lia.
                     apply P. lia.
      * inversion W; subst. simpl. rewrite Nat.add_0_r.
        split; [intros j L; lia|]. split; [lia|]. split; [|split]; assumption.
      * discriminate.
    + discriminate.
  - apply Z.ltb_ge in T. inversion W; subst. rewrite Nat.add_0_r.
    split; [intros j L; lia|]. split; [exact T | intros L; lia].
Qed.

(** What [waitForPayment] answers has been earned: a result is the one
    that the last call of [verifyPayment] returned, an error thrown again is
    the one of the last call and its message does not contain [not found],
    and the timeout error comes only when the time is up at the start of a
    round; every round before the last one failed with a not-found
    error. *)
Theorem waitForPayment_answer_is_earned
    (env : Env) (lib : Library) (params : WaitParams) (start : Z) (now : nat -> Z)
    (world : nat -> Attempt) (fuel : nat) (answer : Waited) (count : nat) (limit : Z) :
  limit = match waitTimeout params with Some t => t | None => 90000%Z end ->
  waitForPayment fuel env lib params start now world = (Some answer, count) ->
  (forall j, (j < count - 1)%nat -> saidNotFound env lib params start limit now world j) /\
  match answer with
  | Verified result =>
      (1 <= count)%nat /\
      (now (count - 1)%nat - start < limit)%Z /\
      verifyAttempt env lib params (world (count - 1)%nat) = Some (Return result)
  | Rethrown e =>
      (1 <= count)%nat /\
      (now (count - 1)%nat - start < limit)%Z /\
      verifyAttempt env lib params (world (count - 1)%nat) = Some (Throw e) /\
      saysNotFound e = Some false
  | WaitTimedOut =>
      (limit <= now count - start)%Z /\
      (1 <= count -> saidNotFound env lib params start limit now world (count - 1)%nat)%nat
  end.
Proof.
  intros L W. unfold waitForPayment in W. rewrite <- L in W.
  exact (waitLoop_answer env lib params now world start limit fuel 0 answer count W).
Qed.

Lemma waitForPayment_arrival_witness :
  (forall j, (j < 2 - 1)%nat ->
     saidNotFound (production None) sampleLib (waitRequest 6000) (everySecond 0) 6000
       everySecond arriving j) /\
  (1 <= 2)%nat /\
  (everySecond (2 - 1) - everySecond 0 < 6000)%Z /\
  verifyAttempt (production None) sampleLib (waitRequest 6000) (arriving (2 - 1))
  = Some (Return {| resultSignature := "T"; resultAmount := 50000;
                    timestamp := 1700000000 |}).
Proof.
  apply (waitForPayment_answer_is_earned (production None) sampleLib (waitRequest 6000)
           (everySecond 0) everySecond arriving 4
           (Verified {| resultSignature := "T"; resultAmount := 50000;
                        timestamp := 1700000000 |})
           2 6000 eq_refl).
  vm_compute. reflexivity.
Defined.

(** ** The payer of a transaction *)

Lemma extractPayer_returns (fetched : Outcome (option ParsedMessage)) :
  exists payer, extractPayerFromTransaction fetched = Return payer.
Proof.
  unfold extractPayerFromTransaction.
  destruct (bind fetched _) as [payer|e]; eexists; reflexivity.
Qed.

(** [extractPayerFromTransaction] never throws: whatever goes wrong
    ends in null.  When an account of the transaction signed, the payer is
    the first account that did, whatever the instructions say. *)
Theorem extractPayer_is_first_signer (fetched : Outcome (option ParsedMessage)) :
  (exists payer, extractPayerFromTransaction fetched = Return payer) /\
  (forall message keys a,
     fetched = Return (Some message) ->
     parsedAccountKeys message = Some keys ->
     firstSigner keys a ->
     extractPayerFromTransaction fetched = Return (Some (accountPubkey a))) /\
  (forall message keys,
     fetched = Return (Some message) ->
     parsedAccountKeys message = Some keys ->
     forallb (fun account => negb (signer account)) keys = true ->
     forall payer, extractPayerFromTransaction fetched = Return (Some payer) ->
     exists instructions,
       parsedInstructions message = Some instructions /\
       payerOfInstructions instructions = Return (Some payer)).
Proof.
  split; [|split].
  - apply extractPayer_returns.
  - intros message keys a F K [before [after [E [N S']]]]. subst fetched keys.
    unfold extractPayerFromTransaction. simpl. rewrite K.
    rewrite (find_skips _ signer before a after N S'). reflexivity.
  - intros message keys F K N payer E. subst fetched.
    unfold extractPayerFromTransaction in E. simpl in E. rewrite K in E.
    assert (None' : find signer keys = None).
    { clear K E. induction keys as [|k keys IH]; [reflexivity|].
      simpl in *. apply andb_prop in N. destruct N as [Nk N].
      apply negb_true_iff in Nk. rewrite Nk. apply IH. exact N. }
    rewrite None' in E.
    destruct (parsedInstructions message) as [instructions|]; [|discriminate].
    exists instructions. split; [reflexivity|].
    destruct (payerOfInstructions instructions) as [r|e]; simpl in E; [|discriminate].
    exact E.
Qed.

Lemma extractPayer_witness :
  extractPayerFromTransaction (Return (Some signedBySecond)) = Return (Some "payer").
Proof.
  apply (proj1 (proj2 (extractPayer_is_first_signer (Return (Some signedBySecond))))
           signedBySecond _
           {| accountPubkey := "payer"; signer := true; writable := true |}
           eq_refl eq_refl).
  exists [ {| accountPubkey := "relay"; signer := false; writable := true |} ],
         [ {| accountPubkey := "cosigner"; signer := true; writable := false |} ].
  repeat split.
Defined.

Lemma retryExtraction_once (fetch : nat -> Outcome (option ParsedMessage))
    (remaining attempt : nat) :
  retryExtraction fetch remaining attempt =
  match remaining with
  | O => (Return None, O, [])
  | S _ =>
      (match extractPayerFromTransaction (fetch attempt) with
       | Return (Some text) => Return (if String.eqb text "" then None else Some text)
       | _ => Return None
       end, 1%nat, [])
  end.
Proof.
  destruct remaining as [|remaining]; [reflexivity|]. simpl.
  destruct (extractPayer_returns (fetch attempt)) as [payer E].
  rewrite E. destruct payer; reflexivity.
Qed.

(** [extractPayerWithRetry] never retries: it makes one extraction
    when [maxRetries] is positive and none otherwise, it never pauses, and
    what it returns is decided by the first answer of the node; when that
    answer is a failure of the RPC call, the result is null. *)
Theorem extractPayerWithRetry_never_retries
    (fetch : nat -> Outcome (option ParsedMessage)) (maxRetries : option Z) :
  let run := extractPayerWithRetry fetch maxRetries in
  let attempts := snd (fst run) in
  let limit := match maxRetries with Some n => n | None => 3%Z end in
  attempts = (if (0 <? limit)%Z then 1%nat else 0%nat) /\
  snd run = [] /\
  (forall e, fetch O = Throw e -> fst (fst run) = Return None) /\
  (forall fetch', fetch' O = fetch O -> extractPayerWithRetry fetch' maxRetries = run).
Proof.
  unfold extractPayerWithRetry.
  set (limit := match maxRetries with Some n => n | None => 3%Z end).
  cbv zeta. rewrite retryExtraction_once.
  destruct (Z.to_nat limit) as [|r] eqn:R.
  - assert (L : (0 <? limit)%Z = false) by (apply Z.ltb_ge; lia). rewrite L.
    split; [reflexivity|]. split; [reflexivity|]. split; [reflexivity|].
    intros fetch' E. rewrite retryExtraction_once. reflexivity.
  - assert (L : (0 <? limit)%Z = true) by (apply Z.ltb_lt; lia). rewrite L.
    split; [reflexivity|]. split; [reflexivity|]. split.
    + intros e E. simpl. rewrite E. reflexivity.
    + intros fetch' E. rewrite retryExtraction_once, E. reflexivity.
Qed.

Lemma extractPayerWithRetry_witness :
  extractPayerWithRetry outOfReachOnce None = (Return None, 1%nat, []).
Proof.
  destruct (extractPayerWithRetry_never_retries outOfReachOnce None) as [A [P [N _]]].
  specialize (N (LibError "FetchError" "socket hang up") eq_refl).
  destruct (extractPayerWithRetry outOfReachOnce None) as [[result attempts] pauses].
  simpl in A, P, N. subst. reflexivity.
Defined.

(** ** The split of a transfer between creator and platform *)

Lemma bigIntOfNumber_positive (x : float) (z : Z) :
  (0 <? x)%float = true -> bigIntOfNumber x = Return z -> (0 <= z)%Z.
Proof.
  intros P B. unfold bigIntOfNumber in B.
  rewrite ltb_spec in P. unfold SFltb, SFcompare in P.
  change (Prim2SF 0) with (S754_zero false) in P.
  destruct (Prim2SF x) as [s|s| |s m e]; try discriminate.
  destruct s; [discriminate|]. cbn [cond_Zopp] in B.
  destruct (0 <=? e)%Z eqn:E.
  - assert (Z' : z = (Z.pos m * 2 ^ e)%Z) by congruence. rewrite Z'.
    apply Z.mul_nonneg_nonneg; [lia|]. apply Z.pow_nonneg. lia.
  - destruct (Z.pos m mod 2 ^ (- e) =? 0)%Z; [|discriminate].
    assert (Z' : z = (Z.pos m / 2 ^ (- e))%Z) by congruence. rewrite Z'.
    apply Z.div_pos; [lia|]. apply Z.pow_pos_nonneg; lia.
Qed.

Lemma splitAmount_conserves (params : TransferParams) (creatorAmount platformAmount : Z) :
  splitAmount params = Return (creatorAmount, platformAmount) ->
  (creatorAmount + platformAmount = transferAmount params)%Z /\
  ((0 <= transferAmount params)%Z -> (0 <= platformAmount)%Z).
Proof.
  unfold splitAmount. intros S'.
  destruct (transferPlatformWallet params); [|inversion S'; split; lia].
  destruct (0 <? _)%float eqn:P; [|inversion S'; split; lia].
  destruct (bigIntOfNumber _) as [factor|e] eqn:B; [|discriminate].
  simpl in S'. inversion S'; subst. split; [lia|].
  intros A. pose proof (bigIntOfNumber_positive _ _ P B).
  apply Z.quot_pos; [|lia]. apply Z.mul_nonneg_nonneg; assumption.
Qed.

Lemma getOrCreateTokenAccount_moves_nothing (env : Env) (lib : Library) (conn : Connection)
    (payer owner : PublicKey) (mint : option PublicKey) (info : PublicKey * option Instruction) :
  getOrCreateTokenAccount env lib conn payer owner mint = Return info ->
  flat_map (fun i => match i with
                     | TransferChecked _ _ _ _ amount _ _ => [amount]
                     | _ => []
                     end) (optionToList (snd info)) = [].
Proof.
  unfold getOrCreateTokenAccount. intros G.
  destruct (match mint with Some m => Return m | None => getUsdcMint env lib None end)
    as [tokenMint|e]; [|discriminate].
  simpl in G. destruct (getAssociatedTokenAddress lib tokenMint owner) as [ata|e];
    [|discriminate].
  simpl in G. destruct (getAccount conn ata); simpl in G; inversion G; reflexivity.
Qed.

(** A template that [buildUsdcTransferTransaction] returns moves the
    creator's share and, when it is positive, the platform's share; the two
    shares add up to the amount, and for an amount that is not negative the
    token amounts of the template add up to it; the platform's share is the
    amount times the basis points, divided by 10000 and truncated. *)
Theorem usdc_transfer_split_adds_up
    (env : Env) (lib : Library) (params : TransferParams) (tx : Transaction) :
  buildUsdcTransferTransaction env lib params = Return tx ->
  exists creatorAmount platformAmount,
    splitAmount params = Return (creatorAmount, platformAmount) /\
    (creatorAmount + platformAmount = transferAmount params)%Z /\
    tokenAmounts tx =
      creatorAmount ::
      (if andb (match transferPlatformWallet params with Some _ => true | None => false end)
               (platformAmount >? 0)%Z
       then [platformAmount] else []) /\
    ((0 <= transferAmount params)%Z -> total (tokenAmounts tx) = transferAmount params) /\
    (forall wallet factor,
       transferPlatformWallet params = Some wallet ->
       (0 <? match platformFeeBps params with Some b => b | None => 0%float end)%float = true ->
       bigIntOfNumber (match platformFeeBps params with Some b => b | None => 0%float end)
         = Return factor ->
       platformAmount = Z.quot (transferAmount params * factor) 10000).
Proof.
  unfold buildUsdcTransferTransaction. intros B.
  destruct (getUsdcMint env lib None) as [usdcMint|e]; [|discriminate].
  cbn [bind] in B.
  destruct (splitAmount params) as [[creatorAmount platformAmount]|e] eqn:S'; [|discriminate].
  cbn [bind fst snd] in B.
  destruct (getAssociatedTokenAddress lib usdcMint (sender params)) as [senderATA|e];
    [|discriminate].
  cbn [bind] in B.
  destruct (getOrCreateTokenAccount env lib (transferConnection params) (sender params)
              (transferRecipient params) (Some usdcMint)) as [recipientInfo|e] eqn:RI;
    [|discriminate].
  cbn [bind] in B.
  pose proof (getOrCreateTokenAccount_moves_nothing _ _ _ _ _ _ _ RI) as RN.
  destruct (splitAmount_conserves _ _ _ S') as [Sum Pos].
  exists creatorAmount, platformAmount.
  split; [reflexivity|]. split; [exact Sum|].
  assert (Amounts :
    tokenAmounts tx =
      creatorAmount ::
      (if andb (match transferPlatformWallet params with Some _ => true | None => false end)
               (platformAmount >? 0)%Z
       then [platformAmount] else [])).
  { destruct (transferPlatformWallet params) as [wallet|].
    - destruct (platformAmount >? 0)%Z eqn:G.
      + destruct (getOrCreateTokenAccount env lib (transferConnection params) (sender params)
                    wallet (Some usdcMint)) as [platformInfo|e] eqn:PI; [|discriminate].
        cbn [bind] in B.
        pose proof (getOrCreateTokenAccount_moves_nothing _ _ _ _ _ _ _ PI) as PN.
        destruct (getLatestBlockhash _ _) as [latest|e]; [|discriminate].
        cbn [bind] in B. inversion B; subst tx. unfold tokenAmounts. cbn [instructions].
        rewrite flat_map_app, RN. cbn [flat_map app]. rewrite flat_map_app, flat_map_app, PN.
        unfold memoInstructions.
        destruct (transferMemo params) as [text|]; [destruct (String.eqb text "")|];
          reflexivity.
      + cbn [bind] in B.
        destruct (getLatestBlockhash _ _) as [latest|e]; [|discriminate].
        cbn [bind] in B. inversion B; subst tx. unfold tokenAmounts. cbn [instructions].
        rewrite flat_map_app, RN. cbn [flat_map app].
        unfold memoInstructions.
        destruct (transferMemo params) as [text|]; [destruct (String.eqb text "")|];
          reflexivity.
    - cbn [bind] in B.
      destruct (getLatestBlockhash _ _) as [latest|e]; [|discriminate].
      cbn [bind] in B. inversion B; subst tx. unfold tokenAmounts. cbn [instructions].
      rewrite flat_map_app, RN. cbn [flat_map app].
      unfold memoInstructions.
      destruct (transferMemo params) as [text|]; [destruct (String.eqb text "")|];
        reflexivity. }
  split; [exact Amounts|]. split.
  - intros A. rewrite Amounts. specialize (Pos A).
    destruct (transferPlatformWallet params) as [wallet|] eqn:W.
    + destruct (platformAmount >? 0)%Z eqn:G; unfold total; simpl.
      * lia.
      * rewrite Z.gtb_ltb in G. apply Z.ltb_ge in G. lia.
    + unfold splitAmount in S'. rewrite W in S'. inversion S'. unfold total. simpl. lia.
  - intros wallet factor W P F. unfold splitAmount in S'. rewrite W, P, F in S'.
    simpl in S'. inversion S'. reflexivity.
Qed.

Lemma usdc_transfer_split_witness :
  exists creatorAmount platformAmount,
    splitAmount transferWithFee = Return (creatorAmount, platformAmount) /\
    (creatorAmount + platformAmount = 1000000)%Z /\
    [975000; 25000]%Z =
      creatorAmount :: (if andb true (platformAmount >? 0)%Z then [platformAmount] else []) /\
    ((0 <= 1000000)%Z -> total [975000; 25000]%Z = 1000000%Z) /\
    (forall wallet factor,
       Some "P" = Some wallet ->
       (0 <? 250)%float = true ->
       bigIntOfNumber 250 = Return factor ->
       platformAmount = Z.quot (1000000 * factor) 10000).
Proof.
  apply (usdc_transfer_split_adds_up noVariables sampleLib transferWithFee
           {| instructions :=
                [ CreateAssociatedTokenAccount "S" (ataOf USDC "M") "M" USDC;
                  TransferChecked (ataOf USDC "S") USDC (ataOf USDC "M") "S" 975000 6
                    [referenceKey "R"];
                  CreateAssociatedTokenAccount "S" (ataOf USDC "P") "P" USDC;
                  TransferChecked (ataOf USDC "S") USDC (ataOf USDC "P") "S" 25000 6 [] ];
              recentBlockhash := "blockhash-finalized";
              feePayer := "S";
              txLastValidBlockHeight := 1000 |}).
  vm_compute. reflexivity.
Defined.

(** ** The display form of a key *)

Lemma length_append (s t : string) :
  String.length (String.append s t) = (String.length s + String.length t)%nat.
Proof. induction s as [|c s IH]; simpl; [reflexivity | rewrite IH; reflexivity]. Qed.

Lemma length_substring (n m : nat) (s : string) :
  (n + m <= String.length s)%nat -> String.length (String.substring n m s) = m.
Proof.
  revert n m. induction s as [|c s IH]; intros n m L; simpl in L.
  - assert (n = O) by lia. assert (m = O) by lia. subst. reflexivity.
  - destruct n as [|n]; simpl.
    + destruct m as [|m]; [reflexivity|]. simpl. f_equal. apply IH. lia.
    + apply IH. lia.
Qed.

(** [formatPublicKey] leaves a key of at most [2 * chars] characters
    as it is; a longer key becomes its first [chars] characters, three dots
    and its last [chars] characters, a text of [2 * chars + 3] characters:
    longer than the key itself when the key has fewer than [2 * chars + 3]
    characters.  With [chars = 0] the result is the three dots followed by
    the whole key. *)
Theorem formatPublicKey_shape (key : string) (chars : nat) :
  ((String.length key <= 2 * chars)%nat -> formatPublicKey key chars = key) /\
  ((2 * chars < String.length key)%nat ->
   formatPublicKey key chars =
     String.append (String.substring 0 chars key)
       (String.append "..." (sliceLast chars key))) /\
  ((2 * chars < String.length key)%nat -> (0 < chars)%nat ->
   String.length (formatPublicKey key chars) = (2 * chars + 3)%nat /\
   sliceLast chars key = String.substring (String.length key - chars) chars key) /\
  ((0 < String.length key)%nat ->
   formatPublicKey key 0 = String.append "..." key).
Proof.
  unfold formatPublicKey, sliceTo.
  split; [|split; [|split]].
  - intros L. replace (chars * 2)%nat with (2 * chars)%nat by lia.
    apply Nat.leb_le in L. rewrite L. reflexivity.
  - intros L. replace (chars * 2)%nat with (2 * chars)%nat by lia.
    pose proof L as L'. apply Nat.leb_gt in L'. rewrite L'.
    replace (Nat.min chars (String.length key)) with chars by lia. reflexivity.
  - intros L P. replace (chars * 2)%nat with (2 * chars)%nat by lia.
    pose proof L as L'. apply Nat.leb_gt in L'. rewrite L'.
    replace (Nat.min chars (String.length key)) with chars by lia.
    assert (Last : sliceLast chars key
                   = String.substring (String.length key - chars) chars key).
    { destruct chars; [lia | reflexivity]. }
    split; [|exact Last].
    rewrite Last, length_append, length_append.
    rewrite length_substring by lia. rewrite length_substring by lia. simpl. lia.
  - intros P. simpl.
    destruct (String.length key) eqn:E; [lia|]. simpl.
    destruct key; reflexivity.
Qed.

Lemma formatPublicKey_witness :
  formatPublicKey "EPjFWdd5AufqSSqeM2qN1xzybapC8G4wEGGkZwyTDt1v" 4 = "EPjF...Dt1v" /\
  formatPublicKey "123456789" 4 = "1234...6789" /\
  formatPublicKey "12345678" 4 = "12345678" /\
  formatPublicKey "1" 0 = "...1".
Proof.
  split; [|split; [|split]].
  - rewrite (proj1 (proj2 (formatPublicKey_shape
                             "EPjFWdd5AufqSSqeM2qN1xzybapC8G4wEGGkZwyTDt1v" 4)));
      [reflexivity | simpl; lia].
  - rewrite (proj1 (proj2 (formatPublicKey_shape "123456789" 4)));
      [reflexivity | simpl; lia].
  - apply (proj1 (formatPublicKey_shape "12345678" 4)). simpl. lia.
  - apply (proj2 (proj2 (proj2 (formatPublicKey_shape "1" 0)))). simpl. lia.
Defined.

(** ** The validated environment *)

Import Environment.

(** The configuration that [validateEnv] returns reports
    [MOCK_PAYMENTS] as set whenever the variable is [true], in production
    as well, where both [isMockPaymentsEnabled] helpers answer false; and
    [validateEnv] fails exactly when [DATABASE_URL] or [ONCHAIN_API_KEY] is
    unset or empty, naming the ones that are. *)
Theorem validated_mock_flag_ignores_production (env : Env) :
  (forall config,
     validateEnv env = inl config ->
     MOCK_PAYMENTS config = envIs env "MOCK_PAYMENTS" "true" /\
     (isProduction env = true ->
      Config.isMockPaymentsEnabled env = false /\ Solana.isMockPaymentsEnabled env = false)) /\
  ((exists config, validateEnv env = inl config) <->
   truthy (env "DATABASE_URL") = true /\ truthy (env "ONCHAIN_API_KEY") = true) /\
  (forall missing,
     validateEnv env = inr missing ->
     forall key, In key missing <->
                 In key ["DATABASE_URL"; "ONCHAIN_API_KEY"] /\ truthy (env key) = false).
Proof.
  unfold validateEnv, REQUIRED_ENV_VARS.
  split; [|split].
  - intros config V. split.
    + destruct (filter _ _); [|discriminate]. inversion V. reflexivity.
    + intros P. unfold Config.isMockPaymentsEnabled, Solana.isMockPaymentsEnabled.
      rewrite P. unfold isProduction in P. rewrite P. split; [reflexivity|].
      apply andb_false_r.
  - simpl. destruct (truthy (env "DATABASE_URL")), (truthy (env "ONCHAIN_API_KEY")); simpl;
      split; try (intros [config V]; discriminate); try (intros [A B]; discriminate);
      try (intros _; eexists; reflexivity); intros _; split; reflexivity.
  - intros missing V key.
    assert (M : missing = filter (fun key => negb (truthy (env key)))
                            ["DATABASE_URL"; "ONCHAIN_API_KEY"]).
    { destruct (filter _ _); [discriminate | inversion V; reflexivity]. }
    rewrite M, filter_In, negb_true_iff. reflexivity.
Qed.

Lemma validated_mock_flag_witness :
  MOCK_PAYMENTS
    {| DATABASE_URL := Some "postgres://db"; ONCHAIN_API_KEY := Some "key";
       ONCHAIN_API_URL := "https://api.onchain.fi/v1";
       NEXT_PUBLIC_SOLANA_NETWORK := "devnet";
       NEXT_PUBLIC_SOLANA_RPC_URL := None; NEXT_PUBLIC_USDC_MINT := None;
       NEXT_PUBLIC_APP_URL := "http://localhost:3000";
       NEXT_PUBLIC_APP_DOMAIN := "localhost";
       OPENAI_API_KEY := None; DEEPAI_API_KEY := None; SCREENSHOT_API_KEY := None;
       SLOT_MACHINE_PAYOUT_PRIVATE_KEY := None; ADMIN_API_KEY := None;
       MOCK_PAYMENTS := true; NODE_ENV := "production" |} = true /\
  Config.isMockPaymentsEnabled forgottenFlag = false /\
  Solana.isMockPaymentsEnabled forgottenFlag = false.
Proof.
  destruct (proj1 (validated_mock_flag_ignores_production forgottenFlag) _ eq_refl)
    as [Flag Helpers].
  split; [exact Flag | exact (Helpers eq_refl)].
Defined.

Lemma getEnvs_cached (config : EnvConfig) (envs : list Env) :
  forall answer, In answer (getEnvs (Some config) envs) -> answer = inl config.
Proof.
  induction envs as [|env envs IH]; intros answer I; simpl in I; [contradiction|].
  destruct I as [E|I]; [symmetry; exact E | apply IH; exact I].
Qed.

(** [getEnv] validates until a configuration is accepted and answers
    with that one ever after, whatever has become of the environment: a
    failed validation is not remembered, an accepted configuration is
    never validated again. *)
Theorem getEnv_keeps_first_accepted_configuration (env : Env) (envs : list Env) :
  (forall config,
     validateEnv env = inl config ->
     getEnvs None (env :: envs) = inl config :: getEnvs (Some config) envs /\
     forall answer, In answer (getEnvs None (env :: envs)) -> answer = inl config) /\
  (forall missing,
     validateEnv env = inr missing ->
     getEnvs None (env :: envs) = inr missing :: getEnvs None envs).
Proof.
  split.
  - intros config V. simpl. rewrite V. split; [reflexivity|].
    intros answer [E|I]; [symmetry; exact E | apply (getEnvs_cached config envs); exact I].
  - intros missing V. simpl. rewrite V. reflexivity.
Qed.

Lemma getEnv_witness :
  getEnvs None [forgottenFlag; noVariables; development None]
  = [ validateEnv forgottenFlag; validateEnv forgottenFlag; validateEnv forgottenFlag ]
  /\ getEnvs None [noVariables; forgottenFlag]
     = [ inr ["DATABASE_URL"; "ONCHAIN_API_KEY"]; validateEnv forgottenFlag ].
Proof.
  split.
  - rewrite (proj1 (proj1 (getEnv_keeps_first_accepted_configuration forgottenFlag
                             [noVariables; development None]) _ eq_refl)).
    reflexivity.
  - rewrite (proj2 (getEnv_keeps_first_accepted_configuration noVariables [forgottenFlag])
               ["DATABASE_URL"; "ONCHAIN_API_KEY"] eq_refl).
    reflexivity.
Defined.

(** Which USDC mint is used: a non-empty [NEXT_PUBLIC_USDC_MINT]
    overrides the network, also one that the caller names; without it and
    without [NEXT_PUBLIC_SOLANA_NETWORK], [getUsdcMint] falls back to the
    mainnet mint, while [getSolanaNetwork] and the validated configuration
    both say [devnet]. *)
Theorem usdc_mint_selection (env : Env) (lib : Library) :
  (truthy (env "NEXT_PUBLIC_USDC_MINT") = true ->
   forall network,
     getUsdcMint env lib network
     = newPublicKey lib (orElse (env "NEXT_PUBLIC_USDC_MINT") "")) /\
  (truthy (env "NEXT_PUBLIC_USDC_MINT") = false ->
   truthy (env "NEXT_PUBLIC_SOLANA_NETWORK") = false ->
   getUsdcMint env lib None = Return Solana.USDC_MINT_MAINNET /\
   getSolanaNetwork env = "devnet" /\
   (forall config, validateEnv env = inl config ->
                   NEXT_PUBLIC_SOLANA_NETWORK config = "devnet")).
Proof.
  unfold getUsdcMint, getSolanaNetwork. split.
  - intros O network. rewrite O. reflexivity.
  - intros O N. rewrite O.
    assert (D : forall d, orElse (env "NEXT_PUBLIC_SOLANA_NETWORK") d = d).
    { intros d. unfold orElse. unfold truthy in N.
      destruct (env "NEXT_PUBLIC_SOLANA_NETWORK") as [s|]; [|reflexivity].
      apply negb_false_iff in N. rewrite N. reflexivity. }
    rewrite !D. split; [reflexivity|]. split; [reflexivity|].
    intros config V. unfold validateEnv in V.
    destruct (filter _ _); [|discriminate]. inversion V. simpl. apply D.
Qed.

Lemma usdc_mint_selection_witness :
  getUsdcMint noVariables sampleLib None = Return Solana.USDC_MINT_MAINNET /\
  getSolanaNetwork noVariables = "devnet".
Proof.
  destruct (proj2 (usdc_mint_selection noVariables sampleLib) eq_refl eq_refl) as [M [N _]].
  split; [exact M | exact N].
Defined.

(** ** The mint of the holder token *)

Import HolderMint.

Lemma prefix_occurs (needle s : string) (c : ascii) :
  String.prefix needle s = true -> occurs c needle = true -> occurs c s = true.
Proof.
  revert s. induction needle as [|d needle IH]; intros s P O; [discriminate|].
  destruct s as [|d' s]; simpl in P; [discriminate|].
  destruct (ascii_dec d d') as [E|E]; [|discriminate]. subst d'.
  simpl in O. simpl. destruct (Ascii.eqb c d); [reflexivity|]. simpl in *.
  apply IH; assumption.
Qed.

Lemma includes_occurs (s needle : string) (c : ascii) :
  includes s needle = true -> occurs c needle = true -> occurs c s = true.
Proof.
  induction s as [|d s IH]; intros I O; rewrite includes_unfold in I.
  - destruct (String.prefix needle "") eqn:P; [|discriminate].
    apply (prefix_occurs needle "" c P O).
  - destruct (String.prefix needle (String d s)) eqn:P.
    + apply (prefix_occurs needle _ c P O).
    + simpl. rewrite (IH I O). apply orb_true_r.
Qed.

Lemma base58_occurs (s : string) (c : ascii) :
  isBase58 s = true -> occurs c s = true -> occurs c base58Alphabet = true.
Proof.
  induction s as [|d s IH]; intros B O; [discriminate|].
  simpl in B, O. apply andb_prop in B. destruct B as [Bd B].
  destruct (Ascii.eqb c d) eqn:E.
  - apply Ascii.eqb_eq in E. subst d. exact Bd.
  - apply IH; assumption.
Qed.

(** [validateB402Mint] accepts every address: the text that it looks
    for contains a zero and a capital I, which no address has in its
    base58 form.  In particular it accepts the placeholder of a deployment
    that configures no mint. *)
Theorem validateB402Mint_accepts_every_address (env : Env) (lib : Library) (mint : PublicKey) :
  B402_MINT env lib = Return mint ->
  isBase58 mint = true ->
  validateB402Mint mint = true.
Proof.
  intros _ B. unfold validateB402Mint.
  destruct (includes mint "B402MINT111") eqn:I; [|reflexivity].
  pose proof (includes_occurs mint "B402MINT111" "0"%char I eq_refl) as O.
  pose proof (base58_occurs mint "0"%char B O) as A.
  vm_compute in A. discriminate.
Qed.

Lemma validateB402Mint_placeholder_witness :
  B402_MINT noVariables sampleLib = Return "11111111111111111111111111111111" /\
  validateB402Mint "11111111111111111111111111111111" = true.
Proof.
  split; [reflexivity|].
  apply (validateB402Mint_accepts_every_address noVariables sampleLib
           "11111111111111111111111111111111"); reflexivity.
Defined.

(** ** Verification through the Solana Pay library *)

Import SolanaPay.

Lemma pollFrom_bounded (ledger : Ledger) (options : PaymentVerificationOptions)
    (startTime timeout maxAttempts : Z) (now : nat -> Z) :
  forall remaining attempts,
    let run := pollFrom ledger options startTime timeout maxAttempts now remaining attempts in
    (snd run <= remaining)%nat /\
    (forall info, fst run = inl info ->
       (1 <= snd run)%nat /\
       findReference ledger (attempts + (snd run - 1))%nat = inl info /\
       validateTransfer ledger (attempts + (snd run - 1))%nat (foundSignature info) = inl tt) /\
    (forall k, (k < snd run - 1)%nat ->
       exists message, attemptOnce ledger options (attempts + k)%nat
                       = inr (FindReferenceError message)).
Proof.
  induction remaining as [|remaining IH]; intros attempts; simpl.
  - split; [lia|]. split; [intros info E; discriminate | intros k L; lia].
  - destruct (attemptOnce ledger options attempts) as [found|error] eqn:A.
    + simpl. split; [lia|]. split; [|intros k L; lia].
      intros info E. inversion E; subst. split; [lia|]. rewrite Nat.add_0_r.
      unfold attemptOnce in A.
      destruct (findReference ledger attempts) as [signatureInfo|e]; [|discriminate].
      destruct (validateTransfer ledger attempts (foundSignature signatureInfo))
        as [[]|e] eqn:V.
      * inversion A; subst. split; [reflexivity | exact V].
      * destruct e; discriminate.
    + assert (Stop : forall e, (snd (@inr SignatureInfo Failure e, 1%nat) <= S remaining)%nat /\
               (forall info, fst (@inr SignatureInfo Failure e, 1%nat) = inl info ->
                  (1 <= 1)%nat /\
                  findReference ledger (attempts + (1 - 1))%nat = inl info /\
                  validateTransfer ledger (attempts + (1 - 1))%nat (foundSignature info)
                  = inl tt) /\
               (forall k, (k < 1 - 1)%nat ->
                  exists message, attemptOnce ledger options (attempts + k)%nat
                                  = inr (FindReferenceError message))).
      { intros e. simpl. split; [lia|]. split; [intros info E; discriminate | intros k L; lia]. }
      destruct error as [msg|msg|e|x|x|x| |msg|x|x]; try apply Stop.
      destruct (now attempts - startTime >? timeout)%Z; [apply Stop|].
      specialize (IH (S attempts)).
      destruct (pollFrom ledger options startTime timeout maxAttempts now remaining
                  (S attempts)) as [r n].
      simpl in *. destruct IH as [B [F W]]. split; [lia|]. split.
      * intros info E. destruct (F info E) as [One [FR VT]]. split; [lia|].
        replace (attempts + (n - 0))%nat with (S (attempts + (n - 1)))%nat by lia.
        split; assumption.
      * intros [|k] L.
        -- rewrite Nat.add_0_r. exists msg. exact A.
        -- replace (attempts + S k)%nat with (S (attempts + k))%nat by lia.
           apply W. lia.
Qed.

(** [verifyPaymentWithSolanaPay] looks for the reference at most once
    per full second of its timeout: with a timeout below one second it
    fails without asking the ledger at all.  A result that it returns was
    found by its last poll and passed the validation of the library there,
    and every poll before the last one ended with a find-reference
    error. *)
Theorem solana_pay_polls_are_bounded (ledger : Ledger) (options : PaymentVerificationOptions)
    (startTime : Z) (now : nat -> Z) :
  let run := verifyPaymentWithSolanaPay ledger options startTime now in
  let timeout := match payTimeout options with Some t => t | None => 30000%Z end in
  (Z.of_nat (snd run) <= Z.max 0 (timeout / 1000))%Z /\
  ((timeout < 1000)%Z -> run = (inr (AttemptsExhausted (timeout / 1000)), O)) /\
  (forall info, fst run = inl info ->
     (1 <= snd run)%nat /\
     findReference ledger (snd run - 1)%nat = inl info /\
     validateTransfer ledger (snd run - 1)%nat (foundSignature info) = inl tt) /\
  (forall k, (k < snd run - 1)%nat ->
     exists message, attemptOnce ledger options k = inr (FindReferenceError message)).
Proof.
  unfold verifyPaymentWithSolanaPay.
  set (timeout := match payTimeout options with Some t => t | None => 30000%Z end).
  cbv zeta.
  pose proof (pollFrom_bounded ledger options startTime timeout (timeout / 1000) now
                (Z.to_nat (timeout / 1000)) 0) as [B [F W]].
  split; [lia|]. split; [|split; [exact F | exact W]].
  intros T. assert (D : (timeout / 1000 <= 0)%Z).
  { destruct (Z_lt_le_dec 0 (timeout / 1000)) as [P|P]; [|exact P].
    pose proof (Z.mul_div_le timeout 1000 ltac:(lia)). lia. }
  replace (Z.to_nat (timeout / 1000)) with O by lia. reflexivity.
Qed.

Lemma solana_pay_short_timeout_witness :
  verifyPaymentWithSolanaPay paid (payRequest (Some 999%Z)) 0 (fun _ => 0%Z)
  = (inr (AttemptsExhausted 0), O)
  /\ fst (verifyPaymentWithSolanaPay paid (payRequest (Some 1000%Z)) 0 (fun _ => 0%Z))
     = findReference paid 0.
Proof.
  split.
  - apply (proj1 (proj2 (solana_pay_polls_are_bounded paid (payRequest (Some 999%Z)) 0
                           (fun _ => 0%Z)))).
    simpl. lia.
  - reflexivity.
Defined.

Lemma retryValidation_outcomes (validate : nat -> unit + Failure) (retryDelay : Z) :
  forall remaining attempt,
    let run := retryValidation validate retryDelay remaining attempt in
    let calls := snd (fst run) in
    (calls <= remaining)%nat /\
    List.length (snd run) = (calls - 1)%nat /\
    ((1 <= remaining)%nat -> (1 <= calls)%nat /\ fst (fst run) = validate (attempt + (calls - 1))%nat)
    /\
    (forall k, (k < calls - 1)%nat ->
       exists error, validate (attempt + k)%nat = inr error /\
                     forall message, error <> ValidateTransferError message).
Proof.
  induction remaining as [|remaining IH]; intros attempt; simpl.
  - split; [lia|]. split; [reflexivity|]. split; [lia | intros k L; lia].
  - destruct (validate attempt) as [[]|error] eqn:V.
    + simpl. rewrite Nat.add_0_r. split; [lia|]. split; [reflexivity|].
      split; [intros _; split; [lia | symmetry; exact V] | intros k L; lia].
    + assert (Stop :
        (snd (fst (@inr unit Failure error, 1%nat, @nil Z)) <= S remaining)%nat /\
        List.length (snd (@inr unit Failure error, 1%nat, @nil Z)) = (1 - 1)%nat /\
        ((1 <= S remaining)%nat ->
         (1 <= 1)%nat /\ inr error = validate (attempt + (1 - 1))%nat) /\
        (forall k, (k < 1 - 1)%nat ->
           exists error', validate (attempt + k)%nat = inr error' /\
                          forall message, error' <> ValidateTransferError message)).
      { simpl. rewrite Nat.add_0_r. split; [lia|]. split; [reflexivity|].
        split; [intros _; split; [lia | symmetry; exact V] | intros k L; lia]. }
      assert (Again : (forall message, error <> ValidateTransferError message) ->
        let run :=
          match remaining with
          | O => (@inr unit Failure error, 1%nat, @nil Z)
          | S _ =>
              let '(r, n, pauses) := retryValidation validate retryDelay remaining (S attempt) in
              (r, S n, (retryDelay * 2 ^ Z.of_nat attempt)%Z :: pauses)
          end in
        (snd (fst run) <= S remaining)%nat /\
        List.length (snd run) = (snd (fst run) - 1)%nat /\
        ((1 <= S remaining)%nat ->
         (1 <= snd (fst run))%nat /\
         fst (fst run) = validate (attempt + (snd (fst run) - 1))%nat) /\
        (forall k, (k < snd (fst run) - 1)%nat ->
           exists error', validate (attempt + k)%nat = inr error' /\
                          forall message, error' <> ValidateTransferError message)).
      { intros NV. destruct remaining as [|remaining]; [exact Stop|].
        specialize (IH (S attempt)).
        destruct (retryValidation validate retryDelay (S remaining) (S attempt))
          as [[r n] pauses].
        simpl in *. destruct IH as [B [P [L W]]]. destruct (L ltac:(lia)) as [One Last].
        split; [lia|]. split; [lia|]. split.
        - intros _. split; [lia|].
          replace (attempt + (n - 0))%nat with (S (attempt + (n - 1)))%nat by lia. exact Last.
        - intros [|k] Lk.
          + rewrite Nat.add_0_r. exists error. split; [exact V | exact NV].
          + replace (attempt + S k)%nat with (S (attempt + k))%nat by lia. apply W. lia. }
      destruct error as [msg|msg|e|x|x|x| |msg|x|x];
        try (apply Again; intros message'; discriminate).
      exact Stop.
Qed.

(** [validateTransferWithRetry] calls the validation of the library at
    most [maxRetries] times, where zero and undefined count as three, and
    pauses once between two calls; a validation error is never retried.
    With at least one call allowed, what it settles to is what the last
    call settled to.  With a negative [maxRetries] it resolves without
    having validated anything. *)
Theorem validateTransferWithRetry_outcomes (validate : nat -> unit + Failure)
    (maxRetries retryDelay : option Z) :
  let run := validateTransferWithRetry validate maxRetries retryDelay in
  let calls := snd (fst run) in
  let limit := orNumber maxRetries 3 in
  (Z.of_nat calls <= Z.max 0 limit)%Z /\
  List.length (snd run) = (calls - 1)%nat /\
  ((1 <= limit)%Z -> (1 <= calls)%nat /\ fst (fst run) = validate (calls - 1)%nat) /\
  ((limit < 0)%Z -> run = (inl tt, O, [])) /\
  (forall k, (k < calls - 1)%nat ->
     exists error, validate k = inr error /\
                   forall message, error <> ValidateTransferError message) /\
  validateTransferWithRetry validate (Some 0%Z) retryDelay
  = validateTransferWithRetry validate None retryDelay.
Proof.
  unfold validateTransferWithRetry.
  set (limit := orNumber maxRetries 3). cbv zeta.
  pose proof (retryValidation_outcomes validate (orNumber retryDelay 1000)
                (Z.to_nat limit) 0) as [B [P [L W]]].
  split; [lia|]. split; [exact P|]. split; [|split; [|split; [exact W | reflexivity]]].
  - intros One. apply L. lia.
  - intros N. replace (Z.to_nat limit) with O by lia. reflexivity.
Qed.

Lemma validateTransferWithRetry_witness :
  validateTransferWithRetry flaky (Some (-1)%Z) None = (inl tt, O, [])
  /\ validateTransferWithRetry flaky (Some 0%Z) None = (inl tt, 2%nat, [1000%Z]).
Proof.
  split.
  - apply (proj1 (proj2 (proj2 (proj2 (validateTransferWithRetry_outcomes flaky
                                         (Some (-1)%Z) None))))).
    simpl. lia.
  - reflexivity.
Defined.

(** ** Spam detection *)

Import SpamDetector.

Lemma when_length (condition : bool) (f : Flag) : (List.length (when condition f) <= 1)%nat.
Proof. destruct condition; simpl; lia. Qed.

Lemma flagsOf_length (token : TokenForSpamCheck) : (List.length (flagsOf token) <= 8)%nat.
Proof.
  unfold flagsOf. repeat rewrite length_app.
  pose proof (when_length
                (truthy (match metadata token with Some m => freezeAuthority m | None => None end))
                FreezeAuthority).
  pose proof (when_length
                (match usdValue token with Some v => (v <? 0.01)%float | None => false end)
                LowUsdValue).
  pose proof (when_length (orb (negb (truthy (name token))) (negb (truthy (symbol token))))
                MissingMetadata).
  pose proof (when_length
                (match uiAmount token with Some u => (u =? 0)%float | None => false end)
                ZeroBalance).
  assert (List.length
            (if truthy (name token)
             then match filter (fun keyword =>
                                  includes (toLowerCase (orElse (name token) "")) keyword)
                          SCAM_KEYWORDS with
                  | [] => []
                  | _ :: _ => [ScamKeywords
                                 (filter (fun keyword =>
                                            includes (toLowerCase (orElse (name token) ""))
                                              keyword) SCAM_KEYWORDS)]
                  end
             else []) <= 1)%nat.
  { destruct (truthy (name token)); [|simpl; lia]. destruct (filter _ _); simpl; lia. }
  assert (List.length
            (match decimals token with
             | Some d => when (9 <? d)%float (UnusualDecimals d)
             | None => []
             end) <= 1)%nat.
  { destruct (decimals token); [apply when_length | simpl; lia]. }
  assert (List.length
            (match (if truthy (symbol token) then symbol token else None) with
             | Some text => when (Nat.ltb 10 (String.length text))
                              (LongSymbol (String.length text))
             | None => []
             end) <= 1)%nat.
  { destruct (if truthy (symbol token) then symbol token else None);
      [apply when_length | simpl; lia]. }
  assert (List.length
            (match (if truthy (symbol token) then symbol token else None) with
             | Some text => when (negb (alphanumeric text)) SpecialCharacters
             | None => []
             end) <= 1)%nat.
  { destruct (if truthy (symbol token) then symbol token else None);
      [apply when_length | simpl; lia]. }
  lia.
Qed.

Lemma when_other (condition : bool) (f : Flag) :
  mentionsFreezeAuthority f = false ->
  existsb mentionsFreezeAuthority (when condition f) = false.
Proof. intros O. destruct condition; simpl; [rewrite O|]; reflexivity. Qed.

Lemma flagsOf_freeze (token : TokenForSpamCheck) :
  existsb mentionsFreezeAuthority (flagsOf token) = truthy (freezeAuthorityOf token).
Proof.
  unfold flagsOf, freezeAuthorityOf. repeat rewrite existsb_app.
  rewrite (when_other _ LowUsdValue eq_refl), (when_other _ MissingMetadata eq_refl),
    (when_other _ ZeroBalance eq_refl).
  assert (K : existsb mentionsFreezeAuthority
            (if truthy (name token)
             then match filter (fun keyword =>
                                  includes (toLowerCase (orElse (name token) "")) keyword)
                          SCAM_KEYWORDS with
                  | [] => []
                  | _ :: _ => [ScamKeywords
                                 (filter (fun keyword =>
                                            includes (toLowerCase (orElse (name token) ""))
                                              keyword) SCAM_KEYWORDS)]
                  end
             else []) = false).
  { destruct (truthy (name token)); [|reflexivity]. destruct (filter _ _); reflexivity. }
  rewrite K. clear K.
  assert (D : existsb mentionsFreezeAuthority
            (match decimals token with
             | Some d => when (9 <? d)%float (UnusualDecimals d)
             | None => []
             end) = false).
  { destruct (decimals token); [apply when_other|]; reflexivity. }
  rewrite D. clear D.
  assert (L : existsb mentionsFreezeAuthority
            (match (if truthy (symbol token) then symbol token else None) with
             | Some text => when (Nat.ltb 10 (String.length text))
                              (LongSymbol (String.length text))
             | None => []
             end) = false).
  { destruct (if truthy (symbol token) then symbol token else None);
      [apply when_other|]; reflexivity. }
  rewrite L. clear L.
  assert (C : existsb mentionsFreezeAuthority
            (match (if truthy (symbol token) then symbol token else None) with
             | Some text => when (negb (alphanumeric text)) SpecialCharacters
             | None => []
             end) = false).
  { destruct (if truthy (symbol token) then symbol token else None);
      [apply when_other|]; reflexivity. }
  rewrite C. clear C.
  destruct (truthy (match metadata token with Some m => freezeAuthority m | None => None end));
    reflexivity.
Qed.

(** The verdict of [detectSpamToken].  A token whose symbol is one of
    the known symbols, in any case, is answered as clean without any check,
    whatever its mint, name or freeze authority.  For every other token
    there is one recommendation per flag and at most eight flags; the token
    counts as spam exactly when it has two flags or more, and then its risk
    is never low; its risk is critical exactly when it has a freeze
    authority, so that a token with this flag alone is critical without
    counting as spam; and the confidence is at least twenty per flag, up to
    the bound of one hundred. *)
Theorem spam_verdict_characterised (token : TokenForSpamCheck) :
  let result := detectSpamToken token in
  (isKnownLegitimate token = true ->
   result = {| isSpam := false; riskLevel := Low; flags := []; confidence := 0;
               recommendations := [] |}) /\
  (isKnownLegitimate token = false ->
   flags result = flagsOf token /\
   List.length (recommendations result) = List.length (flags result) /\
   (List.length (flags result) <= 8)%nat /\
   (isSpam result = true <-> (2 <= List.length (flags result))%nat) /\
   (riskLevel result = Critical <-> truthy (freezeAuthorityOf token) = true) /\
   (isSpam result = true -> riskLevel result <> Low) /\
   (Nat.min (20 * List.length (flags result)) 100 <= confidence result <= 100)%nat).
Proof.
  unfold detectSpamToken. cbv zeta. split.
  - intros K. rewrite K. reflexivity.
  - intros K. rewrite K.
    pose proof (flagsOf_length token) as Len.
    rewrite <- (flagsOf_freeze token).
    set (fl := flagsOf token) in *. clearbody fl.
    destruct (existsb mentionsFreezeAuthority fl) eqn:Fr; cbn [isSpam riskLevel flags
      confidence recommendations].
    + rewrite length_map. split; [reflexivity|]. split; [reflexivity|]. split; [exact Len|].
      split; [apply Nat.leb_le|]. split; [split; reflexivity|].
      split; [discriminate | lia].
    + destruct (orb (Nat.leb 3 (List.length fl)) (existsb mentionsScamKeywords fl)) eqn:Hi;
        cbn [isSpam riskLevel flags confidence recommendations].
      * rewrite length_map. split; [reflexivity|]. split; [reflexivity|]. split; [exact Len|].
        split; [apply Nat.leb_le|]. split; [split; discriminate|].
        split; [discriminate | lia].
      * apply orb_false_iff in Hi. destruct Hi as [Three _]. apply Nat.leb_gt in Three.
        destruct (Nat.eqb (List.length fl) 2) eqn:Two;
          cbn [isSpam riskLevel flags confidence recommendations].
        -- apply Nat.eqb_eq in Two.
           rewrite length_map. split; [reflexivity|]. split; [reflexivity|].
           split; [exact Len|].
           split; [apply Nat.leb_le|]. split; [split; discriminate|].
           split; [discriminate | lia].
        -- apply Nat.eqb_neq in Two.
           destruct (Nat.eqb (List.length fl) 1) eqn:One;
             cbn [isSpam riskLevel flags confidence recommendations];
             rewrite length_map; (split; [reflexivity|]); (split; [reflexivity|]);
             (split; [exact Len|]); (split; [apply Nat.leb_le|]);
             (split; [split; discriminate|]);
             (split; [intros Spam; apply Nat.leb_le in Spam; lia | lia]).
Qed.

Lemma spam_verdict_witness :
  detectSpamToken impersonator
  = {| isSpam := false; riskLevel := Low; flags := []; confidence := 0;
       recommendations := [] |}
  /\ (isSpam (detectSpamToken freezable) = false /\
      riskLevel (detectSpamToken freezable) = Critical /\
      confidence (detectSpamToken freezable) = 90%nat).
Proof.
  split.
  - apply (proj1 (spam_verdict_characterised impersonator)). vm_compute. reflexivity.
  - split; [vm_compute; reflexivity|]. split; [|vm_compute; reflexivity].
    apply (proj2 (spam_verdict_characterised freezable)); vm_compute; reflexivity.
Defined.

Lemma mapGet_mapSet (V : Type) (results : list (string * V)) (key key' : string) (value : V) :
  mapGet (mapSet results key value) key' =
  if String.eqb key key' then Some value else mapGet results key'.
Proof.
  induction results as [|[k v] results IH]; simpl.
  - destruct (String.eqb key key'); reflexivity.
  - destruct (String.eqb k key) eqn:E; simpl.
    + apply String.eqb_eq in E. subst k.
      destruct (String.eqb key key'); reflexivity.
    + rewrite IH. destruct (String.eqb k key') eqn:E'; [|reflexivity].
      apply String.eqb_eq in E'. subst k. rewrite String.eqb_sym, E. reflexivity.
Qed.

Lemma find_app_found (A : Type) (p : A -> bool) (l l' : list A) (a : A) :
  find p l = Some a -> find p (l ++ l') = Some a.
Proof.
  induction l as [|b l IH]; simpl; [discriminate|].
  destruct (p b); [auto | exact IH].
Qed.

Lemma find_none_app (A : Type) (p : A -> bool) (l l' : list A) :
  find p l = None -> find p (l ++ l') = find p l'.
Proof.
  induction l as [|b l IH]; simpl; [reflexivity|].
  destruct (p b); [discriminate | exact IH].
Qed.

Lemma detectSpamTokens_from (tokens : list TokenForSpamCheck) :
  forall (results : list (string * SpamDetectionResult)) (key : string),
    mapGet (fold_left (fun results token =>
                         mapSet results (mint token) (detectSpamToken token))
              tokens results) key =
    match lastWithMint key tokens with
    | Some token => Some (detectSpamToken token)
    | None => mapGet results key
    end.
Proof.
  unfold lastWithMint.
  induction tokens as [|token tokens IH]; intros results key; [reflexivity|].
  cbn [fold_left rev]. rewrite IH, mapGet_mapSet.
  destruct (find (fun t => String.eqb (mint t) key) (rev tokens)) as [t|] eqn:F.
  - rewrite (find_app_found _ _ _ [token] _ F). reflexivity.
  - rewrite (find_none_app _ _ _ [token] F). cbn [find].
    destruct (String.eqb (mint token) key); reflexivity.
Qed.

(** The answers of [detectSpamTokens] by mint: for a mint that occurs
    among the tokens the verdict is the one of the last token with this
    mint, and a mint that does not occur has no answer. *)
Theorem detectSpamTokens_last_token_wins (tokens : list TokenForSpamCheck) (key : string) :
  mapGet (detectSpamTokens tokens) key
  = match lastWithMint key tokens with
    | Some token => Some (detectSpamToken token)
    | None => None
    end.
Proof.
  unfold detectSpamTokens. rewrite detectSpamTokens_from. reflexivity.
Qed.

(** ** The purchase tools of the MCP server *)

Import McpServer.

Lemma holdsFrom_covers (check : Z -> bool) (bits : nat) :
  forall lo n,
    holdsFrom check bits lo = true ->
    (lo <= n < lo + 2 ^ Z.of_nat bits)%Z ->
    check n = true.
Proof.
  induction bits as [|bits IH]; intros lo n C R.
  - simpl in *. replace n with lo by lia. exact C.
  - simpl in C. apply andb_prop in C. destruct C as [C1 C2].
    rewrite Nat2Z.inj_succ, Z.pow_succ_r in R by lia.
    destruct (Z_lt_le_dec n (lo + 2 ^ Z.of_nat bits)).
    + apply (IH lo); [exact C1 | lia].
    + apply (IH (lo + 2 ^ Z.of_nat bits)%Z); [exact C2 | lia].
Qed.

Lemma bronzeOrNothing_up_to_131071 : holdsFrom bronzeOrNothing 17 0 = true.
Proof. vm_cast_no_check (eq_refl true). Qed.

(** The purchase tools agree with the holder tiers: [buy_b402]
    estimates the new tier by the thresholds of [getB402HolderTier], and
    [recommend_b402_purchase] requires the same token amounts and promises
    per tier the savings that [applyB402Discount] grants on the fee of a
    blink.  Its best option, the recommended tier that breaks even first, is
    never another tier than BRONZE: for every whole number of dollars of
    monthly spend up to 131071, the best option is BRONZE from nine dollars
    on and there is none below. *)
Theorem purchase_tools_follow_holder_tiers :
  (forall currentBalance amount_sol,
     estimatedNewTier currentBalance amount_sol
     = tierOfBalance (currentBalance + amount_sol * 250000)%float) /\
  (forall tier spend,
     In tier paidTiers ->
     requiredTokens tier = TIER_THRESHOLDS tier /\
     savingsByTier spend tier
     = (spend * (discountPercentOf (TIER_BENEFITS tier) Blinks / 100))%float) /\
  (forall n,
     (0 <= n < 131072)%Z ->
     match bestRecommendation (NumberOfBigInt n) with
     | Some best => recommendedTier best = BRONZE /\ (9 <= n)%Z
     | None => (n <= 8)%Z
     end).
Proof.
  split; [|split].
  - intros currentBalance amount_sol. reflexivity.
  - intros tier spend I. simpl in I.
    destruct I as [E|[E|[E|[E|[]]]]]; subst tier; split; reflexivity.
  - intros n R.
    pose proof (holdsFrom_covers bronzeOrNothing 17 0 n bronzeOrNothing_up_to_131071 R) as C.
    unfold bronzeOrNothing in C.
    destruct (bestRecommendation (NumberOfBigInt n)) as [best|].
    + destruct (recommendedTier best); try discriminate.
      split; [reflexivity | apply Z.leb_le; exact C].
    + apply Z.leb_le. exact C.
Qed.

Lemma purchase_tools_witness :
  match bestRecommendation (NumberOfBigInt 1000) with
  | Some best => recommendedTier best = BRONZE /\ (9 <= 1000)%Z
  | None => (1000 <= 8)%Z
  end.
Proof.
  apply (proj2 (proj2 purchase_tools_follow_holder_tiers) 1000%Z). lia.
Defined.

(** ** How long the RPC helper waits *)

Section Patience.

Import Retry.

Lemma attempts_delays_listed T (fn : nat -> T + Raised) approx random initialDelay maxDelay
    multiplier retryable :
  forall remaining attempt,
    snd (attempts fn approx random initialDelay maxDelay multiplier retryable remaining attempt)
    = map (fun k => nextDelay approx initialDelay maxDelay multiplier k (random k))
          (seq attempt
             (List.length
                (snd (attempts fn approx random initialDelay maxDelay multiplier retryable
                        remaining attempt)))).
Proof.
  induction remaining as [|remaining IH]; intros attempt; simpl.
  - destruct (fn attempt); reflexivity.
  - destruct (fn attempt) as [v|error]; [reflexivity|].
    destruct (retryable error attempt); [|reflexivity]. simpl.
    specialize (IH (S attempt)).
    destruct (attempts fn approx random initialDelay maxDelay multiplier retryable remaining
                (S attempt)) as [r ds].
    simpl in *. f_equal. exact IH.
Qed.

(** A jittered delay on a base of at most 2000 ms: the cap of 10000 ms
    does not apply, and the delay lies between half the base and the
    base. *)
Lemma delay_between (b r : float) :
  (0 <=? b)%float = true -> (b <=? 2000)%float = true ->
  (0 <=? r)%float = true -> (r <? 1)%float = true ->
  let d := mathMin (b * (0.5 + r * 0.5)) 10000 in
  (valueOf (b * 0.5) <= valueOf d <= valueOf b)%Q.
Proof.
  intros B U R0 R1 d.
  destruct (jittered_bounds b r B R0 R1) as [N [L H]].
  set (t := (b * (0.5 + r * 0.5))%float) in *.
  assert (Fb : (value b < huge)%Z).
  { apply (leb_value b 2000 B eq_refl) in U.
    assert (value 2000 < huge)%Z by (vm_compute; reflexivity). lia. }
  assert (E : d = t).
  { unfold d, mathMin. destruct (leb_not_nan _ _ N) as [_ NaN]. rewrite NaN. cbn [orb].
    change (PrimFloat.is_nan 10000) with false. cbv iota.
    assert (Lt : (t <? 10000)%float = true).
    { apply (ltb_value t 10000 N eq_refl).
      apply (leb_value t b N B) in H. apply (leb_value b 2000 B eq_refl) in U.
      assert (value 2000 < value 10000)%Z by (vm_compute; reflexivity). lia. }
    rewrite Lt. reflexivity. }
  rewrite E. split.
  - apply valueOf_le; [|exact L|].
    + apply (leb_trans 0 (0 * 0.5) (b * 0.5)); [reflexivity|].
      apply mul_mono; try reflexivity; try assumption.
      * left. exact Fb.
      * left. vm_compute. reflexivity.
    + apply (leb_value t b N B) in H. lia.
  - apply valueOf_le; assumption.
Qed.

End Patience.

(** Called without options, [retrySolanaRpc] sleeps at most three times,
    so that it calls the function at most four times; where [Math.pow]
    returns 2 and 4 for the first and second power of 2, the pause after
    the failed attempt number [k] lies between 250 and 500 milliseconds
    times [2 ^ k], and all its pauses together take no more than 3500
    milliseconds, and at least 250 when there is one.  Delay keys passed
    as [undefined] erase the presets of 500 and 10000 milliseconds: the run
    is that of [withExponentialBackoff] without options. *)
Theorem retrySolanaRpc_patience (T : Type) (fn : nat -> T + Retry.Raised)
    (approx : float -> nat -> float) (random : nat -> float) :
  (forall k, (0 <=? random k)%float = true /\ (random k <? 1)%float = true) ->
  approx 2%float 1%nat = 2%float -> approx 2%float 2%nat = 4%float ->
  let delays := snd (Retry.retrySolanaRpc fn approx random Retry.noOptions) in
  (List.length delays <= 3)%nat /\
  (forall k d, nth_error delays k = Some d ->
               250 * 2 ^ Z.of_nat k <= valueOf d /\ valueOf d <= 500 * 2 ^ Z.of_nat k)%Q /\
  (waited delays <= 3500)%Q /\
  (delays <> [] -> 250 <= waited delays)%Q /\
  Retry.retrySolanaRpc fn approx random undefinedDelays
  = Retry.withExponentialBackoff fn approx random Retry.noOptions.
Proof.
  intros R P1 P2. cbv zeta.
  split; [|split; [|split; [|split; [|reflexivity]]]];
  unfold Retry.retrySolanaRpc, Retry.withExponentialBackoff, Retry.noOptions;
  cbn [Retry.orDefault Retry.spread Retry.maxRetries Retry.initialDelayMs Retry.maxDelayMs
       Retry.backoffMultiplier Retry.shouldRetry];
  pose proof (attempts_characterised T fn approx random 500 10000 2 Retry.defaultShouldRetry 3 0)
    as [Len _];
  pose proof (attempts_delays_listed T fn approx random 500 10000 2 Retry.defaultShouldRetry 3 0)
    as Listed;
  cbv zeta in Len;
  set (delays := snd (Retry.attempts fn approx random 500 10000 2 Retry.defaultShouldRetry 3 0))
    in *;
  clearbody delays;
  destruct (R 0%nat) as [R00 R01]; destruct (R 1%nat) as [R10 R11];
  destruct (R 2%nat) as [R20 R21];
  pose proof (delay_between 500 (random 0%nat) eq_refl eq_refl R00 R01) as B0;
  pose proof (delay_between 1000 (random 1%nat) eq_refl eq_refl R10 R11) as B1;
  pose proof (delay_between 2000 (random 2%nat) eq_refl eq_refl R20 R21) as B2;
  cbv zeta in B0, B1, B2;
  change (500 * 0.5)%float with 250%float in B0;
  change (1000 * 0.5)%float with 500%float in B1;
  change (2000 * 0.5)%float with 1000%float in B2;
  assert (V250 : (valueOf 250 == 250)%Q) by (vm_compute; reflexivity);
  assert (V500 : (valueOf 500 == 500)%Q) by (vm_compute; reflexivity);
  assert (V1000 : (valueOf 1000 == 1000)%Q) by (vm_compute; reflexivity);
  assert (V2000 : (valueOf 2000 == 2000)%Q) by (vm_compute; reflexivity);
  assert (D0 : Retry.mathMin (500 * (0.5 + random 0%nat * 0.5)) 10000
               = Retry.nextDelay approx 500 10000 2 0 (random 0%nat)) by reflexivity;
  assert (D1 : Retry.mathMin (1000 * (0.5 + random 1%nat * 0.5)) 10000
               = Retry.nextDelay approx 500 10000 2 1 (random 1%nat))
    by (unfold Retry.nextDelay, Retry.mathPow; rewrite P1; reflexivity);
  assert (D2 : Retry.mathMin (2000 * (0.5 + random 2%nat * 0.5)) 10000
               = Retry.nextDelay approx 500 10000 2 2 (random 2%nat))
    by (unfold Retry.nextDelay, Retry.mathPow; rewrite P2; reflexivity);
  rewrite D0 in B0; rewrite D1 in B1; rewrite D2 in B2; clear D0 D1 D2.
  - exact Len.
  - destruct (List.length delays) as [|[|[|[|n]]]] eqn:N; [| | | |lia];
      cbn [seq map] in Listed; rewrite Listed;
      intros [|[|[|k]]] d E; cbn [nth_error] in E; try discriminate E;
      try (destruct k; discriminate E);
      inversion E; subst d; cbn [Z.of_nat Pos.of_succ_nat Pos.succ];
      [change (250 * 2 ^ 0)%Q with 250%Q; change (500 * 2 ^ 0)%Q with 500%Q
      |change (250 * 2 ^ 0)%Q with 250%Q; change (500 * 2 ^ 0)%Q with 500%Q
      |change (250 * 2 ^ 1)%Q with (250 * 2)%Q; change (500 * 2 ^ 1)%Q with (500 * 2)%Q
      |change (250 * 2 ^ 0)%Q with 250%Q; change (500 * 2 ^ 0)%Q with 500%Q
      |change (250 * 2 ^ 1)%Q with (250 * 2)%Q; change (500 * 2 ^ 1)%Q with (500 * 2)%Q
      |change (250 * 2 ^ 2)%Q with (250 * 4)%Q; change (500 * 2 ^ 2)%Q with (500 * 4)%Q];
      split; lra.
  - destruct (List.length delays) as [|[|[|[|n]]]] eqn:N; [| | | |lia];
      cbn [seq map] in Listed; rewrite Listed; unfold waited; cbn [map fold_right]; lra.
  - destruct (List.length delays) as [|[|[|[|n]]]] eqn:N; [| | | |lia];
      cbn [seq map] in Listed; rewrite Listed; unfold waited; cbn [map fold_right];
      intros NE; [congruence|lra|lra|lra].
Qed.

Lemma retrySolanaRpc_patience_witness :
  snd (Retry.retrySolanaRpc badGateway repeatedProduct (fun _ => 0.5%float) Retry.noOptions)
  = [375; 750; 1500]%float
  /\ (waited (snd (Retry.retrySolanaRpc badGateway repeatedProduct (fun _ => 0.5%float)
                     Retry.noOptions))
      <= 3500)%Q
  /\ snd (Retry.retrySolanaRpc badGateway repeatedProduct (fun _ => 0.5%float) undefinedDelays)
     = [750; 1500; 3000]%float.
Proof.
  split; [reflexivity|]. split; [|reflexivity].
  refine (proj1 (proj2 (proj2 (retrySolanaRpc_patience unit badGateway repeatedProduct
                                 (fun _ => 0.5%float) _ _ _)))).
  - intros k. split; reflexivity.
  - reflexivity.
  - reflexivity.
Defined.

(** ** Prices in whole cents *)

Lemma centsExact_up_to_32767 : holdsFrom centsExact 15 0 = true.
Proof. vm_cast_no_check (eq_refl true). Qed.

(** For every price of a whole number of cents below 327.68 dollars, given
    as the double nearest to it, [usdcToAtomic] returns exactly 10000 atomic
    units per cent, and [atomicToUsdc] of that amount is not below the
    price: a payer who holds exactly the price passes the balance check of
    the payment builder. *)
Theorem whole_cent_prices_convert_exactly (c : Z) :
  (0 <= c < 32768)%Z ->
  usdcToAtomic (NumberOfBigInt c / 100)%float = Return (10000 * c)%Z /\
  (atomicToUsdc (10000 * c) <? NumberOfBigInt c / 100)%float = false.
Proof.
  intros R.
  pose proof (holdsFrom_covers centsExact 15 0 c centsExact_up_to_32767 R) as C.
  unfold centsExact in C. cbv zeta in C. apply andb_prop in C. destruct C as [A B].
  split.
  - destruct (usdcToAtomic (NumberOfBigInt c / 100)%float) as [atomic|e]; [|discriminate].
    apply Z.eqb_eq in A. rewrite A. reflexivity.
  - apply negb_true_iff in B. exact B.
Qed.

Lemma whole_cent_prices_witness :
  usdcToAtomic 0.05%float = Return 50000%Z /\
  (atomicToUsdc 50000 <? 0.05)%float = false.
Proof.
  apply (whole_cent_prices_convert_exactly 5). lia.
Defined.
